(** * Pipeline stack synthesis of [dataall.cdkproxy.stacks.pipeline]

    A shallow embedding of [PipelineStack]: the records it reads, the
    descriptor and buildspec it renders, the repository probe, the
    bootstrap and update paths, the trunk and gitflow topologies and the
    final clean-up, followed by the properties of the design document that
    were checked against it. *)

From Stdlib Require Import ZArith Ascii String List Lia Sorting.Sorted.
From stdpp Require Import base decidable option list strings gmap fin_maps.

Local Open Scope string_scope.
Local Open Scope Z_scope.
Local Open Scope list_scope.

(** ** Characters and strings *)

(** The double quote and the line feed, which the rendered files are full of. *)
Definition dq : string := String (ascii_of_nat 34) EmptyString.
Definition nl : string := String (ascii_of_nat 10) EmptyString.

(** Python's [s[:n]] on a string. *)
Definition py_slice_to (n : nat) (s : string) : string := String.substring 0 n s.

(** [sep.join(l)]. *)
Fixpoint join (sep : string) (l : list string) : string :=
  match l with
  | [] => EmptyString
  | [x] => x
  | x :: rest => x +:+ sep +:+ join sep rest
  end.

(** ** The records read from the store ([db.models]) *)

Module DataPipeline.
Record t := mk {
  DataPipelineUri : string;
  name : string;
  label : string;
  description : string;
  repo : string;
  devStrategy : string;
  template : string;
  environmentUri : string;
  SamlGroupName : string
}.
End DataPipeline.

Module Environment.
Record t := mk {
  environmentUri : string;
  AwsAccountId : string;
  region : string
}.
End Environment.

Module DataPipelineEnvironment.
Record t := mk {
  stage : string;
  order : Z;
  environmentUri : string;
  AwsAccountId : string;
  region : string;
  samlGroupName : string
}.

Definition with_AwsAccountId (a : string) (e : t) : t :=
  mk (stage e) (order e) (environmentUri e) a (region e) (samlGroupName e).
End DataPipelineEnvironment.

Abbreviation DPE := DataPipelineEnvironment.t.

(** ** Build environment variables *)

(** A [codebuild.BuildEnvironmentVariable(value=...)]: the value is a string,
    or the list of stage names for [DEV_STAGES]. *)
Inductive BuildEnvironmentVariable :=
| StrValue (s : string)
| ListValue (l : list string).

#[global] Instance BuildEnvironmentVariable_eq_dec : EqDecision BuildEnvironmentVariable.
Proof. solve_decision. Defined.

Definition make_environment_variables
    (pipeline : DataPipeline.t) (pipeline_environment : DPE)
    (pipeline_env_team : string) (stage : string) (stages : list string)
    : gmap string BuildEnvironmentVariable :=
  let env_vars_1 : gmap string BuildEnvironmentVariable :=
    <["ENVTEAM_ROLENAME" := StrValue pipeline_env_team]>
    (<["AWSREGION" := StrValue (DataPipelineEnvironment.region pipeline_environment)]>
    (<["AWSACCOUNTID" := StrValue (DataPipelineEnvironment.AwsAccountId pipeline_environment)]>
    (<["ENVIRONMENT_URI" := StrValue (DataPipelineEnvironment.environmentUri pipeline_environment)]>
    (<["TEMPLATE" := StrValue (DataPipeline.template pipeline)]>
    (<["DEV_STRATEGY" := StrValue (DataPipeline.devStrategy pipeline)]>
    (<["DEV_STAGES" := ListValue stages]>
    (<["STAGE" := StrValue stage]>
    (<["PIPELINE_NAME" := StrValue (DataPipeline.name pipeline)]>
    (<["PIPELINE_URI" := StrValue (DataPipeline.DataPipelineUri pipeline)]> ∅))))))))) in
  env_vars_1.

(** The keys of the mapping, as a list. *)
Definition env_var_keys : list string :=
  ["PIPELINE_URI"; "PIPELINE_NAME"; "STAGE"; "DEV_STAGES"; "DEV_STRATEGY";
   "TEMPLATE"; "ENVIRONMENT_URI"; "AWSACCOUNTID"; "AWSREGION"; "ENVTEAM_ROLENAME"].

(** ** The stack description *)

(** ["Cloud formation stack of PIPELINE: {}; URI: {}; DESCRIPTION: {}".format(...)[:1024]] *)
Definition stack_description (pipeline : DataPipeline.t) (target_uri : string) : string :=
  py_slice_to 1024
    ("Cloud formation stack of PIPELINE: " +:+ DataPipeline.label pipeline
     +:+ "; URI: " +:+ target_uri
     +:+ "; DESCRIPTION: " +:+ DataPipeline.description pipeline).

(** ** The rendered files *)

Definition sp (n : nat) : string := String.concat EmptyString (repeat " " n).
Definition quoted (s : string) : string := dq +:+ s +:+ dq.

(** One iteration of the loop of [write_ddk_json_multienvironment]: the text
    appended to [json_envs] for one development environment. *)
Definition json_env (env : DPE) : string :=
  "," +:+ nl +:+
  sp 8 +:+ quoted (DataPipelineEnvironment.stage env) +:+ ": {" +:+ nl +:+
  sp 12 +:+ quoted "account" +:+ ": " +:+ quoted (DataPipelineEnvironment.AwsAccountId env) +:+ "," +:+ nl +:+
  sp 12 +:+ quoted "region" +:+ ": " +:+ quoted (DataPipelineEnvironment.region env) +:+ "," +:+ nl +:+
  sp 12 +:+ quoted "stage" +:+ ": " +:+ quoted (DataPipelineEnvironment.stage env) +:+ "," +:+ nl +:+
  sp 12 +:+ quoted "env_vars" +:+ ": {" +:+ nl +:+
  sp 16 +:+ quoted "database" +:+ ": " +:+ quoted "example_database" +:+ "," +:+ nl +:+
  sp 16 +:+ quoted "Team" +:+ ": " +:+ quoted (DataPipelineEnvironment.samlGroupName env) +:+ nl +:+
  sp 12 +:+ "}" +:+ nl +:+
  sp 8 +:+ "}".

(** The loop itself: [json_envs = json_envs + json_env], from the empty string. *)
Definition json_envs (development_environments : list DPE) : string :=
  fold_left (fun acc env => acc +:+ json_env env) development_environments EmptyString.

(** The text bound to [json] in [write_ddk_json_multienvironment]. *)
Definition ddk_json (pipeline_environment : Environment.t)
    (development_environments : list DPE) : string :=
  "{" +:+ nl +:+
  sp 4 +:+ quoted "environments" +:+ ": {" +:+ nl +:+
  sp 8 +:+ quoted "cicd" +:+ ": {" +:+ nl +:+
  sp 12 +:+ quoted "account" +:+ ": " +:+ quoted (Environment.AwsAccountId pipeline_environment) +:+ "," +:+ nl +:+
  sp 12 +:+ quoted "region" +:+ ": " +:+ quoted (Environment.region pipeline_environment) +:+ "," +:+ nl +:+
  sp 12 +:+ quoted "stage" +:+ ": " +:+ quoted "cicd" +:+ nl +:+
  sp 8 +:+ "}" +:+ json_envs development_environments +:+ nl +:+
  sp 4 +:+ "}" +:+ nl +:+
  "}".

(** The text bound to [yaml] in [write_deploy_buildspec], line by line: the
    literal opens with a line break and ends with the indentation of its
    closing quotes. *)
Definition deploy_buildspec_yaml : string :=
  join nl [
    EmptyString;
    "            version: '0.2'";
    "            env:";
    "                git-credential-helper: yes";
    "            phases:";
    "              pre_build:";
    "                commands:";
    "                - n 16.15.1";
    "                - npm install -g aws-cdk";
    "                - pip install aws-ddk";
    "                - pip install -r requirements.txt";
    "              build:";
    "                commands:";
    "                    - aws sts get-caller-identity";
    "                    - ddk deploy";
    "        "
  ].

(** [print(text, file=f)] writes the text and a line break. *)
Definition py_print (text : string) : string := text +:+ nl.

(** ** Reading the buildspec

    The buildspec is block-style YAML of mappings ([key:]) and sequences
    ([- item]).  It is read line by line: a line is its indentation and its
    text, the block of a key is made of the lines below it that are indented
    deeper, together with the sequence items at the key's own indentation. *)

Fixpoint split_lines_aux (cur : string) (s : string) : list string :=
  match s with
  | EmptyString => [String.rev cur]
  | String c rest =>
      if Ascii.eqb c (ascii_of_nat 10) then String.rev cur :: split_lines_aux EmptyString rest
      else split_lines_aux (String c cur) rest
  end.
Definition split_lines (s : string) : list string := split_lines_aux EmptyString s.

Fixpoint indent_of (s : string) : nat * string :=
  match s with
  | String " " rest => let '(n, t) := indent_of rest in (S n, t)
  | _ => (0%nat, s)
  end.

Definition yaml_lines (s : string) : list (nat * string) :=
  filter (fun l => negb (String.eqb (snd l) EmptyString)) (map indent_of (split_lines s)).

Definition is_item (t : string) : bool := String.prefix "- " t.
Definition item_text (t : string) : string := String.substring 2 (String.length t - 2) t.

(** The lines of a block opened at indentation [i]. *)
Fixpoint take_block (i : nat) (ls : list (nat * string)) : list (nat * string) :=
  match ls with
  | [] => []
  | (j, t) :: rest =>
      if (i <? j)%nat || ((i =? j)%nat && is_item t) then (j, t) :: take_block i rest else []
  end.

(** The block below the first line [key:] of [ls]. *)
Fixpoint block_of (key : string) (ls : list (nat * string)) : list (nat * string) :=
  match ls with
  | [] => []
  | (i, t) :: rest =>
      if String.eqb t (key +:+ ":") then take_block i rest else block_of key rest
  end.

(** The keys of a mapping block: the lines [key:] at the block's own
    indentation (that of its first line). *)
Definition keys_of (block : list (nat * string)) : list string :=
  match block with
  | [] => []
  | (i, _) :: _ =>
      omap (fun l : nat * string =>
              let '(j, t) := l in
              let n := String.length t in
              if (i =? j)%nat && String.eqb (String.substring (n - 1) 1 t) ":"
              then Some (String.substring 0 (n - 1) t) else None) block
  end.

(** The items of a sequence block. *)
Definition items_of (block : list (nat * string)) : list string :=
  omap (fun l : nat * string => if is_item (snd l) then Some (item_text (snd l)) else None) block.

Definition buildspec_phases (yaml : string) : list string :=
  keys_of (block_of "phases" (yaml_lines yaml)).

Definition buildspec_commands (phase yaml : string) : list string :=
  items_of (block_of "commands" (block_of phase (block_of "phases" (yaml_lines yaml)))).

(** ** JSON documents

    The descriptor is a JSON text whose values are strings and objects.  A
    document is printed in the layout of four-space indented JSON, and a text
    is read back by a parser of the same fragment of the JSON grammar. *)

#[local] Unset Elimination Schemes.
Inductive json :=
| JString (s : string)
| JObject (members : list (string * json)).
#[local] Set Elimination Schemes.

Definition bs : string := String (ascii_of_nat 92) EmptyString.

Definition hex_digit (n : nat) : ascii :=
  ascii_of_nat (if (n <? 10)%nat then 48 + n else 87 + n).

(** The escape of one character inside a JSON string. *)
Definition escape_char (c : ascii) : string :=
  let n := nat_of_ascii c in
  if (n =? 34)%nat then bs +:+ dq
  else if (n =? 92)%nat then bs +:+ bs
  else if (n =? 10)%nat then bs +:+ "n"
  else if (n =? 13)%nat then bs +:+ "r"
  else if (n =? 9)%nat then bs +:+ "t"
  else if (n =? 8)%nat then bs +:+ "b"
  else if (n =? 12)%nat then bs +:+ "f"
  else if (n <? 32)%nat then
    bs +:+ "u00" +:+ String (hex_digit (n / 16)) (String (hex_digit (n mod 16)) EmptyString)
  else String c EmptyString.

Fixpoint escape (s : string) : string :=
  match s with
  | EmptyString => EmptyString
  | String c rest => escape_char c +:+ escape rest
  end.

(** [dumps indent j]: the text of [j] when it stands at indentation [indent]. *)
Fixpoint dumps (indent : nat) (j : json) : string :=
  match j with
  | JString s => quoted (escape s)
  | JObject [] => "{}"
  | JObject members =>
      "{" +:+ nl +:+
      join ("," +:+ nl)
        (List.map (fun m : string * json =>
                     sp (indent + 4) +:+ quoted (escape (fst m)) +:+ ": " +:+
                     dumps (indent + 4) (snd m)) members) +:+
      nl +:+ sp indent +:+ "}"
  end.

Definition is_ws (c : ascii) : bool :=
  let n := nat_of_ascii c in
  (n =? 32)%nat || (n =? 10)%nat || (n =? 13)%nat || (n =? 9)%nat.

Fixpoint skip_ws (s : string) : string :=
  match s with
  | String c rest => if is_ws c then skip_ws rest else s
  | EmptyString => s
  end.

Definition hex_value (c : ascii) : option nat :=
  let n := nat_of_ascii c in
  if (48 <=? n)%nat && (n <=? 57)%nat then Some (n - 48)%nat
  else if (97 <=? n)%nat && (n <=? 102)%nat then Some (n - 87)%nat
  else if (65 <=? n)%nat && (n <=? 70)%nat then Some (n - 55)%nat
  else None.

(** The character a two-character escape stands for. *)
Definition unescape (e : ascii) : option ascii :=
  let n := nat_of_ascii e in
  if (n =? 34)%nat then Some (ascii_of_nat 34)
  else if (n =? 92)%nat then Some (ascii_of_nat 92)
  else if (n =? 47)%nat then Some (ascii_of_nat 47)
  else if (n =? 110)%nat then Some (ascii_of_nat 10)
  else if (n =? 114)%nat then Some (ascii_of_nat 13)
  else if (n =? 116)%nat then Some (ascii_of_nat 9)
  else if (n =? 98)%nat then Some (ascii_of_nat 8)
  else if (n =? 102)%nat then Some (ascii_of_nat 12)
  else None.

Definition cons_char (c : ascii) (r : option (string * string)) : option (string * string) :=
  match r with
  | Some (s, rest) => Some (String c s, rest)
  | None => None
  end.

(** The characters of a string, read after its opening quote up to the
    closing one.  A [\uXXXX] escape is read when it names a single byte. *)
Fixpoint parse_chars (s : string) : option (string * string) :=
  match s with
  | EmptyString => None
  | String c rest =>
      let n := nat_of_ascii c in
      if (n =? 34)%nat then Some (EmptyString, rest)
      else if (n =? 92)%nat then
        match rest with
        | EmptyString => None
        | String e rest' =>
            if (nat_of_ascii e =? 117)%nat then
              match rest' with
              | String h1 (String h2 (String h3 (String h4 rest''))) =>
                  match hex_value h1, hex_value h2, hex_value h3, hex_value h4 with
                  | Some 0%nat, Some 0%nat, Some a, Some b =>
                      cons_char (ascii_of_nat (16 * a + b)) (parse_chars rest'')
                  | _, _, _, _ => None
                  end
              | _ => None
              end
            else
              match unescape e with
              | Some c' => cons_char c' (parse_chars rest')
              | None => None
              end
        end
      else if (n <? 32)%nat then None
      else cons_char c (parse_chars rest)
  end.

Fixpoint parse_value (fuel : nat) (s : string) : option (json * string) :=
  match fuel with
  | O => None
  | S fuel =>
      match skip_ws s with
      | String c rest =>
          if (nat_of_ascii c =? 34)%nat then
            match parse_chars rest with
            | Some (str, rest') => Some (JString str, rest')
            | None => None
            end
          else if (nat_of_ascii c =? 123)%nat then
            match skip_ws rest with
            | String c' rest' =>
                if (nat_of_ascii c' =? 125)%nat then Some (JObject [], rest')
                else
                  match parse_members fuel rest with
                  | Some (ms, rest'') => Some (JObject ms, rest'')
                  | None => None
                  end
            | EmptyString => None
            end
          else None
      | EmptyString => None
      end
  end
with parse_members (fuel : nat) (s : string) : option (list (string * json) * string) :=
  match fuel with
  | O => None
  | S fuel =>
      match skip_ws s with
      | String c rest =>
          if (nat_of_ascii c =? 34)%nat then
            match parse_chars rest with
            | Some (k, r1) =>
                match skip_ws r1 with
                | String c1 r2 =>
                    if (nat_of_ascii c1 =? 58)%nat then
                      match parse_value fuel r2 with
                      | Some (v, r3) =>
                          match skip_ws r3 with
                          | String c3 r4 =>
                              if (nat_of_ascii c3 =? 44)%nat then
                                match parse_members fuel r4 with
                                | Some (ms, r5) => Some ((k, v) :: ms, r5)
                                | None => None
                                end
                              else if (nat_of_ascii c3 =? 125)%nat then Some ([(k, v)], r4)
                              else None
                          | EmptyString => None
                          end
                      | None => None
                      end
                    else None
                | EmptyString => None
                end
            | None => None
            end
          else None
      | EmptyString => None
      end
  end.

(** A text is a JSON document when one value, and only blanks after it, is
    read from it. *)
Definition parse_json (s : string) : option json :=
  match parse_value (S (String.length s)) s with
  | Some (j, rest) =>
      match skip_ws rest with
      | EmptyString => Some j
      | _ => None
      end
  | None => None
  end.

(** The document the design describes: [{"environments": {"cicd": {...},
    <stage>: {...}, ...}}], the fixed [cicd] entry first and one entry per
    development environment after it, in the order of the list. *)
Definition cicd_entry (pipeline_environment : Environment.t) : json :=
  JObject [("account", JString (Environment.AwsAccountId pipeline_environment));
           ("region", JString (Environment.region pipeline_environment));
           ("stage", JString "cicd")].

Definition stage_entry (env : DPE) : json :=
  JObject [("account", JString (DataPipelineEnvironment.AwsAccountId env));
           ("region", JString (DataPipelineEnvironment.region env));
           ("stage", JString (DataPipelineEnvironment.stage env));
           ("env_vars", JObject [("database", JString "example_database");
                                 ("Team", JString (DataPipelineEnvironment.samlGroupName env))])].

Definition descriptor (pipeline_environment : Environment.t)
    (development_environments : list DPE) : json :=
  JObject [("environments",
            JObject (("cicd", cicd_entry pipeline_environment) ::
                     List.map (fun env => (DataPipelineEnvironment.stage env, stage_entry env))
                       development_environments))].

(** The size of a document, which bounds the depth the parser needs. *)
Fixpoint json_size (j : json) : nat :=
  match j with
  | JString _ => 1
  | JObject members => S (list_sum (List.map (fun m => S (json_size (snd m))) members))
  end.

Definition members_size (members : list (string * json)) : nat :=
  list_sum (List.map (fun m => S (json_size (snd m))) members).

(** The text of one member of an object printed at indentation [indent]. *)
Definition member_text (indent : nat) (m : string * json) : string :=
  sp (indent + 4) +:+ quoted (escape (fst m)) +:+ ": " +:+ dumps (indent + 4) (snd m).

(** A text that begins with a quote, a brace, a colon or a comma begins
    with no blank. *)
Definition no_blank_ahead (s : string) : Prop :=
  match s with
  | String c _ => is_ws c = false
  | EmptyString => True
  end.

(** Text that stands for itself between two quotes: no quote, no backslash
    and no control character. *)
Definition plain_char (c : ascii) : bool :=
  let n := nat_of_ascii c in
  negb ((n =? 34)%nat || (n =? 92)%nat || (n <? 32)%nat).

Fixpoint plain (s : string) : bool :=
  match s with
  | EmptyString => true
  | String c rest => plain_char c && plain rest
  end.

Definition plain_env (env : DPE) : bool :=
  plain (DataPipelineEnvironment.stage env) &&
  plain (DataPipelineEnvironment.AwsAccountId env) &&
  plain (DataPipelineEnvironment.region env) &&
  plain (DataPipelineEnvironment.samlGroupName env).

Definition plain_cicd (e : Environment.t) : bool :=
  plain (Environment.AwsAccountId e) && plain (Environment.region e).

(** ** Exceptions, the world a run acts on, and the monad of a run *)

Abbreviation path := (list string).

(** [os.path.join], on paths given by their components. *)
Infix "</>" := (@app string) (at level 60, right associativity).

Inductive exn :=
| ClientError (code : string)        (* botocore.exceptions.ClientError *)
| Exception                          (* the bare [raise Exception] *)
| UnboundLocalError (var : string)
| FileExistsError (p : path)
| FileNotFoundError (p : path)
| IsADirectoryError (p : path)
| OtherError (what : string).        (* any other exception of a collaborator *)

Inductive result (A : Type) :=
| Ok (a : A)
| Raise (e : exn).
Arguments Ok {A} a.
Arguments Raise {A} e.

Inductive node :=
| File (content : string)
| Dir.

(** The version-control service, a remote collaborator, as section 6 of the
    design describes it: [getBranchTip] reads [tip]; [putFile] is accepted
    only when the parent commit it names is the tip, and answers
    [ConcurrencyConflict] otherwise, leaving the repository as it was. *)
Module CodeCommit.
Record Repository := mk {
  tip : nat;
  files : gmap string string
}.

Inductive PutFileResult :=
| Committed (commit : nat)
| ConcurrencyConflict.

Definition put_file (r : Repository) (file_path content : string) (parent : nat)
    : Repository * PutFileResult :=
  if decide (parent = tip r)
  then (mk (S (tip r)) (<[file_path := content]> (files r)), Committed (S (tip r)))
  else (r, ConcurrencyConflict).

(** A commit of another writer. *)
Definition advance (r : Repository) : Repository := mk (S (tip r)) (files r).
End CodeCommit.

(** The constructs added to the stack.  Identifiers of constructs are taken to
    be distinct; the construct library's own validation is not part of the
    model. *)
Inductive Action :=
| CodeCommitSourceAction (action_name branch repository_name : string)
| CodeBuildAction (action_name project_id : string)
| ManualApprovalAction (action_name : string).

Record StageProps := mkStage {
  stage_name : string;
  actions : list Action
}.

Record PipelineProject := mkProject {
  project_id : string;
  privileged : bool;
  environment_variables : gmap string BuildEnvironmentVariable;
  build_spec : string
}.

Record Pipeline := mkPipeline {
  pipeline_id : string;
  pipeline_name : string;
  restart_execution_on_update : bool;
  stages : list StageProps
}.

Inductive RemovalPolicy := DESTROY | RETAIN.

Inductive Construct :=
| IamPolicy (policy_name : string)
| IamRole (role_name : string)
| KmsKey (alias : string) (enable_key_rotation : bool) (removal_policy : RemovalPolicy)
| AssetC (id : string) (asset_path : path)
| CfnRepository (id repository_name : string) (removal_policy : RemovalPolicy)
| BuildProject (project : PipelineProject)
| CodePipeline (p : Pipeline)
| CfnOutput (id export_name value : string).

Record Credentials := mkCredentials {
  access_key : string;
  secret_key : string;
  token : string
}.

(** What a run can observe but not decide. *)
Record Outside := mkOutside {
  session_fault : option exn;   (* [SessionHelper.remote_session] or [get_credentials] raising *)
  env_creds : option Credentials; (* what [aws.get_credentials()] returns *)
  probe_fault : option exn;     (* [get_repository] failing for another reason than absence *)
  racing_commit : bool;         (* another writer commits between [get-branch] and [put-file] *)
  ddk_init : option (list (path * node)); (* what [ddk init] generates below the new directory *)
  postprocess_fault : option exn; (* [TagsUtil.add_tags] or [CDKNagUtil.check_rules] raising *)
  envname : option string;      (* [os.environ.get('envname')] *)
  cwd : path                    (* the working directory of the process *)
}.

Record World := mkWorld {
  fs : gmap path node;
  remote : gmap string CodeCommit.Repository;
  constructs : list Construct
}.

Definition M (A : Type) : Type := World -> World * result A.

#[global] Instance M_ret : MRet M := fun A a w => (w, Ok a).
#[global] Instance M_bind : MBind M := fun A B f m w =>
  match m w with
  | (w', Ok a) => f a w'
  | (w', Raise e) => (w', Raise e)
  end.

Definition raise {A} (e : exn) : M A := fun w => (w, Raise e).

(** [try: body except Exception as e: handler]. *)
Definition try_except {A} (body : M A) (handler : exn -> M A) : M A := fun w =>
  match body w with
  | (w', Ok a) => (w', Ok a)
  | (w', Raise e) => handler e w'
  end.

Definition get_fs : M (gmap path node) := fun w => (w, Ok (fs w)).
Definition modify_fs (f : gmap path node -> gmap path node) : M unit := fun w =>
  (mkWorld (f (fs w)) (remote w) (constructs w), Ok tt).
Definition add_construct (c : Construct) : M unit := fun w =>
  (mkWorld (fs w) (remote w) (constructs w ++ [c]), Ok tt).

(** ** The file system calls *)

(** The disk is a table of entries by path.  A path is resolved through its
    directories: it names an entry only when every directory above it is one. *)
Definition ancestors (p : path) : list path :=
  List.map (fun n => take n p) (seq 1 (length p - 1)).

Definition resolve (p : path) (m : gmap path node) : option node :=
  match p with
  | [] => Some Dir
  | _ =>
      if forallb (fun q => match m !! q with Some Dir => true | _ => false end) (ancestors p)
      then m !! p else None
  end.

Definition isfile (p : path) (m : gmap path node) : bool :=
  match resolve p m with Some (File _) => true | _ => false end.
Definition isdir (p : path) (m : gmap path node) : bool :=
  match resolve p m with Some Dir => true | _ => false end.
Definition exists_ (p : path) (m : gmap path node) : bool :=
  match resolve p m with Some _ => true | None => false end.

Definition parent (p : path) : path := removelast p.

Fixpoint is_prefix (p q : path) : bool :=
  match p, q with
  | [], _ => true
  | x :: p', y :: q' => bool_decide (x = y) && is_prefix p' q'
  | _ :: _, [] => false
  end.

(** [os.remove]. *)
Definition remove (p : path) (m : gmap path node) : gmap path node := delete p m.

(** [shutil.rmtree]: the directory and everything below it. *)
Definition rmtree (p : path) (m : gmap path node) : gmap path node :=
  filter (fun kv => is_prefix p (fst kv) = false) m.

(** [open(p, 'x')] then [print(text, file=...)]. *)
Definition write_new (p : path) (text : string) : M unit := fun w =>
  if negb (isdir (parent p) (fs w)) then (w, Raise (FileNotFoundError p))
  else if exists_ p (fs w) then (w, Raise (FileExistsError p))
  else modify_fs (insert p (File (py_print text))) w.

(** [open(p, 'w')] then [print(text, file=...)]. *)
Definition write_over (p : path) (text : string) : M unit := fun w =>
  if negb (isdir (parent p) (fs w)) then (w, Raise (FileNotFoundError p))
  else if isdir p (fs w) then (w, Raise (IsADirectoryError p))
  else modify_fs (insert p (File (py_print text))) w.

(** ** The shell commands

    The two scripts the stack hands to [subprocess.run(..., shell=True)].
    Their commands are joined by [; ], so each runs whatever became of the
    one before, and the status of the script is that of its last command.
    [subprocess.run] is called without [check], so it hands the status
    back and raises nothing. *)

Record CompletedProcess := mkProcess { returncode : Z }.

(** [cp src dst] of one file. *)
Definition cp (src dst : path) (m : gmap path node) : gmap path node :=
  match resolve src m with
  | Some (File c) => if isdir (parent dst) m then <[dst := File c]> m else m
  | _ => m
  end.

(** [mkdir p]. *)
Definition mkdir (p : path) (m : gmap path node) : gmap path node :=
  if isdir (parent p) m && negb (exists_ p m) then <[p := Dir]> m else m.

(** The entries strictly below [src], renamed below [dst]. *)
Definition copies_below (src dst : path) (m : gmap path node) : list (path * node) :=
  omap (fun kv : path * node =>
          if is_prefix src (fst kv) && negb (bool_decide (fst kv = src))
          then Some (dst </> drop (length src) (fst kv), snd kv) else None)
       (map_to_list m).

(** [cp -R src/* dst/]. *)
Definition cp_R (src dst : path) (m : gmap path node) : gmap path node * Z :=
  match copies_below src dst m with
  | [] => (m, 1)
  | copies => if isdir dst m then (list_to_map copies ∪ m, 0) else (m, 1)
  end.

(** [ddk init <repo> --generate-only]: the tool is a collaborator; what it
    generates, if it succeeds, is given from outside. *)
Definition run_ddk_init (o : Outside) (target : path) (m : gmap path node) : gmap path node :=
  match ddk_init o with
  | Some entries =>
      list_to_map (List.map (fun kv : path * node => (target </> fst kv, snd kv)) entries)
        ∪ <[target := Dir]> m
  | None => m
  end.

(** ** The stack *)

Module PipelineStack.

(** [os.path.realpath(os.path.join(__file__, "..", "..", "..", "..",
    "blueprints", "data_pipeline_blueprint"))], from the root of the
    installation. *)
Definition code_dir_path : path := ["backend"; "blueprints"; "data_pipeline_blueprint"].

Definition _set_env_vars (o : Outside) (pipeline_environment : Environment.t) : M (gmap string string) :=
  match session_fault o with
  | Some e => raise e
  | None =>
      let env : gmap string string :=
        <["envname" := default "local" (envname o)]>
        (<["CURRENT_AWS_ACCOUNT" := Environment.AwsAccountId pipeline_environment]>
        (<["AWS_DEFAULT_REGION" := Environment.region pipeline_environment]>
        (<["AWS_REGION" := Environment.region pipeline_environment]> ∅))) in
      mret (match env_creds o with
            | Some c =>
                <["AWS_SESSION_TOKEN" := token c]>
                (<["AWS_SECRET_ACCESS_KEY" := secret_key c]>
                (<["AWS_ACCESS_KEY_ID" := access_key c]> env))
            | None => env
            end)
  end.

(** The answer of [get_repository]: a non-empty dictionary. *)
Record RepositoryMetadata := mkMetadata { repositoryName : string }.

Definition get_repository (o : Outside) (repo_name : string) : M RepositoryMetadata :=
  fun w =>
    match probe_fault o with
    | Some e => (w, Raise e)
    | None =>
        match remote w !! repo_name with
        | Some _ => (w, Ok (mkMetadata repo_name))
        | None => (w, Raise (ClientError "RepositoryDoesNotExistException"))
        end
    end.

Definition _check_repository (o : Outside) (repo_name : string)
    : M (option RepositoryMetadata) :=
  try_except
    (repository ← get_repository o repo_name; mret (Some repository))
    (fun e =>
       match e with
       | ClientError code =>
           if String.eqb code "RepositoryDoesNotExistException"
           then mret None
           else raise e
       | _ => raise e
       end).

Definition write_deploy_buildspec (path_ : path) (output_file : path) : M unit :=
  write_new (path_ </> output_file) deploy_buildspec_yaml.

Definition write_ddk_json_multienvironment (path_ : path) (output_file : path)
    (pipeline_environment : Environment.t) (development_environments : list DPE) : M unit :=
  write_over (path_ </> output_file) (ddk_json pipeline_environment development_environments).

Definition cmd_init (pipeline : DataPipeline.t) : list string :=
  let repo := DataPipeline.repo pipeline in
  ["ddk init " +:+ repo +:+ " --generate-only";
   "cp app_multiaccount.py ./" +:+ repo +:+ "/app.py";
   "cp ddk_app/ddk_app_stack_multiaccount.py ./" +:+ repo +:+ "/ddk_app/ddk_app_stack.py";
   "mkdir ./" +:+ repo +:+ "/utils";
   "cp -R utils/* ./" +:+ repo +:+ "/utils/"].

(** What the shell does with [cmd_init] in [code_dir_path]. *)
Definition run_cmd_init (o : Outside) (pipeline : DataPipeline.t) (code_dir_path : path)
    : M CompletedProcess := fun w =>
  let target := code_dir_path </> [DataPipeline.repo pipeline] in
  let m1 := run_ddk_init o target (fs w) in
  let m2 := cp (code_dir_path </> ["app_multiaccount.py"]) (target </> ["app.py"]) m1 in
  let m3 := cp (code_dir_path </> ["ddk_app"; "ddk_app_stack_multiaccount.py"])
               (target </> ["ddk_app"; "ddk_app_stack.py"]) m2 in
  let m4 := mkdir (target </> ["utils"]) m3 in
  let '(m5, status) := cp_R (code_dir_path </> ["utils"]) (target </> ["utils"]) m4 in
  (mkWorld m5 (remote w) (constructs w), Ok (mkProcess status)).

Definition initialize_repo (o : Outside) (pipeline : DataPipeline.t) (code_dir_path : path)
    : M unit :=
  process ← run_cmd_init o pipeline code_dir_path;
  if (returncode process =? 0)%Z then mret tt else mret tt.

Definition update_cmds (pipeline : DataPipeline.t) : list string :=
  ["REPO_NAME=" +:+ DataPipeline.repo pipeline;
   "COMMITID=$(aws codecommit get-branch --repository-name ${REPO_NAME} --branch-name main --query branch.commitId --output text)";
   "aws codecommit put-file --repository-name ${REPO_NAME} --branch-name main --file-content file://ddk.json --file-path ddk.json --parent-commit-id ${COMMITID} --cli-binary-format raw-in-base64-out"].

(** What the shell does with [update_cmds] in [code_dir_path]: the tip of
    [main] is read, then [ddk.json] is submitted with that tip as parent.
    The command line tool ends with a status other than 0 (255 here) when
    the service refuses. *)
Definition run_update_cmds (o : Outside) (pipeline : DataPipeline.t) (code_dir_path : path)
    : M CompletedProcess := fun w =>
  let repo := DataPipeline.repo pipeline in
  match remote w !! repo, resolve (code_dir_path </> ["ddk.json"]) (fs w) with
  | Some r, Some (File content) =>
      let COMMITID := CodeCommit.tip r in
      let r1 := if racing_commit o then CodeCommit.advance r else r in
      let '(r2, answer) := CodeCommit.put_file r1 "ddk.json" content COMMITID in
      (mkWorld (fs w) (<[repo := r2]> (remote w)) (constructs w),
       Ok (mkProcess (match answer with
                      | CodeCommit.Committed _ => 0
                      | CodeCommit.ConcurrencyConflict => 255
                      end)))
  | _, _ => (w, Ok (mkProcess 255))
  end.

(** The bytes of an archive are not modelled. *)
Definition zip_bytes : string := "PK".

Definition zip_directory (o : Outside) (path_ : path) : M unit :=
  try_except
    (m ← get_fs;
     if negb (isdir path_ m) then raise (FileNotFoundError path_)
     else if isdir (cwd o </> ["code.zip"]) m then raise (IsADirectoryError (cwd o </> ["code.zip"]))
     else
       (* shutil.make_archive("code", "zip", path) *)
       modify_fs (insert (cwd o </> ["code.zip"]) (File zip_bytes));;
       (* shutil.move("code.zip", f"{path}/code.zip") *)
       modify_fs (fun m => <[path_ </> ["code.zip"] := File zip_bytes]>
                             (delete (cwd o </> ["code.zip"]) m)))
    (fun e => mret tt).

Definition cleanup_zip_directory (path_ : path) : M unit :=
  m ← get_fs;
  if isfile (path_ </> ["code.zip"]) m
  then modify_fs (remove (path_ </> ["code.zip"]))
  else mret tt.

Definition cleanup_pipeline_directory (path_ : path) : M unit :=
  m ← get_fs;
  if isdir path_ m
  then modify_fs (rmtree path_)
  else mret tt.

(** *** The delivery topology *)

(** [sorted(development_environments, key=lambda env: env.order)]: the
    sort is stable, environments of equal order keep their places. *)
Fixpoint insert_by_order (env : DPE) (l : list DPE) : list DPE :=
  match l with
  | [] => [env]
  | y :: rest =>
      if (DataPipelineEnvironment.order env <=? DataPipelineEnvironment.order y)%Z
      then env :: l
      else y :: insert_by_order env rest
  end.

Definition sorted (development_environments : list DPE) : list DPE :=
  fold_right insert_by_order [] development_environments.

(** [development_environments.count()]: the collection is the query of the
    pipeline's environments, and its count is the number of its rows. *)
Definition count (development_environments : list DPE) : Z :=
  Z.of_nat (length development_environments).

Definition add_stage (s : StageProps) (p : Pipeline) : Pipeline :=
  mkPipeline (pipeline_id p) (pipeline_name p) (restart_execution_on_update p)
             (stages p ++ [s]).

Definition build_project (pipeline : DataPipeline.t) (devStages : list string) (env : DPE)
    : PipelineProject :=
  mkProject
    (DataPipeline.name pipeline +:+ "-build-" +:+ DataPipelineEnvironment.stage env)
    true
    (make_environment_variables pipeline env
       (DataPipelineEnvironment.samlGroupName env)
       (DataPipelineEnvironment.stage env)
       devStages)
    "deploy_buildspec.yaml".

Definition deploy_stage (pipeline : DataPipeline.t) (env : DPE) : StageProps :=
  mkStage ("Deploy-Stage-" +:+ DataPipelineEnvironment.stage env)
          [CodeBuildAction ("deploy-" +:+ DataPipelineEnvironment.stage env)
             (DataPipeline.name pipeline +:+ "-build-" +:+ DataPipelineEnvironment.stage env)].

Definition approval_stage (env : DPE) : StageProps :=
  mkStage ("ManualApproval-" +:+ DataPipelineEnvironment.stage env)
          [ManualApprovalAction ("ManualApproval-" +:+ DataPipelineEnvironment.stage env)].

(** What one synthesis has built so far: the build projects, the pipelines
    already complete, and the local variable [codepipeline_pipeline], which
    is unbound until a pipeline is created. *)
Record Topology := mkTopology {
  projects : list PipelineProject;
  pipelines : list Pipeline;
  codepipeline_pipeline : option Pipeline
}.

(** The body of the loop of the trunk branch, on the pipeline it extends. *)
Definition trunk_step (pipeline : DataPipeline.t) (devStages : list string) (n : Z)
    (acc : list PipelineProject * Pipeline) (env : DPE) : list PipelineProject * Pipeline :=
  let p1 := add_stage (deploy_stage pipeline env) (snd acc) in
  let p2 := if (DataPipelineEnvironment.order env <? n)%Z
            then add_stage (approval_stage env) p1
            else p1 in
  (fst acc ++ [build_project pipeline devStages env], p2).

Definition trunk_source (pipeline : DataPipeline.t) : StageProps :=
  mkStage "Source" [CodeCommitSourceAction "CodeCommit" "main" (DataPipeline.repo pipeline)].

Definition trunk (pipeline : DataPipeline.t) (development_environments : list DPE)
    : Topology :=
  let devStages := List.map DataPipelineEnvironment.stage development_environments in
  let p0 := mkPipeline (DataPipeline.name pipeline) (DataPipeline.name pipeline) true
                       [trunk_source pipeline] in
  let '(bps, p) :=
    fold_left (trunk_step pipeline devStages (count development_environments))
              (sorted development_environments) ([], p0) in
  mkTopology bps [p] (Some p).

Definition branch_name (env : DPE) : string :=
  if String.eqb (DataPipelineEnvironment.stage env) "prod"
  then "main" else DataPipelineEnvironment.stage env.

Definition gitflow_source (pipeline : DataPipeline.t) (env : DPE) : StageProps :=
  mkStage ("Source-" +:+ DataPipelineEnvironment.stage env)
          [CodeCommitSourceAction "CodeCommit" (branch_name env) (DataPipeline.repo pipeline)].

Definition gitflow_pipeline (pipeline : DataPipeline.t) (env : DPE) : Pipeline :=
  let p0 := mkPipeline
              (DataPipeline.name pipeline +:+ "-" +:+ DataPipelineEnvironment.stage env)
              (DataPipeline.name pipeline +:+ "-" +:+ DataPipelineEnvironment.stage env)
              true [] in
  add_stage (deploy_stage pipeline env) (add_stage (gitflow_source pipeline env) p0).

(** The body of the loop of the other branch. *)
Definition gitflow_step (pipeline : DataPipeline.t) (devStages : list string)
    (acc : Topology) (env : DPE) : Topology :=
  let p := gitflow_pipeline pipeline env in
  mkTopology (projects acc ++ [build_project pipeline devStages env])
             (pipelines acc ++ [p])
             (Some p).

Definition gitflow (pipeline : DataPipeline.t) (development_environments : list DPE)
    : Topology :=
  let devStages := List.map DataPipelineEnvironment.stage development_environments in
  fold_left (gitflow_step pipeline devStages) development_environments
            (mkTopology [] [] None).

(** [if pipeline.devStrategy == "trunk": ... else: ...]. *)
Definition topology (pipeline : DataPipeline.t) (development_environments : list DPE)
    : Topology :=
  if String.eqb (DataPipeline.devStrategy pipeline) "trunk"
  then trunk pipeline development_environments
  else gitflow pipeline development_environments.

Fixpoint add_constructs (cs : list Construct) : M unit :=
  match cs with
  | [] => mret tt
  | c :: rest => add_construct c;; add_constructs rest
  end.

(** The two outputs after the topology; the second reads
    [codepipeline_pipeline.pipeline_name]. *)
Definition outputs (pipeline : DataPipeline.t) (t : Topology) : M unit :=
  add_construct (CfnOutput "RepoNameOutput"
                   (DataPipeline.DataPipelineUri pipeline +:+ "-RepositoryName")
                   (DataPipeline.repo pipeline));;
  match codepipeline_pipeline t with
  | Some p =>
      add_construct (CfnOutput "PipelineNameOutput"
                       (DataPipeline.DataPipelineUri pipeline +:+ "-PipelineName")
                       (pipeline_name p))
  | None => raise (UnboundLocalError "codepipeline_pipeline")
  end.

(** Topology synthesis as the constructor runs it: the constructs of the
    chosen strategy, then the outputs. *)
Definition synthesize_topology (pipeline : DataPipeline.t)
    (development_environments : list DPE) : M Topology :=
  let t := topology pipeline development_environments in
  add_constructs (List.map BuildProject (projects t));;
  add_constructs (List.map CodePipeline (pipelines t));;
  outputs pipeline t;;
  mret t.

(** *** The repository: update or bootstrap *)

(** The body of the [try]. *)
Definition update_repository (o : Outside) (pipeline : DataPipeline.t)
    (pipeline_environment : Environment.t) (development_environments : list DPE)
    : M unit :=
  env_vars ← _set_env_vars o pipeline_environment;
  repository ← _check_repository o (DataPipeline.repo pipeline);
  match repository with
  | Some _ =>
      write_ddk_json_multienvironment code_dir_path ["ddk.json"]
        pipeline_environment development_environments;;
      process ← run_update_cmds o pipeline code_dir_path;
      mret tt
  | None => raise Exception
  end.

(** The body of the [except Exception]. *)
Definition bootstrap_repository (o : Outside) (pipeline : DataPipeline.t)
    (pipeline_environment : Environment.t) (development_environments : list DPE)
    : M unit :=
  let repo := DataPipeline.repo pipeline in
  initialize_repo o pipeline code_dir_path;;
  write_deploy_buildspec code_dir_path [repo; "deploy_buildspec.yaml"];;
  write_ddk_json_multienvironment code_dir_path [repo; "ddk.json"]
    pipeline_environment development_environments;;
  cleanup_zip_directory code_dir_path;;
  zip_directory o (code_dir_path </> [repo]);;
  add_construct (AssetC (DataPipeline.name pipeline +:+ "-asset")
                        (code_dir_path </> [repo; "code.zip"]));;
  add_construct (CfnRepository "CodecommitRepository" repo RETAIN).

(** *** The constructor *)

(** [TagsUtil.add_tags(self)] and [CDKNagUtil.check_rules(self)]: two
    collaborators, which add nothing the model records. *)
Definition postprocess (o : Outside) : M unit :=
  match postprocess_fault o with
  | Some e => raise e
  | None => mret tt
  end.

Definition __init__ (o : Outside) (pipeline : DataPipeline.t)
    (pipeline_environment : Environment.t) (development_environments : list DPE)
    : M Topology :=
  add_construct (IamPolicy (DataPipeline.name pipeline +:+ "-policy"));;
  add_construct (IamRole (DataPipeline.name pipeline));;
  add_construct (KmsKey (DataPipeline.name pipeline +:+ "-codebuild-key") true DESTROY);;
  try_except
    (update_repository o pipeline pipeline_environment development_environments)
    (fun e => bootstrap_repository o pipeline pipeline_environment development_environments);;
  t ← synthesize_topology pipeline development_environments;
  postprocess o;;
  cleanup_zip_directory code_dir_path;;
  cleanup_pipeline_directory (code_dir_path </> [DataPipeline.repo pipeline]);;
  mret t.

End PipelineStack.

(** What a run left on disk: the rendered blueprint directory, or an archive
    in it or beside it. *)
Definition left_on_disk (pipeline : DataPipeline.t) (w : World) : bool :=
  let code_dir_path := PipelineStack.code_dir_path in
  let repo_dir := code_dir_path </> [DataPipeline.repo pipeline] in
  isdir repo_dir (fs w)
  || isfile (repo_dir </> ["code.zip"]) (fs w)
  || isfile (code_dir_path </> ["code.zip"]) (fs w).

(** Whether a run created the repository. *)
Definition bootstrapped (w : World) : bool :=
  existsb (fun c => match c with CfnRepository _ _ _ => true | _ => false end) (constructs w).

(** ** Sample inputs *)

Module Sample.
Import PipelineStack.

Definition pipeline (devStrategy : string) : DataPipeline.t :=
  DataPipeline.mk "uri-1" "orders" "Orders" "Order feeds" "orders-repo" devStrategy
                  "template" "env-cicd" "team-a".

Definition cicd : Environment.t := Environment.mk "env-cicd" "111111111111" "eu-west-1".

Definition env (stage : string) (order : Z) : DPE :=
  DataPipelineEnvironment.mk stage order ("env-" +:+ stage) "222222222222" "eu-west-1" "team-a".

(** The blueprint directory as installed, nothing rendered yet. *)
Definition disk : gmap path node :=
  list_to_map
    [(["backend"], Dir);
     (["backend"; "blueprints"], Dir);
     (code_dir_path, Dir);
     (code_dir_path </> ["app_multiaccount.py"], File "app");
     (code_dir_path </> ["ddk_app"], Dir);
     (code_dir_path </> ["ddk_app"; "ddk_app_stack_multiaccount.py"], File "stack");
     (code_dir_path </> ["utils"], Dir);
     (code_dir_path </> ["utils"; "config.py"], File "config")].

(** No repository yet in the account. *)
Definition fresh : World := mkWorld disk ∅ [].

(** The repository exists, its tip is commit 7. *)
Definition provisioned : World :=
  mkWorld disk {[ "orders-repo" := CodeCommit.mk 7 ∅ ]} [].

(** Every collaborator answers, and nobody else writes to the repository. *)
Definition quiet : Outside :=
  mkOutside None None None false
    (Some [(["app.py"], File "generated"); (["ddk_app"], Dir);
           (["ddk_app"; "ddk_app_stack.py"], File "generated");
           (["requirements.txt"], File "aws-ddk")])
    None None ["srv"].

(** The probe is refused for lack of permission. *)
Definition denied : Outside :=
  mkOutside None None (Some (ClientError "AccessDeniedException")) false
    (ddk_init quiet) None None ["srv"].

(** Another writer commits while the descriptor is being submitted. *)
Definition racing : Outside :=
  mkOutside None None None true (ddk_init quiet) None None ["srv"].

(** The compliance pass rejects the finished stack. *)
Definition rejected : Outside :=
  mkOutside None None None false (ddk_init quiet)
    (Some (OtherError "ComplianceViolation")) None ["srv"].
End Sample.

(** ** Observations on a run and on a topology *)

Definition is_ok {A} (r : result A) : bool :=
  match r with Ok _ => true | Raise _ => false end.

Definition stage_names (p : Pipeline) : list string := List.map stage_name (stages p).

Definition is_approval (a : Action) : bool :=
  match a with ManualApprovalAction _ => true | _ => false end.

Definition has_approval (p : Pipeline) : bool :=
  existsb (fun s => existsb is_approval (actions s)) (stages p).

Definition source_branches (p : Pipeline) : list string :=
  flat_map (fun s => omap (fun a => match a with
                                    | CodeCommitSourceAction _ branch _ => Some branch
                                    | _ => None
                                    end) (actions s)) (stages p).

(** The stages one environment adds to the trunk pipeline when [n] is the
    number of environments. *)
Definition trunk_stages_of (pipeline : DataPipeline.t) (n : Z) (env : DPE) : list StageProps :=
  PipelineStack.deploy_stage pipeline env ::
  (if (DataPipelineEnvironment.order env <? n)%Z then [PipelineStack.approval_stage env] else []).

(** The stage sequence the design asks of the trunk pipeline: after each
    deploy stage an approval, except after the environment of greatest order
    and except when there is a single environment. *)
Definition max_order (development_environments : list DPE) : Z :=
  match List.map DataPipelineEnvironment.order development_environments with
  | [] => 0
  | x :: rest => fold_right Z.max x rest
  end.

Definition designed_trunk_stages (development_environments : list DPE) : list string :=
  "Source" ::
  flat_map (fun env =>
              ("Deploy-Stage-" +:+ DataPipelineEnvironment.stage env) ::
              if (DataPipelineEnvironment.order env =? max_order development_environments)%Z
                 || (length development_environments =? 1)%nat
              then []
              else ["ManualApproval-" +:+ DataPipelineEnvironment.stage env])
           (PipelineStack.sorted development_environments).

(** The same collaborators, with or without a racing writer. *)
Definition with_racing (b : bool) (o : Outside) : Outside :=
  mkOutside (session_fault o) (env_creds o) (probe_fault o) b (ddk_init o)
            (postprocess_fault o) (envname o) (cwd o).

(** Two worlds that differ at most in the remote repositories. *)
Definition same_local (w1 w2 : World) : Prop :=
  fs w1 = fs w2 /\ constructs w1 = constructs w2.

(** A computation that neither reads nor depends on the remote repositories:
    from worlds with the same disk and constructs it gives the same result,
    the same disk and the same constructs. *)
Definition remote_blind {A} (m : M A) : Prop :=
  forall w1 w2, same_local w1 w2 ->
    same_local (m w1).1 (m w2).1 /\ (m w1).2 = (m w2).2.

(** Two computations that, started in the same world, give the same result,
    the same disk and the same constructs. *)
Definition same_start {A} (m1 m2 : M A) : Prop :=
  forall w, same_local (m1 w).1 (m2 w).1 /\ (m1 w).2 = (m2 w).2.

(** ** Relations a run keeps between the world before and the world after *)

(** A computation keeps [R] when [R] relates every world to the one the
    computation leaves, whether it returns or raises. *)
Definition preserves (R : World -> World -> Prop) {A} (m : M A) : Prop :=
  forall w, R w (m w).1.

(** The disk is the same. *)
Definition same_disk (w w' : World) : Prop := fs w' = fs w.

(** The remote repositories are the same, but for the one named [repo], and
    that one is absent after if it was absent before. *)
Definition same_remote_but (repo : string) (w w' : World) : Prop :=
  (forall other, other <> repo -> remote w' !! other = remote w !! other)
  /\ (remote w !! repo = None -> remote w' !! repo = None).

(** The remote repositories are the same. *)
Definition same_remote (w w' : World) : Prop := remote w' = remote w.

(** What the path [p] names is still named by it. *)
Definition keeps_entry (p : path) (w w' : World) : Prop :=
  forall n, resolve p (fs w) = Some n -> resolve p (fs w') = Some n.

(** No repository construct was added or removed. *)
Definition same_bootstrapped (w w' : World) : Prop := bootstrapped w' = bootstrapped w.

(** The constructs that are not the repository. *)
Definition is_repository (c : Construct) : bool :=
  match c with CfnRepository _ _ _ => true | _ => false end.
(** ** More observations on a topology *)

(** The build projects that the actions of a pipeline run, stage by stage. *)
Definition built_projects (p : Pipeline) : list string :=
  flat_map (fun s => omap (fun a => match a with
                                    | CodeBuildAction _ project => Some project
                                    | _ => None
                                    end) (actions s)) (stages p).

(** The environments in the order in which a strategy goes through them. *)
Definition deployment_order (pipeline : DataPipeline.t) (development_environments : list DPE)
    : list DPE :=
  if String.eqb (DataPipeline.devStrategy pipeline) "trunk"
  then PipelineStack.sorted development_environments
  else development_environments.

(** An environment comes no later than another by its [order]. *)
Definition order_le (a b : DPE) : Prop :=
  (DataPipelineEnvironment.order a <= DataPipelineEnvironment.order b)%Z.
(** * The sharing task of [dataall.tasks.data_sharing.data_sharing_service] *)

(** ** The records read from the store ([db.models]) *)

Module Dataset.
Record t := mk {
  datasetUri : string;
  GlueDatabaseName : string
}.
End Dataset.

Module ShareObject.
Record t := mk {
  shareUri : string;
  status : string
}.
End ShareObject.

(** The members of [models.Enums.ShareObjectStatus] that the service names. *)
Inductive ShareObjectStatus := Approved | Rejected.

(** What [api.ShareObject.get_share_data] returns. *)
Record ShareData := mkShareData {
  env_group : string;
  dataset : Dataset.t;
  share : ShareObject.t;
  shared_tables : list string;
  source_environment : Environment.t;
  target_environment : Environment.t
}.

(** The four processors of [cross_account] and [same_account]; the approval
    ones are run by [approve_share()], the revoke ones by [revoke_share()]. *)
Inductive Processor :=
| CrossAccountShareApproval
| SameAccountShareApproval
| CrossAccountShareRevoke
| SameAccountShareRevoke.

(** The calls of the service to its collaborators, with the arguments that
    the service chooses. *)
Inductive Call :=
| get_parameter (env name : string)
| delete_lakeformation_v1_resource_shares (accountid region_name : string)
| get_share_data (share_uri : string) (status : list ShareObjectStatus)
| grant_pivot_role_all_database_permissions (accountid region database : string)
| run_processor (processor : Processor) (shared_db_name : string) (data : ShareData).

Module DataSharingService.

(** The collaborators: the two tables that [refresh_shares] queries, or the
    exception of the session; for every call whether it raises, and what it
    returns otherwise, both of which may depend on the calls made before. *)
Record Collaborators := mkCollaborators {
  envname : option string;
  store : result (list Environment.t * list ShareObject.t);
  fault : list Call -> Call -> option exn;
  parameter : list Call -> option string;
  share_data : list Call -> ShareData;
  processed : list Call -> bool
}.

(** A run of the service: the calls made so far are threaded through, and an
    exception ends the run. *)
Definition T (A : Type) : Type := list Call -> list Call * result A.

#[global] Instance T_ret : MRet T := fun A a log => (log, Ok a).
#[global] Instance T_bind : MBind T := fun A B f m log =>
  match m log with
  | (log', Ok a) => f a log'
  | (log', Raise e) => (log', Raise e)
  end.

(** [try: body except Exception as e: handler]. *)
Definition try_except {A} (body : T A) (handler : exn -> T A) : T A := fun log =>
  match body log with
  | (log', Ok a) => (log', Ok a)
  | (log', Raise e) => handler e log'
  end.

(** [for x in l: body]. *)
Fixpoint for_each {A} (l : list A) (body : A -> T unit) : T unit :=
  match l with
  | [] => mret tt
  | x :: rest => body x;; for_each rest body
  end.

Definition call {A} (c : Collaborators) (what : Call) (value : list Call -> A) : T A :=
  fun log =>
    (log ++ [what],
     match fault c log what with
     | Some e => Raise e
     | None => Ok (value log)
     end).

Definition build_shared_db_name (dataset : Dataset.t) (share : ShareObject.t) : string :=
  py_slice_to 254
    ((Dataset.GlueDatabaseName dataset +:+ "_shared_") +:+ ShareObject.shareUri share).

Definition approve_share (c : Collaborators) (share_uri : string) : T bool :=
  data ← call c (get_share_data share_uri [Approved]) (share_data c);
  let shared_db_name := build_shared_db_name (dataset data) (share data) in
  call c (grant_pivot_role_all_database_permissions
            (Environment.AwsAccountId (source_environment data))
            (Environment.region (source_environment data))
            (Dataset.GlueDatabaseName (dataset data)))
         (fun _ => tt);;
  if negb (String.eqb (Environment.AwsAccountId (source_environment data))
                      (Environment.AwsAccountId (target_environment data)))
  then call c (run_processor CrossAccountShareApproval shared_db_name data) (processed c)
  else call c (run_processor SameAccountShareApproval shared_db_name data) (processed c).

Definition reject_share (c : Collaborators) (share_uri : string) : T bool :=
  data ← call c (get_share_data share_uri [Rejected]) (share_data c);
  let shared_db_name := build_shared_db_name (dataset data) (share data) in
  call c (grant_pivot_role_all_database_permissions
            (Environment.AwsAccountId (source_environment data))
            (Environment.region (source_environment data))
            (Dataset.GlueDatabaseName (dataset data)))
         (fun _ => tt);;
  if negb (String.eqb (Environment.AwsAccountId (source_environment data))
                      (Environment.AwsAccountId (target_environment data)))
  then call c (run_processor CrossAccountShareRevoke shared_db_name data) (processed c)
  else call c (run_processor SameAccountShareRevoke shared_db_name data) (processed c).

(** The remote session of the account, its [ram] client in the region, and
    the deletion, as one call. *)
Definition clean_lfv1_ram_resources (c : Collaborators) (environment : Environment.t)
    : T unit :=
  call c (delete_lakeformation_v1_resource_shares
            (Environment.AwsAccountId environment) (Environment.region environment))
         (fun _ => tt).

(** The two queries of [refresh_shares], in one session. *)
Definition query (c : Collaborators) : T (list Environment.t * list ShareObject.t) :=
  fun log =>
    match store c with
    | Ok (environments, rows) =>
        (log,
         Ok (environments,
             List.filter (fun s => String.eqb (ShareObject.status s) "Approved"
                                   || String.eqb (ShareObject.status s) "Rejected") rows))
    | Raise e => (log, Raise e)
    end.

(** The body of the loop over the shares. *)
Definition refresh_share (c : Collaborators) (share : ShareObject.t) : T unit :=
  try_except
    (if String.eqb (ShareObject.status share) "Approved"
     then approve_share c (ShareObject.shareUri share);; mret tt
     else if String.eqb (ShareObject.status share) "Rejected"
     then reject_share c (ShareObject.shareUri share);; mret tt
     else mret tt)
    (fun e => mret tt).

Definition refresh_shares (c : Collaborators) : T bool :=
  '(environments, shares) ← query c;
  toggle ← call c (get_parameter (default "local" (envname c)) "shares/cleanlfv1ram")
                  (parameter c);
  (if bool_decide (toggle = Some "True")
   then for_each environments (clean_lfv1_ram_resources c)
   else mret tt);;
  match shares with
  | [] => mret true
  | _ => for_each shares (refresh_share c);; mret true
  end.

End DataSharingService.

(** ** Observations on the calls of the sharing task *)

(** The shares whose data was asked for, with the status asked for. *)
Definition attempts (calls : list Call) : list (string * list ShareObjectStatus) :=
  omap (fun what => match what with
                    | get_share_data share_uri status => Some (share_uri, status)
                    | _ => None
                    end) calls.

(** The processors that were run. *)
Definition processors (calls : list Call) : list Processor :=
  omap (fun what => match what with
                    | run_processor processor _ _ => Some processor
                    | _ => None
                    end) calls.

(** What [refresh_shares] is to attempt for a row of the table. *)
Definition attempt_of (s : ShareObject.t) : string * list ShareObjectStatus :=
  (ShareObject.shareUri s,
   if String.eqb (ShareObject.status s) "Approved" then [Approved] else [Rejected]).

Definition refreshed (s : ShareObject.t) : bool :=
  String.eqb (ShareObject.status s) "Approved" || String.eqb (ShareObject.status s) "Rejected".

(** ** Sample inputs of the sharing task *)

Module Shares.

Definition sales : Dataset.t := Dataset.mk "ds-sales" "sales_db".

(** A database name of 250 characters. *)
Definition archive : Dataset.t :=
  Dataset.mk "ds-archive" (String.concat EmptyString (repeat "sales" 50)).

Definition first : ShareObject.t := ShareObject.mk "share-1" "Approved".
Definition second : ShareObject.t := ShareObject.mk "share-2" "Rejected".
Definition draft : ShareObject.t := ShareObject.mk "share-3" "Draft".

Definition producer : Environment.t := Environment.mk "env-producer" "222222222222" "eu-west-1".
Definition consumer : Environment.t := Environment.mk "env-consumer" "333333333333" "eu-west-1".

(** Collaborators with the toggle off, whose every other call raises. *)
Definition failing : DataSharingService.Collaborators :=
  DataSharingService.mkCollaborators None
    (Ok ([producer; consumer], [first; draft; second]))
    (fun log what => match what with
                     | get_parameter _ _ => None
                     | _ => Some (OtherError "ServiceUnavailable")
                     end)
    (fun log => None)
    (fun log => mkShareData "team" sales first [] producer consumer)
    (fun log => true).

End Shares.

(** * Properties *)

(** ** Strings *)

#[local] Arguments String.append !s1 s2 : simpl nomatch.

Lemma string_app_assoc (a b c : string) : (a +:+ b) +:+ c = a +:+ (b +:+ c).
Proof. induction a as [|x a IH]; simpl; congruence. Qed.

Lemma string_length_app (a b : string) :
  String.length (a +:+ b) = (String.length a + String.length b)%nat.
Proof. induction a as [|x a IH]; simpl; congruence. Qed.

Lemma substring_0_length (n : nat) (s : string) :
  (String.length (String.substring 0 n s) <= n)%nat.
Proof.
  revert s. induction n as [|n IH]; intros [|c s]; simpl; try lia.
  specialize (IH s). lia.
Qed.

Lemma substring_0_prefix (n : nat) (s : string) :
  String.prefix (String.substring 0 n s) s = true.
Proof.
  revert s. induction n as [|n IH]; intros [|c s]; simpl; try done.
  destruct (ascii_dec c c); [apply IH | done].
Qed.

Lemma substring_0_all (n : nat) (s : string) :
  (String.length s <= n)%nat -> String.substring 0 n s = s.
Proof.
  revert s. induction n as [|n IH]; intros [|c s]; simpl; intros H; try done; try lia.
  rewrite IH; [done | lia].
Qed.

(** ** The stack description *)

(** C10: whatever the label, the URI and the description of the pipeline
    are, the description handed to the stack has at most 1024 characters; it
    is the beginning of the formatted text, and the whole of it when that
    text is short enough. *)
Theorem stack_description_at_most_1024 (pipeline : DataPipeline.t) (target_uri : string) :
  let text := "Cloud formation stack of PIPELINE: " +:+ DataPipeline.label pipeline
              +:+ "; URI: " +:+ target_uri
              +:+ "; DESCRIPTION: " +:+ DataPipeline.description pipeline in
  (String.length (stack_description pipeline target_uri) <= 1024)%nat
  /\ String.prefix (stack_description pipeline target_uri) text = true
  /\ ((String.length text <= 1024)%nat -> stack_description pipeline target_uri = text).
Proof.
  intros text. unfold stack_description, py_slice_to. fold text.
  split; [apply substring_0_length |].
  split; [apply substring_0_prefix | apply substring_0_all].
Qed.

(** ** Build environment variables *)

Lemma make_environment_variables_lookup (pipeline : DataPipeline.t) (env : DPE)
    (team stage : string) (stages : list string) (k : string) :
  make_environment_variables pipeline env team stage stages !! k =
    if decide (k = "ENVTEAM_ROLENAME") then Some (StrValue team)
    else if decide (k = "AWSREGION") then Some (StrValue (DataPipelineEnvironment.region env))
    else if decide (k = "AWSACCOUNTID") then Some (StrValue (DataPipelineEnvironment.AwsAccountId env))
    else if decide (k = "ENVIRONMENT_URI") then Some (StrValue (DataPipelineEnvironment.environmentUri env))
    else if decide (k = "TEMPLATE") then Some (StrValue (DataPipeline.template pipeline))
    else if decide (k = "DEV_STRATEGY") then Some (StrValue (DataPipeline.devStrategy pipeline))
    else if decide (k = "DEV_STAGES") then Some (ListValue stages)
    else if decide (k = "STAGE") then Some (StrValue stage)
    else if decide (k = "PIPELINE_NAME") then Some (StrValue (DataPipeline.name pipeline))
    else if decide (k = "PIPELINE_URI") then Some (StrValue (DataPipeline.DataPipelineUri pipeline))
    else None.
Proof.
  unfold make_environment_variables.
  repeat (rewrite lookup_insert; case_decide; [subst k; repeat (case_decide; try done) | ]).
  rewrite lookup_empty. repeat (case_decide; [congruence|]). done.
Qed.

(** C7: the mapping has the ten fixed keys and no other, each bound to the
    attribute it is named after, read from the records passed in; with
    another account id in the environment record the mapping is the same
    but for [AWSACCOUNTID]. *)
Theorem make_environment_variables_exact (pipeline : DataPipeline.t) (env : DPE)
    (team stage : string) (stages : list string) :
  let vars := make_environment_variables pipeline env team stage stages in
  dom vars = list_to_set env_var_keys
  /\ size vars = 10%nat
  /\ vars !! "PIPELINE_URI" = Some (StrValue (DataPipeline.DataPipelineUri pipeline))
  /\ vars !! "PIPELINE_NAME" = Some (StrValue (DataPipeline.name pipeline))
  /\ vars !! "STAGE" = Some (StrValue stage)
  /\ vars !! "DEV_STAGES" = Some (ListValue stages)
  /\ vars !! "DEV_STRATEGY" = Some (StrValue (DataPipeline.devStrategy pipeline))
  /\ vars !! "TEMPLATE" = Some (StrValue (DataPipeline.template pipeline))
  /\ vars !! "ENVIRONMENT_URI" = Some (StrValue (DataPipelineEnvironment.environmentUri env))
  /\ vars !! "AWSACCOUNTID" = Some (StrValue (DataPipelineEnvironment.AwsAccountId env))
  /\ vars !! "AWSREGION" = Some (StrValue (DataPipelineEnvironment.region env))
  /\ vars !! "ENVTEAM_ROLENAME" = Some (StrValue team)
  /\ (forall a : string,
        make_environment_variables pipeline
          (DataPipelineEnvironment.with_AwsAccountId a env) team stage stages
        = <["AWSACCOUNTID" := StrValue a]> vars).
Proof.
  intros vars.
  assert (Hdom : dom vars = list_to_set env_var_keys).
  { unfold vars, make_environment_variables, env_var_keys.
    rewrite !dom_insert_L, dom_empty_L. simpl. set_solver. }
  split; [exact Hdom |].
  split.
  { rewrite <- size_dom, Hdom. reflexivity. }
  repeat (split; [unfold vars; rewrite make_environment_variables_lookup; reflexivity |]).
  intros a. apply map_eq. intros k. unfold vars.
  rewrite lookup_insert, !make_environment_variables_lookup. simpl.
  repeat (case_decide; try congruence).
Qed.

(** ** The buildspec *)

Lemma write_new_content (p : path) (text : string) (w : World) :
  (write_new p text w).2 = Ok tt ->
  fs (write_new p text w).1 !! p = Some (File (py_print text)).
Proof.
  unfold write_new, modify_fs.
  destruct (negb (isdir (parent p) (fs w))); [discriminate |].
  destruct (exists_ p (fs w)); [discriminate |].
  intros _. simpl. apply lookup_insert_eq.
Qed.

(** C9, as stated, fails: the build phase of the rendered buildspec does not
    consist of the deploy invocation alone. *)
Lemma buildspec_build_is_not_deploy_alone :
  buildspec_commands "build" (py_print deploy_buildspec_yaml) <> ["ddk deploy"].
Proof. vm_compute. discriminate. Qed.

(** C9, amended: the buildspec file that [write_deploy_buildspec] creates has
    the two phases [pre_build] and [build]; [pre_build] installs the tool
    chain, and [build] runs an identity check and then [ddk deploy], its last
    command. *)
Theorem buildspec_phases_and_commands (path_ output_file : path) (w : World) :
  (PipelineStack.write_deploy_buildspec path_ output_file w).2 = Ok tt ->
  exists content,
    fs (PipelineStack.write_deploy_buildspec path_ output_file w).1
      !! (path_ </> output_file) = Some (File content)
    /\ buildspec_phases content = ["pre_build"; "build"]
    /\ buildspec_commands "pre_build" content =
         ["n 16.15.1"; "npm install -g aws-cdk"; "pip install aws-ddk";
          "pip install -r requirements.txt"]
    /\ buildspec_commands "build" content = ["aws sts get-caller-identity"; "ddk deploy"]
    /\ last (buildspec_commands "build" content) = Some "ddk deploy".
Proof.
  intros H. apply write_new_content in H.
  exists (py_print deploy_buildspec_yaml).
  split; [exact H |]. repeat split; vm_compute; reflexivity.
Qed.

Lemma buildspec_phases_and_commands_witness :
  exists content,
    fs (PipelineStack.write_deploy_buildspec PipelineStack.code_dir_path
          ["deploy_buildspec.yaml"] Sample.fresh).1
      !! (PipelineStack.code_dir_path </> ["deploy_buildspec.yaml"]) = Some (File content)
    /\ buildspec_phases content = ["pre_build"; "build"]
    /\ buildspec_commands "pre_build" content =
         ["n 16.15.1"; "npm install -g aws-cdk"; "pip install aws-ddk";
          "pip install -r requirements.txt"]
    /\ buildspec_commands "build" content = ["aws sts get-caller-identity"; "ddk deploy"]
    /\ last (buildspec_commands "build" content) = Some "ddk deploy".
Proof.
  apply (buildspec_phases_and_commands PipelineStack.code_dir_path
           ["deploy_buildspec.yaml"] Sample.fresh).
  vm_compute. reflexivity.
Defined.

(** ** The delivery topology *)

Lemma last_list_map {A B} (f : A -> B) (l : list A) :
  last (List.map f l) = f <$> last l.
Proof.
  induction l as [|x [|y l] IH]; [done | done |].
  change (last (List.map f (y :: l)) = f <$> last (y :: l)). exact IH.
Qed.

Section Topology.
Import PipelineStack.
Variable pipeline : DataPipeline.t.

Lemma trunk_fold (devStages : list string) (n : Z) (l : list DPE)
    (acc : list PipelineProject * Pipeline) :
  fold_left (trunk_step pipeline devStages n) l acc =
    (acc.1 ++ List.map (build_project pipeline devStages) l,
     mkPipeline (pipeline_id acc.2) (pipeline_name acc.2)
                (restart_execution_on_update acc.2)
                (stages acc.2 ++ flat_map (trunk_stages_of pipeline n) l)).
Proof.
  revert acc. induction l as [|env l IH]; intros [bps p]; simpl.
  - rewrite !app_nil_r. by destruct p.
  - rewrite IH. unfold trunk_step, trunk_stages_of, add_stage. simpl.
    destruct (DataPipelineEnvironment.order env <? n)%Z; simpl;
      rewrite <- !app_assoc; reflexivity.
Qed.

(** The trunk branch builds one pipeline: the source stage, then for each
    environment in the order of [sorted] its deploy stage, followed by an
    approval stage exactly when its [order] is below the number of
    environments. *)
Lemma trunk_pipeline (development_environments : list DPE) :
  pipelines (trunk pipeline development_environments) =
    [mkPipeline (DataPipeline.name pipeline) (DataPipeline.name pipeline) true
       (trunk_source pipeline ::
        flat_map (trunk_stages_of pipeline (count development_environments))
                 (sorted development_environments))]
  /\ codepipeline_pipeline (trunk pipeline development_environments) =
       head (pipelines (trunk pipeline development_environments)).
Proof. unfold trunk. rewrite trunk_fold. simpl. done. Qed.

Lemma gitflow_fold (devStages : list string) (l : list DPE) (acc : Topology) :
  fold_left (gitflow_step pipeline devStages) l acc =
    mkTopology (projects acc ++ List.map (build_project pipeline devStages) l)
               (pipelines acc ++ List.map (gitflow_pipeline pipeline) l)
               (match last l with
                | Some env => Some (gitflow_pipeline pipeline env)
                | None => codepipeline_pipeline acc
                end).
Proof.
  revert acc. induction l as [|env l IH]; intros acc; simpl.
  - rewrite !app_nil_r. by destruct acc.
  - rewrite IH. unfold gitflow_step at 1 2 3. simpl. rewrite <- !app_assoc. simpl.
    f_equal. destruct l as [|env' l']; [done |].
    change (last (env :: env' :: l')) with (last (env' :: l')).
    destruct (last (env' :: l')) eqn:E; [done |].
    by apply last_None in E.
Qed.

(** The other branch builds one pipeline per environment, in the order of
    the list, and leaves [codepipeline_pipeline] bound to the last one,
    unbound when the list is empty. *)
Lemma gitflow_pipelines (development_environments : list DPE) :
  pipelines (gitflow pipeline development_environments) =
    List.map (gitflow_pipeline pipeline) development_environments
  /\ codepipeline_pipeline (gitflow pipeline development_environments) =
       last (List.map (gitflow_pipeline pipeline) development_environments).
Proof.
  unfold gitflow. rewrite gitflow_fold. simpl. split; [done |].
  rewrite last_list_map. by destruct (last development_environments).
Qed.

End Topology.

(** The example of the design: with orders 1, 2, 3 the trunk pipeline is the
    designed one. *)
Lemma trunk_dev_test_prod :
  let envs := [Sample.env "dev" 1; Sample.env "test" 2; Sample.env "prod" 3] in
  List.map stage_names (PipelineStack.pipelines (PipelineStack.trunk (Sample.pipeline "trunk") envs))
    = [["Source"; "Deploy-Stage-dev"; "ManualApproval-dev";
        "Deploy-Stage-test"; "ManualApproval-test"; "Deploy-Stage-prod"]]
  /\ designed_trunk_stages envs
    = ["Source"; "Deploy-Stage-dev"; "ManualApproval-dev";
       "Deploy-Stage-test"; "ManualApproval-test"; "Deploy-Stage-prod"].
Proof. split; vm_compute; reflexivity. Qed.

(** C2: the trunk pipeline should carry an approval stage after every deploy
    stage but the last.  With the two environments test (order 2) and prod
    (order 3) the constructor compares each order with the number of
    environments, 2, and emits no approval stage at all, where the design has
    one after test. *)
Theorem trunk_orders_2_3_have_no_approval :
  let envs := [Sample.env "test" 2; Sample.env "prod" 3] in
  List.map stage_names (PipelineStack.pipelines (PipelineStack.trunk (Sample.pipeline "trunk") envs))
    = [["Source"; "Deploy-Stage-test"; "Deploy-Stage-prod"]]
  /\ designed_trunk_stages envs
    = ["Source"; "Deploy-Stage-test"; "ManualApproval-test"; "Deploy-Stage-prod"].
Proof. split; vm_compute; reflexivity. Qed.

(** The same comparison gives a single environment of order 0 an approval
    stage, and the last of two environments of orders 0 and 1 as well. *)
Lemma trunk_order_0_has_approval :
  List.map stage_names
    (PipelineStack.pipelines (PipelineStack.trunk (Sample.pipeline "trunk") [Sample.env "dev" 0]))
    = [["Source"; "Deploy-Stage-dev"; "ManualApproval-dev"]]
  /\ List.map stage_names
       (PipelineStack.pipelines
          (PipelineStack.trunk (Sample.pipeline "trunk") [Sample.env "dev" 0; Sample.env "prod" 1]))
    = [["Source"; "Deploy-Stage-dev"; "ManualApproval-dev";
        "Deploy-Stage-prod"; "ManualApproval-prod"]].
Proof. split; vm_compute; reflexivity. Qed.

(** ** Orders 1 to n *)

Section Contiguous.
Import PipelineStack.

Lemma sorted_of_ascending (l : list DPE) :
  Sorted Z.le (List.map DataPipelineEnvironment.order l) -> sorted l = l.
Proof.
  induction l as [|x l IH]; [done |]. simpl. intros Hs.
  apply Sorted_inv in Hs as [Hl Hhd]. rewrite (IH Hl).
  destruct l as [|y l']; [done |]. simpl.
  apply HdRel_inv in Hhd. by apply Z.leb_le in Hhd as ->.
Qed.

Lemma ascending_seq (s n : nat) : Sorted Z.le (List.map Z.of_nat (seq s n)).
Proof.
  revert s. induction n as [|n IH]; intros s; simpl; constructor; [apply IH |].
  destruct n; simpl; constructor. lia.
Qed.

Lemma max_seq (a : Z) (s n : nat) :
  (a <= Z.of_nat s)%Z ->
  fold_right Z.max a (List.map Z.of_nat (seq s n)) =
    if (n =? 0)%nat then a else Z.of_nat (s + n - 1).
Proof.
  revert s. induction n as [|n IH]; intros s Ha; [done |].
  simpl seq. simpl List.map. simpl fold_right. rewrite IH by lia.
  destruct n; simpl; lia.
Qed.

(** When the environments come with the orders 1, 2, ..., n, the trunk
    pipeline is the designed one. *)
Lemma trunk_contiguous_orders (pipeline : DataPipeline.t)
    (development_environments : list DPE) :
  List.map DataPipelineEnvironment.order development_environments
    = List.map Z.of_nat (seq 1 (length development_environments)) ->
  List.map stage_names (pipelines (trunk pipeline development_environments))
    = [designed_trunk_stages development_environments].
Proof.
  intros Horders.
  rewrite (proj1 (trunk_pipeline pipeline development_environments)).
  unfold designed_trunk_stages.
  rewrite sorted_of_ascending by (rewrite Horders; apply ascending_seq).
  unfold stage_names. simpl. do 2 f_equal.
  set (n := length development_environments) in *.
  assert (Hmax : max_order development_environments = Z.of_nat n \/ n = 0%nat).
  { unfold max_order. rewrite Horders. destruct n as [|n]; [by right | left].
    change (seq 1 (S n)) with (1%nat :: seq 2 n). cbn [List.map]. cbv iota.
    rewrite max_seq by lia. destruct n; simpl; lia. }
  assert (Hin : Forall (fun env => (1 <= DataPipelineEnvironment.order env <= Z.of_nat n)%Z)
                  development_environments).
  { apply Forall_forall. intros env Hin.
    assert (Ho : In (DataPipelineEnvironment.order env)
                   (List.map Z.of_nat (seq 1 n))).
    { rewrite <- Horders. apply in_map. by apply list_elem_of_In. }
    apply in_map_iff in Ho as (k & <- & Hk). apply in_seq in Hk. lia. }
  unfold count. fold n.
  set (m := max_order development_environments) in *. clearbody m n. clear Horders.
  induction Hin as [|env l [Hlo Hhi] _ IH]; [done |].
  simpl. rewrite map_app, IH. f_equal. unfold trunk_stages_of. simpl. f_equal.
  destruct (Z.ltb_spec (DataPipelineEnvironment.order env) (Z.of_nat n)) as [Hlt | Hge].
  - destruct Hmax as [-> | ->]; [| lia].
    destruct (Z.eqb_spec (DataPipelineEnvironment.order env) (Z.of_nat n)); [lia |].
    destruct (Nat.eqb_spec n 1); [lia | done].
  - destruct Hmax as [-> | ->]; [| lia].
    destruct (Z.eqb_spec (DataPipelineEnvironment.order env) (Z.of_nat n)); [done | lia].
Qed.
End Contiguous.

(** C3: topology synthesis should go through on an empty list of
    environments under either strategy.  Under gitflow the loop that binds
    [codepipeline_pipeline] does not run, and the output that reads its name
    raises: synthesis ends in [UnboundLocalError], from any state. *)
Theorem gitflow_empty_list_raises (w : World) :
  (PipelineStack.synthesize_topology (Sample.pipeline "gitflow") [] w).2
    = Raise (UnboundLocalError "codepipeline_pipeline")
  /\ (PipelineStack.__init__ Sample.quiet (Sample.pipeline "gitflow") Sample.cicd []
        Sample.fresh).2
    = Raise (UnboundLocalError "codepipeline_pipeline").
Proof. split; [reflexivity | vm_compute; reflexivity]. Qed.

(** The other small lists go through: the empty list under trunk, and a
    single environment under either strategy, which under trunk gets no
    approval stage as long as its order is at least 1. *)
Lemma small_lists_that_synthesize (devStrategy : string) (env : DPE) (w : World) :
  is_ok (PipelineStack.synthesize_topology (Sample.pipeline "trunk") [] w).2 = true
  /\ is_ok (PipelineStack.synthesize_topology (Sample.pipeline devStrategy) [env] w).2 = true
  /\ List.map stage_names
       (PipelineStack.pipelines (PipelineStack.topology (Sample.pipeline "trunk") []))
     = [["Source"]]
  /\ List.map stage_names
       (PipelineStack.pipelines (PipelineStack.topology (Sample.pipeline "gitflow") [env]))
     = [["Source-" +:+ DataPipelineEnvironment.stage env;
         "Deploy-Stage-" +:+ DataPipelineEnvironment.stage env]]
  /\ ((1 <= DataPipelineEnvironment.order env)%Z ->
      List.map stage_names
        (PipelineStack.pipelines (PipelineStack.topology (Sample.pipeline "trunk") [env]))
      = [["Source"; "Deploy-Stage-" +:+ DataPipelineEnvironment.stage env]]).
Proof.
  split; [reflexivity |]. split.
  { unfold PipelineStack.synthesize_topology, PipelineStack.topology. simpl.
    destruct (String.eqb devStrategy "trunk"); reflexivity. }
  split; [reflexivity |]. split; [reflexivity |].
  intros Hord. unfold PipelineStack.topology, PipelineStack.trunk. simpl.
  unfold PipelineStack.trunk_step, PipelineStack.count. simpl.
  change (Z.of_nat 1) with 1%Z.
  destruct (Z.ltb_spec (DataPipelineEnvironment.order env) 1); [lia | reflexivity].
Qed.

(** C6, as stated, fails: a stage named [main] is bound to the branch [main]
    as well, so the branch is [main] without the stage being [prod]. *)
Lemma gitflow_stage_main_is_bound_to_main :
  let env := Sample.env "main" 1 in
  List.map source_branches
    (PipelineStack.pipelines (PipelineStack.topology (Sample.pipeline "gitflow") [env]))
    = [["main"]]
  /\ DataPipelineEnvironment.stage env <> "prod".
Proof. split; [reflexivity | discriminate]. Qed.

(** C6, amended: under gitflow every environment gets a pipeline of its own,
    named after the pipeline and the stage, made of a source stage and a
    deploy stage; its source is bound to [main] when the stage is [prod] and
    to the branch named after the stage otherwise, hence to [main] exactly
    for the stages [prod] and [main]; no pipeline has an approval stage. *)
Theorem gitflow_one_pipeline_per_environment (pipeline : DataPipeline.t)
    (development_environments : list DPE) :
  DataPipeline.devStrategy pipeline = "gitflow" ->
  Forall2
    (fun env p =>
       let stage := DataPipelineEnvironment.stage env in
       pipeline_name p = DataPipeline.name pipeline +:+ "-" +:+ stage
       /\ stage_names p = ["Source-" +:+ stage; "Deploy-Stage-" +:+ stage]
       /\ source_branches p = [if String.eqb stage "prod" then "main" else stage]
       /\ (source_branches p = ["main"] <-> stage = "prod" \/ stage = "main")
       /\ has_approval p = false)
    development_environments
    (PipelineStack.pipelines (PipelineStack.topology pipeline development_environments)).
Proof.
  intros Hstrategy. unfold PipelineStack.topology. rewrite Hstrategy. simpl.
  rewrite (proj1 (gitflow_pipelines pipeline development_environments)).
  induction development_environments as [|env l IH]; simpl; constructor; [| exact IH].
  clear IH. unfold source_branches, has_approval, stage_names. simpl.
  unfold PipelineStack.branch_name.
  destruct (String.eqb_spec (DataPipelineEnvironment.stage env) "prod") as [Heq | Hne].
  - repeat split; try done. intros _. by left.
  - repeat split; try done.
    + intros [= Hmain]. by right.
    + intros [Hp | Hmain]; [contradiction | by rewrite Hmain].
Qed.

Lemma gitflow_one_pipeline_per_environment_witness :
  Forall2
    (fun env p =>
       let stage := DataPipelineEnvironment.stage env in
       pipeline_name p = DataPipeline.name (Sample.pipeline "gitflow") +:+ "-" +:+ stage
       /\ stage_names p = ["Source-" +:+ stage; "Deploy-Stage-" +:+ stage]
       /\ source_branches p = [if String.eqb stage "prod" then "main" else stage]
       /\ (source_branches p = ["main"] <-> stage = "prod" \/ stage = "main")
       /\ has_approval p = false)
    [Sample.env "dev" 1; Sample.env "prod" 2]
    (PipelineStack.pipelines
       (PipelineStack.topology (Sample.pipeline "gitflow")
          [Sample.env "dev" 1; Sample.env "prod" 2])).
Proof.
  apply (gitflow_one_pipeline_per_environment (Sample.pipeline "gitflow")
           [Sample.env "dev" 1; Sample.env "prod" 2]).
  reflexivity.
Defined.

(** ** The repository probe *)

Section Probe.
Import PipelineStack.
Variables (o : Outside) (repo_name : string) (w : World).

Lemma check_repository_present (r : CodeCommit.Repository) :
  probe_fault o = None -> remote w !! repo_name = Some r ->
  _check_repository o repo_name w = (w, Ok (Some (mkMetadata repo_name))).
Proof.
  intros Hf Hr. unfold _check_repository, try_except, get_repository, mbind, M_bind.
  by rewrite Hf, Hr.
Qed.

Lemma check_repository_absent :
  probe_fault o = None -> remote w !! repo_name = None ->
  _check_repository o repo_name w = (w, Ok None).
Proof.
  intros Hf Hr. unfold _check_repository, try_except, get_repository, mbind, M_bind.
  by rewrite Hf, Hr.
Qed.

(** The probe itself tells absence from failure: an error that is not the
    service's "does not exist" leaves it as it came. *)
Lemma check_repository_failed (e : exn) :
  probe_fault o = Some e -> e <> ClientError "RepositoryDoesNotExistException" ->
  _check_repository o repo_name w = (w, Raise e).
Proof.
  intros Hf Hne. unfold _check_repository, try_except, get_repository, mbind, M_bind.
  rewrite Hf. destruct e as [code| | | | | |]; try reflexivity.
  destruct (String.eqb_spec code "RepositoryDoesNotExistException") as [-> | _];
    [contradiction | reflexivity].
Qed.
End Probe.

(** The constructor, however, answers every exception of its [try] with the
    bootstrap: whatever the probe raised, the repository is created. *)
Lemma any_failed_probe_bootstraps (o : Outside) (pipeline : DataPipeline.t)
    (pipeline_environment : Environment.t) (development_environments : list DPE)
    (w : World) (e : exn) :
  session_fault o = None -> probe_fault o = Some e ->
  try_except
    (PipelineStack.update_repository o pipeline pipeline_environment development_environments)
    (fun _ => PipelineStack.bootstrap_repository o pipeline pipeline_environment
                development_environments) w
  = PipelineStack.bootstrap_repository o pipeline pipeline_environment
      development_environments w.
Proof.
  intros Hs Hf.
  unfold try_except, PipelineStack.update_repository, PipelineStack._set_env_vars,
    PipelineStack._check_repository, PipelineStack.get_repository, try_except,
    mbind, M_bind, mret, M_ret, raise.
  rewrite Hs, Hf.
  destruct e as [code| | | | | |]; try reflexivity.
  destruct (String.eqb code "RepositoryDoesNotExistException"); reflexivity.
Qed.

(** C1: a probe that fails for another reason than absence should abort the
    run.  Here the repository exists and the probe is refused for lack of
    permission: [_check_repository] raises the refusal, the constructor
    catches it, bootstraps, and completes. *)
Theorem denied_probe_bootstraps :
  let envs := [Sample.env "dev" 1; Sample.env "prod" 2] in
  let run := PipelineStack.__init__ Sample.denied (Sample.pipeline "trunk") Sample.cicd envs
               Sample.provisioned in
  is_Some (remote Sample.provisioned !! "orders-repo")
  /\ (PipelineStack._check_repository Sample.denied "orders-repo" Sample.provisioned).2
     = Raise (ClientError "AccessDeniedException")
  /\ is_ok run.2 = true
  /\ bootstrapped run.1 = true.
Proof.
  split; [by eexists |]. split; [reflexivity |]. split; vm_compute; reflexivity.
Qed.

(** When nothing fails, the bootstrap is taken for an absent repository and
    left out for a present one. *)
Lemma bootstrap_follows_the_probe :
  let envs := [Sample.env "dev" 1; Sample.env "prod" 2] in
  bootstrapped (PipelineStack.__init__ Sample.quiet (Sample.pipeline "trunk") Sample.cicd envs
                  Sample.fresh).1 = true
  /\ bootstrapped (PipelineStack.__init__ Sample.quiet (Sample.pipeline "trunk") Sample.cicd envs
                     Sample.provisioned).1 = false.
Proof. split; vm_compute; reflexivity. Qed.

(** ** The local disk *)

Lemma resolve_lookup (p : path) (m : gmap path node) (n : node) :
  p <> [] -> resolve p m = Some n -> m !! p = Some n.
Proof.
  intros Hp. unfold resolve. destruct p; [done |].
  destruct (forallb _ _); [done | discriminate].
Qed.

Lemma ancestors_snoc (p : path) (x : string) :
  p <> [] -> ancestors (p ++ [x]) = ancestors p ++ [p].
Proof.
  intros Hp. unfold ancestors. rewrite length_app. simpl.
  replace (length p + 1 - 1)%nat with (S (length p - 1)) by (destruct p; [done | simpl; lia]).
  rewrite seq_S, map_app. simpl. f_equal.
  - apply map_ext_in. intros n Hn. apply in_seq in Hn.
    apply take_app_le. lia.
  - assert (Hlen : S (length p - 1) = length p) by (destruct p; [done | simpl; lia]).
    rewrite Hlen. by rewrite take_app_length.
Qed.

(** An entry below a path needs a directory at that path. *)
Lemma resolve_below (p : path) (x : string) (m : gmap path node) (n : node) :
  p <> [] -> resolve (p ++ [x]) m = Some n -> resolve p m = Some Dir.
Proof.
  intros Hp. unfold resolve.
  destruct (p ++ [x]) eqn:E; [by destruct p |]. rewrite <- E. clear E.
  rewrite (ancestors_snoc p x Hp), forallb_app. simpl.
  destruct p as [|c p]; [done |].
  destruct (forallb _ (ancestors (c :: p))); [| discriminate]. simpl.
  destruct (m !! (c :: p)) as [[|]|]; done.
Qed.

(** Taking entries away makes no path resolve that did not. *)
Lemma resolve_subseteq (m' m : gmap path node) (p : path) (n : node) :
  m' ⊆ m -> resolve p m' = Some n -> resolve p m = Some n.
Proof.
  intros Hsub. unfold resolve. destruct p as [|c p]; [done |].
  destruct (forallb _ (ancestors (c :: p))) eqn:Hall; [| discriminate].
  intros Hn.
  assert (forallb (fun q => match m !! q with Some Dir => true | _ => false end)
            (ancestors (c :: p)) = true) as ->.
  { rewrite forallb_forall in Hall. apply forallb_forall. intros q Hq.
    specialize (Hall q Hq). destruct (m' !! q) as [[|]|] eqn:E; try discriminate.
    by rewrite (lookup_weaken _ _ _ _ E Hsub). }
  by apply (lookup_weaken m').
Qed.

Lemma isfile_subseteq (m' m : gmap path node) (p : path) :
  m' ⊆ m -> isfile p m = false -> isfile p m' = false.
Proof.
  intros Hsub. unfold isfile. destruct (resolve p m') as [[c|]|] eqn:E; try done.
  by rewrite (resolve_subseteq _ _ _ _ Hsub E).
Qed.

Lemma rmtree_subseteq (p : path) (m : gmap path node) : rmtree p m ⊆ m.
Proof. apply map_filter_subseteq. Qed.

Lemma is_prefix_refl (p : path) : is_prefix p p = true.
Proof. induction p as [|x p IH]; simpl; [done |]. by rewrite bool_decide_eq_true_2. Qed.

Lemma rmtree_lookup (p : path) (m : gmap path node) : rmtree p m !! p = None.
Proof.
  unfold rmtree. apply map_lookup_filter_None. right. intros n _. simpl.
  by rewrite is_prefix_refl.
Qed.

(** ** The clean-up *)

Section Cleanup.
Import PipelineStack.
Variables (code_dir : path) (repo : string).
Hypothesis code_dir_not_root : code_dir <> [].

Lemma cleanup_zip_directory_spec (w : World) :
  (cleanup_zip_directory code_dir w).2 = Ok tt
  /\ isfile (code_dir </> ["code.zip"]) (fs (cleanup_zip_directory code_dir w).1) = false.
Proof.
  unfold cleanup_zip_directory, get_fs, modify_fs, remove, mbind, M_bind. simpl.
  destruct (isfile (code_dir </> ["code.zip"]) (fs w)) eqn:E; simpl; [| done].
  split; [done |]. unfold isfile.
  destruct (resolve _ (delete _ _)) as [[c|]|] eqn:R; try done.
  apply resolve_lookup in R; [| by destruct code_dir].
  by rewrite lookup_delete_eq in R.
Qed.

Lemma cleanup_pipeline_directory_spec (w : World) :
  let w' := (cleanup_pipeline_directory (code_dir </> [repo]) w).1 in
  (cleanup_pipeline_directory (code_dir </> [repo]) w).2 = Ok tt
  /\ fs w' ⊆ fs w
  /\ isdir (code_dir </> [repo]) (fs w') = false
  /\ isfile ((code_dir </> [repo]) </> ["code.zip"]) (fs w') = false.
Proof.
  assert (Hne : code_dir </> [repo] <> []) by (by destruct code_dir).
  assert (Hbelow : forall m, isdir (code_dir </> [repo]) m = false ->
                             isfile ((code_dir </> [repo]) </> ["code.zip"]) m = false).
  { intros m Hd. unfold isfile.
    destruct (resolve ((code_dir </> [repo]) </> ["code.zip"]) m) as [[c|]|] eqn:R; try done.
    apply resolve_below in R; [| done]. unfold isdir in Hd. by rewrite R in Hd. }
  unfold cleanup_pipeline_directory, get_fs, modify_fs, mbind, M_bind. simpl.
  destruct (isdir (code_dir </> [repo]) (fs w)) eqn:E; simpl.
  - assert (Hd : isdir (code_dir </> [repo]) (rmtree (code_dir </> [repo]) (fs w)) = false).
    { unfold isdir.
      destruct (resolve _ (rmtree _ _)) as [[c|]|] eqn:R; try done.
      apply resolve_lookup in R; [| done]. by rewrite rmtree_lookup in R. }
    split; [done |]. split; [apply rmtree_subseteq |]. split; [exact Hd | by apply Hbelow].
  - split; [done |]. split; [done |]. split; [exact E | by apply Hbelow].
Qed.

(** The two clean-up calls that end the constructor leave neither the
    rendered directory nor an archive. *)
Lemma cleanup_leaves_nothing (w : World) :
  let w' := (cleanup_pipeline_directory (code_dir </> [repo])
               (cleanup_zip_directory code_dir w).1).1 in
  isdir (code_dir </> [repo]) (fs w') = false
  /\ isfile ((code_dir </> [repo]) </> ["code.zip"]) (fs w') = false
  /\ isfile (code_dir </> ["code.zip"]) (fs w') = false.
Proof.
  intros w'.
  destruct (cleanup_zip_directory_spec w) as [_ Hzip].
  destruct (cleanup_pipeline_directory_spec (cleanup_zip_directory code_dir w).1)
    as (_ & Hsub & Hdir & Harchive).
  split; [exact Hdir |]. split; [exact Harchive |].
  by apply (isfile_subseteq _ _ _ Hsub).
Qed.
End Cleanup.

Lemma code_dir_path_not_root : PipelineStack.code_dir_path <> [].
Proof. discriminate. Qed.

(** A run that returns has gone through the two clean-up calls, which are
    the last thing the constructor does. *)
Lemma init_ends_with_cleanup (o : Outside) (pipeline : DataPipeline.t)
    (pipeline_environment : Environment.t) (development_environments : list DPE)
    (w : World) :
  let run := PipelineStack.__init__ o pipeline pipeline_environment
               development_environments w in
  is_ok run.2 = true ->
  exists w0,
    run.1 = (PipelineStack.cleanup_pipeline_directory
               (PipelineStack.code_dir_path </> [DataPipeline.repo pipeline])
               (PipelineStack.cleanup_zip_directory PipelineStack.code_dir_path w0).1).1.
Proof.
  intros run. unfold run, PipelineStack.__init__, mbind, M_bind.
  unfold add_construct. cbv beta iota.
  match goal with |- context [try_except ?b ?h ?x] =>
    destruct (try_except b h x) as [w1 [[]|e]] end; [| discriminate].
  destruct (PipelineStack.synthesize_topology _ _ w1) as [w2 [t|e]]; [| discriminate].
  destruct (PipelineStack.postprocess o w2) as [w3 [[]|e]]; [| discriminate].
  intros _. exists w3.
  destruct (cleanup_zip_directory_spec PipelineStack.code_dir_path
              code_dir_path_not_root w3) as [Hz _].
  destruct (PipelineStack.cleanup_zip_directory PipelineStack.code_dir_path w3)
    as [w4 r4]. cbn [fst snd] in *. subst r4.
  destruct (cleanup_pipeline_directory_spec PipelineStack.code_dir_path
              (DataPipeline.repo pipeline) code_dir_path_not_root w4) as [Hp _].
  destruct (PipelineStack.cleanup_pipeline_directory _ w4) as [w5 r5].
  cbn [fst snd] in *. subst r5. reflexivity.
Qed.

(** C4, as stated, fails: when the compliance pass raises after a bootstrap,
    the run ends with that exception and the rendered directory, with the
    archive in it, is still on disk. *)
Lemma rejected_run_leaves_artifacts :
  let run := PipelineStack.__init__ Sample.rejected (Sample.pipeline "trunk") Sample.cicd
               [Sample.env "dev" 1; Sample.env "prod" 2] Sample.fresh in
  run.2 = Raise (OtherError "ComplianceViolation")
  /\ isdir (PipelineStack.code_dir_path </> ["orders-repo"]) (fs run.1) = true
  /\ isfile (PipelineStack.code_dir_path </> ["orders-repo"; "code.zip"]) (fs run.1) = true
  /\ left_on_disk (Sample.pipeline "trunk") run.1 = true.
Proof. repeat split; vm_compute; reflexivity. Qed.

(** C4, amended: a run that returns without an exception leaves neither the
    rendered blueprint directory nor an archive on disk. *)
Theorem completed_run_leaves_nothing (o : Outside) (pipeline : DataPipeline.t)
    (pipeline_environment : Environment.t) (development_environments : list DPE)
    (w : World) :
  let run := PipelineStack.__init__ o pipeline pipeline_environment
               development_environments w in
  is_ok run.2 = true ->
  left_on_disk pipeline run.1 = false.
Proof.
  intros run Hok. destruct (init_ends_with_cleanup _ _ _ _ _ Hok) as [w0 Hw0].
  fold run in Hw0. unfold left_on_disk. rewrite Hw0.
  destruct (cleanup_leaves_nothing PipelineStack.code_dir_path
              (DataPipeline.repo pipeline) code_dir_path_not_root w0) as (Hd & Ha & Hz).
  rewrite Hd, Ha, Hz. reflexivity.
Qed.

Lemma completed_run_leaves_nothing_witness :
  left_on_disk (Sample.pipeline "trunk")
    (PipelineStack.__init__ Sample.quiet (Sample.pipeline "trunk") Sample.cicd
       [Sample.env "dev" 1; Sample.env "prod" 2] Sample.fresh).1 = false.
Proof.
  apply (completed_run_leaves_nothing Sample.quiet (Sample.pipeline "trunk") Sample.cicd
           [Sample.env "dev" 1; Sample.env "prod" 2] Sample.fresh).
  vm_compute. reflexivity.
Defined.

(** ** The descriptor commit *)

Section RemoteBlind.
Import PipelineStack.

Lemma blind_ret {A} (a : A) : remote_blind (mret a).
Proof. intros w1 w2 H. done. Qed.

Lemma blind_raise {A} (e : exn) : remote_blind (@raise A e).
Proof. intros w1 w2 H. done. Qed.

Lemma blind_bind {A B} (m : M A) (f : A -> M B) :
  remote_blind m -> (forall a, remote_blind (f a)) -> remote_blind (m ≫= f).
Proof.
  intros Hm Hf w1 w2 H. unfold mbind, M_bind.
  destruct (Hm w1 w2 H) as [Hw Hr].
  destruct (m w1) as [w1' [a1|e1]], (m w2) as [w2' [a2|e2]];
    simpl in *; try discriminate.
  - injection Hr as ->. by apply Hf.
  - by injection Hr as ->.
Qed.

Lemma blind_try {A} (m : M A) (h : exn -> M A) :
  remote_blind m -> (forall e, remote_blind (h e)) -> remote_blind (try_except m h).
Proof.
  intros Hm Hh w1 w2 H. unfold try_except.
  destruct (Hm w1 w2 H) as [Hw Hr].
  destruct (m w1) as [w1' [a1|e1]], (m w2) as [w2' [a2|e2]];
    simpl in *; try discriminate.
  - by injection Hr as ->.
  - injection Hr as ->. by apply Hh.
Qed.

Lemma blind_get_fs : remote_blind get_fs.
Proof. intros w1 w2 [Hf Hc]. unfold get_fs. simpl. by rewrite Hf. Qed.

Lemma blind_modify_fs (f : gmap path node -> gmap path node) : remote_blind (modify_fs f).
Proof. intros w1 w2 [Hf Hc]. unfold modify_fs, same_local. simpl. by rewrite Hf, Hc. Qed.

Lemma blind_add_construct (c : Construct) : remote_blind (add_construct c).
Proof. intros w1 w2 [Hf Hc]. unfold add_construct, same_local. simpl. by rewrite Hf, Hc. Qed.

Lemma blind_if {A} (b : bool) (m1 m2 : M A) :
  remote_blind m1 -> remote_blind m2 -> remote_blind (if b then m1 else m2).
Proof. by destruct b. Qed.
End RemoteBlind.

Create HintDb blind.
#[local] Hint Resolve blind_ret blind_raise blind_get_fs blind_modify_fs
  blind_add_construct blind_if : blind.
#[local] Hint Extern 2 (remote_blind (_ ≫= _)) => apply blind_bind; [| intros ?] : blind.
#[local] Hint Extern 2 (remote_blind (try_except _ _)) => apply blind_try; [| intros ?] : blind.

Section RemoteBlindSteps.
Import PipelineStack.

Lemma blind_write_new (p : path) (text : string) : remote_blind (write_new p text).
Proof.
  intros w1 w2 H. unfold write_new. destruct H as [Hf Hc]. rewrite Hf.
  destruct (negb (isdir (parent p) (fs w2))); [done |].
  destruct (exists_ p (fs w2)); [done |].
  by apply blind_modify_fs.
Qed.

Lemma blind_write_over (p : path) (text : string) : remote_blind (write_over p text).
Proof.
  intros w1 w2 H. unfold write_over. destruct H as [Hf Hc]. rewrite Hf.
  destruct (negb (isdir (parent p) (fs w2))); [done |].
  destruct (isdir p (fs w2)); [done |].
  by apply blind_modify_fs.
Qed.

Lemma blind_run_cmd_init (o : Outside) (pipeline : DataPipeline.t) (code_dir : path) :
  remote_blind (run_cmd_init o pipeline code_dir).
Proof.
  intros w1 w2 [Hf Hc]. unfold run_cmd_init. rewrite Hf.
  destruct (cp_R _ _ _) as [m5 status]. unfold same_local. simpl. by rewrite Hc.
Qed.

Lemma blind_add_constructs (cs : list Construct) : remote_blind (add_constructs cs).
Proof. induction cs as [|c cs IH]; simpl; auto with blind. Qed.

Lemma blind_initialize_repo (o : Outside) (pipeline : DataPipeline.t) (code_dir : path) :
  remote_blind (initialize_repo o pipeline code_dir).
Proof.
  unfold initialize_repo. apply blind_bind; [apply blind_run_cmd_init |].
  intros process. auto with blind.
Qed.

Lemma blind_zip_directory (o : Outside) (p : path) : remote_blind (zip_directory o p).
Proof.
  unfold zip_directory. apply blind_try; [| auto with blind].
  apply blind_bind; [apply blind_get_fs |]. intros m. auto 10 with blind.
Qed.

Lemma blind_cleanup_zip_directory (p : path) : remote_blind (cleanup_zip_directory p).
Proof. unfold cleanup_zip_directory. auto 10 with blind. Qed.

Lemma blind_cleanup_pipeline_directory (p : path) :
  remote_blind (cleanup_pipeline_directory p).
Proof. unfold cleanup_pipeline_directory. auto 10 with blind. Qed.

Lemma blind_bootstrap_repository (o : Outside) (pipeline : DataPipeline.t)
    (pipeline_environment : Environment.t) (development_environments : list DPE) :
  remote_blind (bootstrap_repository o pipeline pipeline_environment
                  development_environments).
Proof.
  unfold bootstrap_repository, write_deploy_buildspec, write_ddk_json_multienvironment.
  repeat (apply blind_bind; [| intros ?]);
    auto 10 using blind_run_cmd_init, blind_write_new, blind_write_over,
      blind_zip_directory with blind.
Qed.

Lemma blind_synthesize_topology (pipeline : DataPipeline.t)
    (development_environments : list DPE) :
  remote_blind (synthesize_topology pipeline development_environments).
Proof.
  unfold synthesize_topology, outputs.
  repeat (apply blind_bind; [| intros ?]);
    auto using blind_add_constructs with blind.
  destruct (codepipeline_pipeline _); auto with blind.
Qed.

Lemma blind_postprocess (o : Outside) : remote_blind (postprocess o).
Proof. unfold postprocess. destruct (postprocess_fault o); auto with blind. Qed.

#[local] Arguments resolve : simpl never.

(** The update of the repository with and without a racing writer: the
    same result, the same disk, the same constructs. *)
Lemma update_repository_racing (o : Outside) (b : bool) (pipeline : DataPipeline.t)
    (pipeline_environment : Environment.t) (development_environments : list DPE)
    (w : World) :
  let r1 := update_repository o pipeline pipeline_environment development_environments w in
  let r2 := update_repository (with_racing b o) pipeline pipeline_environment
              development_environments w in
  same_local r1.1 r2.1 /\ r1.2 = r2.2.
Proof.
  unfold update_repository, _set_env_vars, _check_repository, get_repository,
    try_except, mbind, M_bind, mret, M_ret, raise. simpl.
  destruct (session_fault o); [done |].
  destruct (probe_fault o) as [e|].
  { destruct e; try done. by destruct (String.eqb _ _). }
  destruct (remote w !! DataPipeline.repo pipeline) as [r|] eqn:Hr; [| done].
  destruct (write_ddk_json_multienvironment _ _ _ _ w) as [w1 [[]|e]] eqn:Hw; [| done].
  assert (Hrem : remote w1 = remote w).
  { revert Hw. unfold write_ddk_json_multienvironment, write_over, modify_fs.
    destruct (negb _); [by intros [= <-] |].
    destruct (isdir _ _); by intros [= <-]. }
  unfold run_update_cmds. simpl. rewrite Hrem, Hr.
  destruct (resolve _ (fs w1)) as [[content|]|]; try done.
  unfold CodeCommit.put_file.
  destruct (racing_commit o), b; simpl; repeat case_decide; simpl; done.
Qed.
End RemoteBlindSteps.

Lemma same_start_after {A B} (m : M A) (f1 f2 : A -> M B) :
  (forall a, same_start (f1 a) (f2 a)) -> same_start (m ≫= f1) (m ≫= f2).
Proof.
  intros Hf w. unfold mbind, M_bind. destruct (m w) as [w' [a|e]]; [apply Hf | done].
Qed.

Lemma same_start_then {A B} (m1 m2 : M A) (k : A -> M B) :
  same_start m1 m2 -> (forall a, remote_blind (k a)) -> same_start (m1 ≫= k) (m2 ≫= k).
Proof.
  intros Hm Hk w. unfold mbind, M_bind. destruct (Hm w) as [Hw Hr].
  destruct (m1 w) as [w1 [a1|e1]], (m2 w) as [w2 [a2|e2]]; simpl in *; try discriminate.
  - injection Hr as ->. by apply Hk.
  - by injection Hr as ->.
Qed.

Lemma same_start_try {A} (m1 m2 : M A) (h : exn -> M A) :
  same_start m1 m2 -> (forall e, remote_blind (h e)) ->
  same_start (try_except m1 h) (try_except m2 h).
Proof.
  intros Hm Hh w. unfold try_except. destruct (Hm w) as [Hw Hr].
  destruct (m1 w) as [w1 [a1|e1]], (m2 w) as [w2 [a2|e2]]; simpl in *; try discriminate.
  - by injection Hr as ->.
  - injection Hr as ->. by apply Hh.
Qed.

Lemma bootstrap_repository_racing (o : Outside) (b : bool) :
  PipelineStack.bootstrap_repository (with_racing b o) = PipelineStack.bootstrap_repository o.
Proof. reflexivity. Qed.

Lemma postprocess_racing (o : Outside) (b : bool) :
  PipelineStack.postprocess (with_racing b o) = PipelineStack.postprocess o.
Proof. reflexivity. Qed.

(** C5, as stated, fails: another writer commits between the reading of the
    tip and the submission, the service refuses the stale parent and the
    script ends with status 255; the constructor goes on and returns what it
    returns after an accepted commit, and the repository has no descriptor. *)
Lemma stale_descriptor_commit_is_dropped :
  let envs := [Sample.env "dev" 1; Sample.env "prod" 2] in
  let pipeline := Sample.pipeline "trunk" in
  let written := (PipelineStack.write_ddk_json_multienvironment PipelineStack.code_dir_path
                    ["ddk.json"] Sample.cicd envs Sample.provisioned).1 in
  let run := PipelineStack.__init__ Sample.racing pipeline Sample.cicd envs
               Sample.provisioned in
  (PipelineStack.run_update_cmds Sample.racing pipeline PipelineStack.code_dir_path written).2
    = Ok (mkProcess 255)
  /\ is_ok run.2 = true
  /\ bootstrapped run.1 = false
  /\ remote run.1 !! "orders-repo" = Some (CodeCommit.mk 8 ∅)
  /\ run.2 = (PipelineStack.__init__ Sample.quiet pipeline Sample.cicd envs
                Sample.provisioned).2.
Proof. repeat split; vm_compute; reflexivity. Qed.

(** C5, amended: the constructor does not look at the status of the script
    that submits the descriptor.  Whether or not another writer made the
    parent commit stale, the run gives the same result, the same disk and
    the same constructs; only the remote repository differs. *)
Theorem descriptor_commit_outcome_is_ignored (o : Outside) (b : bool)
    (pipeline : DataPipeline.t) (pipeline_environment : Environment.t)
    (development_environments : list DPE) (w : World) :
  let r1 := PipelineStack.__init__ o pipeline pipeline_environment
              development_environments w in
  let r2 := PipelineStack.__init__ (with_racing b o) pipeline pipeline_environment
              development_environments w in
  r1.2 = r2.2 /\ fs r1.1 = fs r2.1 /\ constructs r1.1 = constructs r2.1.
Proof.
  intros r1 r2.
  enough (H : same_start
                (PipelineStack.__init__ o pipeline pipeline_environment
                   development_environments)
                (PipelineStack.__init__ (with_racing b o) pipeline pipeline_environment
                   development_environments)).
  { destruct (H w) as [[Hf Hc] Hr]. done. }
  unfold PipelineStack.__init__.
  rewrite bootstrap_repository_racing, postprocess_racing.
  do 3 (apply same_start_after; intros _).
  apply same_start_then.
  - apply same_start_try.
    + intros w'. apply update_repository_racing.
    + intros e. apply blind_bootstrap_repository.
  - intros _.
    apply blind_bind; [apply blind_synthesize_topology | intros t].
    apply blind_bind; [apply blind_postprocess | intros ?].
    apply blind_bind; [apply blind_cleanup_zip_directory | intros ?].
    apply blind_bind; [apply blind_cleanup_pipeline_directory | intros ?].
    apply blind_ret.
Qed.

(** ** JSON: what is printed is read back *)

Lemma parse_chars_escape_char (c : ascii) (tail : string) :
  parse_chars (escape_char c +:+ tail) = cons_char c (parse_chars tail).
Proof.
  destruct c as [[] [] [] [] [] [] [] []]; reflexivity.
Qed.

Lemma parse_chars_escape (s rest : string) :
  parse_chars (escape s +:+ dq +:+ rest) = Some (s, rest).
Proof.
  induction s as [|c s IH].
  - reflexivity.
  - change (escape (String c s)) with (escape_char c +:+ escape s).
    rewrite string_app_assoc, parse_chars_escape_char, IH. reflexivity.
Qed.

Lemma skip_ws_sp (n : nat) (s : string) : skip_ws (sp n +:+ s) = skip_ws s.
Proof.
  unfold sp. induction n as [|n IH]; [reflexivity |].
  cbn [repeat].
  assert (E : forall l, String.concat EmptyString (" " :: l) = " " +:+ String.concat EmptyString l).
  { intros [|x l]; reflexivity. }
  rewrite E. simpl. exact IH.
Qed.

Lemma skip_ws_nl (s : string) : skip_ws (nl +:+ s) = skip_ws s.
Proof. reflexivity. Qed.

Lemma skip_ws_id (s : string) : no_blank_ahead s -> skip_ws s = s.
Proof. destruct s as [|c s]; simpl; [done |]. by intros ->. Qed.

Lemma skip_ws_idem (s : string) : skip_ws (skip_ws s) = skip_ws s.
Proof.
  induction s as [|c s IH]; simpl; [done |].
  destruct (is_ws c) eqn:E; [exact IH | simpl; by rewrite E].
Qed.

Lemma parse_value_skip_ws (fuel : nat) (s : string) :
  parse_value fuel (skip_ws s) = parse_value fuel s.
Proof. destruct fuel; simpl; [done |]. by rewrite skip_ws_idem. Qed.

Lemma parse_members_skip_ws (fuel : nat) (s : string) :
  parse_members fuel (skip_ws s) = parse_members fuel s.
Proof. destruct fuel; simpl; [done |]. by rewrite skip_ws_idem. Qed.

Lemma json_size_object (ms : list (string * json)) :
  json_size (JObject ms) = S (members_size ms).
Proof. reflexivity. Qed.

Lemma json_size_pos (j : json) : (1 <= json_size j)%nat.
Proof. destruct j; [simpl; lia | rewrite json_size_object; lia]. Qed.

Lemma members_size_cons (k : string) (v : json) (ms : list (string * json)) :
  members_size ((k, v) :: ms) = S (json_size v + members_size ms).
Proof. reflexivity. Qed.

Lemma dumps_object (indent : nat) (m : string * json) (ms : list (string * json)) :
  dumps indent (JObject (m :: ms)) =
    "{" +:+ nl +:+ join ("," +:+ nl) (List.map (member_text indent) (m :: ms))
    +:+ nl +:+ sp indent +:+ "}".
Proof. reflexivity. Qed.

Lemma dumps_no_blank_ahead (indent : nat) (j : json) (rest : string) :
  no_blank_ahead (dumps indent j +:+ rest).
Proof. destruct j as [s | [|m ms]]; reflexivity. Qed.

Lemma parse_value_string (fuel : nat) (s : string) :
  parse_value (S fuel) (dq +:+ s) =
    match parse_chars s with
    | Some (str, rest) => Some (JString str, rest)
    | None => None
    end.
Proof. reflexivity. Qed.

Lemma parse_value_object (fuel : nat) (s : string) :
  parse_value (S fuel) ("{" +:+ s) =
    match skip_ws s with
    | String c rest =>
        if (nat_of_ascii c =? 125)%nat then Some (JObject [], rest)
        else match parse_members fuel s with
             | Some (ms, rest') => Some (JObject ms, rest')
             | None => None
             end
    | EmptyString => None
    end.
Proof. reflexivity. Qed.

Lemma parse_members_key (fuel : nat) (s : string) :
  parse_members (S fuel) (dq +:+ s) =
    match parse_chars s with
    | Some (k, r1) =>
        match skip_ws r1 with
        | String c1 r2 =>
            if (nat_of_ascii c1 =? 58)%nat then
              match parse_value fuel r2 with
              | Some (v, r3) =>
                  match skip_ws r3 with
                  | String c3 r4 =>
                      if (nat_of_ascii c3 =? 44)%nat then
                        match parse_members fuel r4 with
                        | Some (ms, r5) => Some ((k, v) :: ms, r5)
                        | None => None
                        end
                      else if (nat_of_ascii c3 =? 125)%nat then Some ([(k, v)], r4)
                      else None
                  | EmptyString => None
                  end
              | None => None
              end
            else None
        | EmptyString => None
        end
    | None => None
    end.
Proof. reflexivity. Qed.

Lemma join_cons (sep x : string) (y : string) (l : list string) :
  join sep (x :: y :: l) = x +:+ sep +:+ join sep (y :: l).
Proof. reflexivity. Qed.

(** What the printer writes, the parser reads back, given fuel for the size
    of the document: a value, and the members of an object up to its closing
    brace. *)
Lemma parse_dumps (fuel : nat) :
  (forall (j : json) (indent : nat) (rest : string),
      (json_size j <= fuel)%nat ->
      parse_value fuel (dumps indent j +:+ rest) = Some (j, rest))
  /\ (forall (ms : list (string * json)) (indent : nat) (rest : string),
        ms <> [] -> (members_size ms <= fuel)%nat ->
        parse_members fuel
          (join ("," +:+ nl) (List.map (member_text indent) ms)
           +:+ nl +:+ sp indent +:+ "}" +:+ rest) = Some (ms, rest)).
Proof.
  induction fuel as [|fuel [IHv IHm]].
  { split.
    - intros j indent rest H. pose proof (json_size_pos j). lia.
    - intros [|m ms] indent rest Hne H; [done | destruct m; rewrite members_size_cons in H; lia]. }
  split.
  - intros [s | [|m ms]] indent rest Hsize.
    + change (dumps indent (JString s) +:+ rest) with (dq +:+ (escape s +:+ dq) +:+ rest).
      rewrite parse_value_string, string_app_assoc, parse_chars_escape. reflexivity.
    + reflexivity.
    + rewrite dumps_object, !string_app_assoc, parse_value_object.
      assert (Hm : parse_members fuel
                     (nl +:+ join ("," +:+ nl) (List.map (member_text indent) (m :: ms))
                      +:+ nl +:+ sp indent +:+ "}" +:+ rest) = Some (m :: ms, rest)).
      { rewrite <- parse_members_skip_ws, skip_ws_nl, parse_members_skip_ws.
        apply IHm; [done |]. rewrite json_size_object in Hsize. lia. }
      rewrite Hm, skip_ws_nl.
      destruct m as [k v]. destruct ms as [|m' ms'].
      * simpl join. unfold member_text at 1. rewrite !string_app_assoc, skip_ws_sp.
        reflexivity.
      * simpl List.map. rewrite join_cons. unfold member_text at 1.
        rewrite !string_app_assoc, skip_ws_sp. reflexivity.
  - intros [|[k v] ms] indent rest Hne Hsize; [done |].
    rewrite members_size_cons in Hsize.
    assert (Hv : (json_size v <= fuel)%nat) by lia.
    assert (Hms : (members_size ms <= fuel)%nat) by lia.
    rewrite <- parse_members_skip_ws.
    destruct ms as [|m' ms'].
    + simpl List.map. simpl join. unfold member_text, quoted. simpl fst. simpl snd.
      rewrite !string_app_assoc, skip_ws_sp.
      rewrite skip_ws_id by reflexivity.
      rewrite parse_members_key, parse_chars_escape.
      change (skip_ws (": " +:+ dumps (indent + 4) v +:+ nl +:+ sp indent +:+ "}" +:+ rest))
        with (String ":" (" " +:+ dumps (indent + 4) v +:+ nl +:+ sp indent +:+ "}" +:+ rest)).
      cbv beta iota. change (nat_of_ascii ":" =? 58)%nat with true. cbv iota.
      rewrite <- parse_value_skip_ws.
      change (skip_ws (" " +:+ dumps (indent + 4) v +:+ nl +:+ sp indent +:+ "}" +:+ rest))
        with (skip_ws (dumps (indent + 4) v +:+ nl +:+ sp indent +:+ "}" +:+ rest)).
      rewrite skip_ws_id by apply dumps_no_blank_ahead.
      rewrite (IHv v _ _ Hv).
      rewrite skip_ws_nl, skip_ws_sp. reflexivity.
    + simpl List.map. rewrite join_cons. unfold member_text at 1. unfold quoted.
      simpl fst. simpl snd.
      rewrite !string_app_assoc, skip_ws_sp.
      rewrite skip_ws_id by reflexivity.
      rewrite parse_members_key, parse_chars_escape.
      match goal with |- context [skip_ws (": " +:+ ?X)] =>
        change (skip_ws (": " +:+ X)) with (String ":" (" " +:+ X)) end.
      cbv beta iota. change (nat_of_ascii ":" =? 58)%nat with true. cbv iota.
      rewrite <- parse_value_skip_ws.
      match goal with |- context [skip_ws (" " +:+ ?X)] =>
        change (skip_ws (" " +:+ X)) with (skip_ws X) end.
      rewrite skip_ws_id by apply dumps_no_blank_ahead.
      rewrite (IHv v _ _ Hv).
      match goal with |- context [skip_ws ("," +:+ ?X)] =>
        change (skip_ws ("," +:+ X)) with (String "," X) end.
      cbv beta iota. change (nat_of_ascii "," =? 44)%nat with true. cbv iota.
      rewrite <- parse_members_skip_ws, skip_ws_nl, parse_members_skip_ws.
      change (member_text indent m' :: List.map (member_text indent) ms')
        with (List.map (member_text indent) (m' :: ms')).
      rewrite (IHm (m' :: ms') indent rest); [reflexivity | done | exact Hms].
Qed.

Fixpoint json_induction (P : json -> Prop)
    (Hs : forall s, P (JString s))
    (Ho : forall ms, Forall (fun m => P (snd m)) ms -> P (JObject ms))
    (j : json) : P j :=
  match j with
  | JString s => Hs s
  | JObject ms =>
      Ho ms ((fix go (l : list (string * json)) : Forall (fun m => P (snd m)) l :=
                match l with
                | [] => @List.Forall_nil _ _
                | m :: l' => @List.Forall_cons _ _ m l' (json_induction P Hs Ho (snd m)) (go l')
                end) ms)
  end.

Lemma join_length (sep : string) (l : list string) :
  (list_sum (List.map String.length l) <= String.length (join sep l))%nat.
Proof.
  induction l as [|x [|y l] IH]; simpl in *; try lia.
  rewrite !string_length_app. lia.
Qed.

(** A document is no larger than its text. *)
Lemma json_size_le_length (j : json) :
  forall indent, (json_size j <= String.length (dumps indent j))%nat.
Proof.
  induction j as [s | ms IH] using json_induction; intros indent.
  - unfold dumps, quoted. rewrite !string_length_app. simpl. lia.
  - destruct ms as [|m ms]; [simpl; lia |].
    rewrite dumps_object, json_size_object, !string_length_app.
    pose proof (join_length ("," +:+ nl) (List.map (member_text indent) (m :: ms))) as Hj.
    assert (Hm : (members_size (m :: ms)
                  <= list_sum (List.map String.length
                                 (List.map (member_text indent) (m :: ms))))%nat).
    { clear Hj. induction IH as [|[k v] l Hv _ IHl]; [done |].
      rewrite members_size_cons. simpl List.map. simpl list_sum.
      unfold member_text at 1, quoted. rewrite !string_length_app. simpl String.length.
      simpl snd in *. specialize (Hv (indent + 4)%nat).
      revert Hv IHl.
      generalize (json_size v) (members_size l) (String.length (dumps (indent + 4) v))
        (list_sum (List.map String.length (List.map (member_text indent) l)))
        (String.length (sp (indent + 4))) (String.length (escape k)).
      intros. lia. }
    remember (String.length (join ("," +:+ nl) (List.map (member_text indent) (m :: ms)))) as J.
    remember (members_size (m :: ms)) as S1.
    simpl String.length. lia.
Qed.

(** The printed text of a document, with or without a line break after it,
    is read back as that document. *)
Theorem parse_json_dumps (j : json) :
  parse_json (dumps 0 j) = Some j /\ parse_json (py_print (dumps 0 j)) = Some j.
Proof.
  assert (H : forall tail n, skip_ws tail = EmptyString ->
                (String.length (dumps 0 j) <= n)%nat ->
                match parse_value (S n) (dumps 0 j +:+ tail) with
                | Some (j', rest) =>
                    match skip_ws rest with EmptyString => Some j' | _ => None end
                | None => None
                end = Some j).
  { intros tail n Htail Hn.
    rewrite (proj1 (parse_dumps (S n))).
    - by rewrite Htail.
    - pose proof (json_size_le_length j 0). lia. }
  split.
  - unfold parse_json. specialize (H EmptyString (String.length (dumps 0 j)) eq_refl).
    assert (E : dumps 0 j +:+ EmptyString = dumps 0 j).
    { generalize (dumps 0 j). intros s. induction s; simpl; congruence. }
    rewrite E in H. apply H. lia.
  - unfold parse_json, py_print. apply H; [reflexivity |].
    rewrite string_length_app. lia.
Qed.

(** ** The descriptor *)

Lemma string_app_nil_r (s : string) : s +:+ EmptyString = s.
Proof. induction s; simpl; congruence. Qed.

Lemma escape_plain (s : string) : plain s = true -> escape s = s.
Proof.
  induction s as [|c s IH]; [done |]. simpl plain. intros [Hc Hs]%andb_true_iff.
  change (escape (String c s)) with (escape_char c +:+ escape s).
  rewrite (IH Hs). clear IH Hs. revert Hc.
  destruct c as [[] [] [] [] [] [] [] []]; try discriminate; reflexivity.
Qed.

Lemma fold_left_append {A} (g : A -> string) (l : list A) (acc : string) :
  fold_left (fun acc x => acc +:+ g x) l acc =
    acc +:+ fold_right (fun x r => g x +:+ r) EmptyString l.
Proof.
  revert acc. induction l as [|x l IH]; intros acc; simpl.
  - by rewrite string_app_nil_r.
  - by rewrite IH, string_app_assoc.
Qed.

Lemma join_cons_map {A} (sep : string) (f : A -> string) (x : string) (l : list A) :
  join sep (x :: List.map f l) =
    x +:+ fold_right (fun y r => (sep +:+ f y) +:+ r) EmptyString l.
Proof.
  revert x. induction l as [|y l IH]; intros x.
  - simpl. by rewrite string_app_nil_r.
  - simpl List.map. rewrite join_cons, IH. simpl fold_right.
    by rewrite !string_app_assoc.
Qed.

(** The text appended for one environment is the separator and the member
    of the document for that environment. *)
Lemma json_env_member (env : DPE) :
  plain_env env = true ->
  json_env env =
    ("," +:+ nl) +:+ member_text 4 (DataPipelineEnvironment.stage env, stage_entry env).
Proof.
  unfold plain_env. intros [[[Hs Ha]%andb_true_iff Hr]%andb_true_iff Ht]%andb_true_iff.
  unfold json_env, member_text, stage_entry. simpl fst. simpl snd.
  rewrite !dumps_object. cbn [List.map join]. unfold member_text. simpl fst. simpl snd.
  rewrite !dumps_object. cbn [List.map join]. unfold member_text. simpl fst. simpl snd.
  cbn [dumps]. unfold quoted.
  rewrite (escape_plain _ Hs), (escape_plain _ Ha), (escape_plain _ Hr), (escape_plain _ Ht).
  rewrite !string_app_assoc. reflexivity.
Qed.

(** For plain attribute values, the rendered text is the printed document. *)
Lemma ddk_json_dumps (pipeline_environment : Environment.t)
    (development_environments : list DPE) :
  plain_cicd pipeline_environment = true ->
  forallb plain_env development_environments = true ->
  ddk_json pipeline_environment development_environments =
    dumps 0 (descriptor pipeline_environment development_environments).
Proof.
  intros [Ha Hr]%andb_true_iff Henvs.
  unfold descriptor. rewrite dumps_object. cbn [List.map join]. unfold member_text at 1.
  simpl fst. simpl snd. rewrite dumps_object.
  change (List.map (member_text (0 + 4))
            (("cicd", cicd_entry pipeline_environment)
             :: List.map (fun env => (DataPipelineEnvironment.stage env, stage_entry env))
                  development_environments))
    with (member_text 4 ("cicd", cicd_entry pipeline_environment)
          :: List.map (member_text 4)
               (List.map (fun env => (DataPipelineEnvironment.stage env, stage_entry env))
                  development_environments)).
  rewrite List.map_map, join_cons_map.
  unfold ddk_json, json_envs. rewrite fold_left_append.
  assert (Hfold :
    fold_right (fun x r => json_env x +:+ r) EmptyString development_environments =
    fold_right (fun y r => (("," +:+ nl) +:+
                  member_text 4 (DataPipelineEnvironment.stage y, stage_entry y)) +:+ r)
               EmptyString development_environments).
  { induction development_environments as [|env l IH]; [done |].
    simpl in Henvs. apply andb_true_iff in Henvs as [He Hl].
    cbn [fold_right]. by rewrite (json_env_member env He), (IH Hl). }
  rewrite Hfold. generalize (fold_right (fun y r => (("," +:+ nl) +:+
                  member_text 4 (DataPipelineEnvironment.stage y, stage_entry y)) +:+ r)
               EmptyString development_environments). intros tail.
  unfold member_text, cicd_entry. simpl fst. simpl snd.
  rewrite dumps_object. cbn [List.map join]. unfold member_text. simpl fst. simpl snd.
  cbn [dumps]. unfold quoted.
  rewrite (escape_plain _ Ha), (escape_plain _ Hr).
  rewrite !string_app_assoc. reflexivity.
Qed.

Lemma write_over_content (p : path) (text : string) (w : World) :
  (write_over p text w).2 = Ok tt ->
  fs (write_over p text w).1 !! p = Some (File (py_print text)).
Proof.
  unfold write_over, modify_fs.
  destruct (negb (isdir (parent p) (fs w))); [discriminate |].
  destruct (isdir p (fs w)); [discriminate |].
  intros _. simpl. apply lookup_insert_eq.
Qed.

(** C8, as stated, fails: attribute values are copied between the quotes as
    they are, so a stage name with a quote in it gives a text that is no
    JSON document. *)
Lemma descriptor_with_quote_is_not_json :
  let env := DataPipelineEnvironment.mk ("de" +:+ dq +:+ "v") 1 "env-dev" "222222222222"
               "eu-west-1" "team-a" in
  parse_json (py_print (ddk_json Sample.cicd [env])) = None.
Proof. vm_compute. reflexivity. Qed.

(** C8, amended: when no attribute value holds a quote, a backslash or a
    control character, the file that [write_ddk_json_multienvironment] writes
    is the JSON document [{"environments": {"cicd": {...}, <stage>: {...},
    ...}}] of [descriptor]: its text is that document printed, and it is read
    back as that document.  The text is a function of the two inputs. *)
Theorem descriptor_file_is_json (path_ output_file : path)
    (pipeline_environment : Environment.t) (development_environments : list DPE)
    (w : World) :
  plain_cicd pipeline_environment = true ->
  forallb plain_env development_environments = true ->
  (PipelineStack.write_ddk_json_multienvironment path_ output_file pipeline_environment
     development_environments w).2 = Ok tt ->
  exists content,
    fs (PipelineStack.write_ddk_json_multienvironment path_ output_file
          pipeline_environment development_environments w).1
      !! (path_ </> output_file) = Some (File content)
    /\ content = py_print (dumps 0 (descriptor pipeline_environment development_environments))
    /\ parse_json content = Some (descriptor pipeline_environment development_environments).
Proof.
  intros Hc He Hw. apply write_over_content in Hw.
  exists (py_print (ddk_json pipeline_environment development_environments)).
  split; [exact Hw |]. rewrite (ddk_json_dumps _ _ Hc He).
  split; [reflexivity | apply parse_json_dumps].
Qed.

Lemma descriptor_file_is_json_witness :
  let envs := [Sample.env "dev" 1; Sample.env "prod" 2] in
  exists content,
    fs (PipelineStack.write_ddk_json_multienvironment PipelineStack.code_dir_path
          ["ddk.json"] Sample.cicd envs Sample.fresh).1
      !! (PipelineStack.code_dir_path </> ["ddk.json"]) = Some (File content)
    /\ content = py_print (dumps 0 (descriptor Sample.cicd envs))
    /\ parse_json content = Some (descriptor Sample.cicd envs).
Proof.
  apply (descriptor_file_is_json PipelineStack.code_dir_path ["ddk.json"] Sample.cicd
           [Sample.env "dev" 1; Sample.env "prod" 2] Sample.fresh);
    vm_compute; reflexivity.
Defined.

(** ** More on the local disk *)

Lemma ancestors_spec (q q' : path) :
  In q' (ancestors q) <-> exists k, (1 <= k <= length q - 1)%nat /\ q' = take k q.
Proof.
  unfold ancestors. rewrite in_map_iff. split.
  - intros (k & <- & Hk). apply in_seq in Hk. exists k. split; [lia | done].
  - intros (k & Hk & ->). exists k. split; [done |]. apply in_seq. lia.
Qed.

Lemma ancestor_shorter (q q' : path) : In q' (ancestors q) -> (length q' < length q)%nat.
Proof.
  intros (k & Hk & ->)%ancestors_spec. rewrite length_take. lia.
Qed.

Lemma is_prefix_take (d q : path) (k : nat) :
  is_prefix d (take k q) = true -> is_prefix d q = true.
Proof.
  revert q k. induction d as [|x d IH]; intros q k; [done |].
  destruct q as [|y q]; [by rewrite take_nil |].
  destruct k as [|k]; [done |]. simpl.
  intros [Hx Hd]%andb_true_iff. rewrite Hx. simpl. by apply (IH q k).
Qed.

Lemma forallb_agree {A} (f g : A -> bool) (l : list A) :
  (forall x, In x l -> f x = g x) -> forallb f l = forallb g l.
Proof.
  induction l as [|x l IH]; intros H; [done |]. simpl.
  rewrite (H x) by (by left). rewrite IH; [done |]. intros y Hy. apply H. by right.
Qed.

(** Two disks that agree on a path and on what is above it resolve it alike. *)
Lemma resolve_ext (m m' : gmap path node) (q : path) :
  (forall q', In q' (ancestors q) -> m !! q' = m' !! q') -> m !! q = m' !! q ->
  resolve q m = resolve q m'.
Proof.
  intros Hanc Hq. unfold resolve. destruct q as [|c q]; [done |].
  rewrite Hq.
  rewrite (forallb_agree _ (fun q0 => match m' !! q0 with Some Dir => true | _ => false end));
    [done |].
  intros q1 H1. by rewrite (Hanc q1 H1).
Qed.

(** Writing an entry where the directory above is one makes the path name
    that entry, and changes no path that is neither it nor below it. *)
Lemma resolve_insert_eq (p : path) (n : node) (m : gmap path node) :
  p <> [] -> isdir (parent p) m = true -> resolve p (<[p := n]> m) = Some n.
Proof.
  intros Hp Hdir.
  assert (Hall : forallb (fun q => match <[p := n]> m !! q with Some Dir => true | _ => false end)
                   (ancestors p) = true).
  { apply forallb_forall. intros q Hq.
    rewrite lookup_insert_ne by (intros ->; apply ancestor_shorter in Hq; lia).
    (* every directory above [p] is there, since the one just above it resolves *)
    destruct (exists_last Hp) as (p' & x & Hp0).
    assert (Hparent : parent p = p').
    { unfold parent. rewrite Hp0. apply removelast_last. }
    rewrite Hparent in Hdir. unfold isdir in Hdir.
    destruct (resolve p' m) as [[|]|] eqn:R; try discriminate.
    destruct p' as [|c' p'].
    - (* a path of one component has nothing above it *)
      rewrite Hp0 in Hq. simpl in Hq. done.
    - rewrite Hp0, ancestors_snoc in Hq by done.
      apply in_app_or in Hq as [Hq | [<- | []]].
      + unfold resolve in R. destruct (forallb _ (ancestors (c' :: p'))) eqn:F; [| done].
        rewrite forallb_forall in F. exact (F q Hq).
      + apply resolve_lookup in R; [| done]. by rewrite R. }
  unfold resolve. destruct p as [|c p0]; [done |]. by rewrite Hall, lookup_insert_eq.
Qed.

Lemma resolve_insert_other (p q : path) (n : node) (m : gmap path node) :
  is_prefix p q = false -> resolve q (<[p := n]> m) = resolve q m.
Proof.
  intros Hpq. apply resolve_ext.
  - intros q' (k & Hk & ->)%ancestors_spec. apply lookup_insert_ne. intros ->.
    assert (is_prefix (take k q) q = true) by (apply (is_prefix_take _ _ k), is_prefix_refl).
    congruence.
  - apply lookup_insert_ne. intros ->. by rewrite is_prefix_refl in Hpq.
Qed.

Lemma resolve_delete_other (p q : path) (m : gmap path node) :
  is_prefix p q = false -> resolve q (delete p m) = resolve q m.
Proof.
  intros Hpq. apply resolve_ext.
  - intros q' (k & Hk & ->)%ancestors_spec. apply lookup_delete_ne. intros ->.
    assert (is_prefix (take k q) q = true) by (apply (is_prefix_take _ _ k), is_prefix_refl).
    congruence.
  - apply lookup_delete_ne. intros ->. by rewrite is_prefix_refl in Hpq.
Qed.

Lemma rmtree_lookup_other (p q : path) (m : gmap path node) :
  is_prefix p q = false -> rmtree p m !! q = m !! q.
Proof.
  intros Hpq. unfold rmtree. destruct (m !! q) as [n|] eqn:E.
  - apply map_lookup_filter_Some. split; [done |]. exact Hpq.
  - apply map_lookup_filter_None. by left.
Qed.

Lemma resolve_rmtree_other (p q : path) (m : gmap path node) :
  is_prefix p q = false -> resolve q (rmtree p m) = resolve q m.
Proof.
  intros Hpq. apply resolve_ext.
  - intros q' (k & Hk & ->)%ancestors_spec. apply rmtree_lookup_other.
    destruct (is_prefix p (take k q)) eqn:E; [| done].
    apply is_prefix_take in E. congruence.
  - by apply rmtree_lookup_other.
Qed.

Lemma is_prefix_length (p q : path) : is_prefix p q = true -> (length p <= length q)%nat.
Proof.
  revert q. induction p as [|x p IH]; intros [|y q]; simpl; try done; try lia.
  intros [_ H]%andb_true_iff. specialize (IH q H). lia.
Qed.

Lemma is_prefix_snoc_self (p : path) (x : string) : is_prefix (p ++ [x]) p = false.
Proof.
  destruct (is_prefix (p ++ [x]) p) eqn:E; [| done].
  apply is_prefix_length in E. rewrite length_app in E. simpl in E. lia.
Qed.

Lemma is_prefix_app (p q : path) : is_prefix p (p ++ q) = true.
Proof. induction p as [|x p IH]; simpl; [done |]. by rewrite bool_decide_eq_true_2. Qed.

Lemma is_prefix_app_both (d a b : path) : is_prefix (d ++ a) (d ++ b) = is_prefix a b.
Proof. induction d as [|x d IH]; simpl; [done |]. by rewrite bool_decide_eq_true_2. Qed.




(** The directory above a path that names something is a directory. *)
Lemma exists_parent (p : path) (m : gmap path node) :
  exists_ p m = true -> isdir (parent p) m = true.
Proof.
  unfold exists_, isdir, parent. destruct (resolve p m) as [n|] eqn:R; [intros _ | done].
  destruct (decide (p = [])) as [-> | Hp]; [done |].
  destruct (exists_last Hp) as (p' & x & ->). rewrite removelast_last.
  destruct p' as [|c p']; [done |].
  by rewrite (resolve_below (c :: p') x m n).
Qed.

(** ** Writing the rendered files *)

Section Writers.
Import PipelineStack.

(** X1: [write_deploy_buildspec] opens its file with mode ['x']: when
    something already has the name of the file, a file or a directory, the
    call raises [FileExistsError] and leaves the disk, the service and the
    stack as they were; a buildspec is never written over. *)
Theorem buildspec_is_never_overwritten (path_ output_file : path) (w : World) :
  exists_ (path_ </> output_file) (fs w) = true ->
  write_deploy_buildspec path_ output_file w
    = (w, Raise (FileExistsError (path_ </> output_file))).
Proof.
  intros He. unfold write_deploy_buildspec, write_new.
  by rewrite (exists_parent _ _ He), He.
Qed.

Lemma buildspec_is_never_overwritten_witness :
  let w1 := (write_deploy_buildspec code_dir_path ["deploy_buildspec.yaml"] Sample.fresh).1 in
  write_deploy_buildspec code_dir_path ["deploy_buildspec.yaml"] w1
    = (w1, Raise (FileExistsError (code_dir_path </> ["deploy_buildspec.yaml"]))).
Proof.
  apply (buildspec_is_never_overwritten code_dir_path ["deploy_buildspec.yaml"]).
  vm_compute. reflexivity.
Defined.

Lemma isdir_parent_insert (p : path) (n : node) (m : gmap path node) :
  p <> [] -> isdir (parent p) (<[p := n]> m) = isdir (parent p) m.
Proof.
  intros Hp. unfold isdir. rewrite resolve_insert_other; [done |].
  destruct (exists_last Hp) as (p' & x & ->). unfold parent. rewrite removelast_last.
  apply is_prefix_snoc_self.
Qed.

Lemma write_over_ok (p : path) (text : string) (w : World) :
  (write_over p text w).2 = Ok tt ->
  write_over p text w
    = (mkWorld (<[p := File (py_print text)]> (fs w)) (remote w) (constructs w), Ok tt)
  /\ isdir (parent p) (fs w) = true /\ isdir p (fs w) = false.
Proof.
  unfold write_over, modify_fs.
  destruct (isdir (parent p) (fs w)); [| discriminate]. simpl.
  by destruct (isdir p (fs w)).
Qed.

Lemma write_over_again (p : path) (text : string) (w : World) :
  isdir (parent p) (fs w) = true -> isfile p (fs w) = true ->
  write_over p text w
    = (mkWorld (<[p := File (py_print text)]> (fs w)) (remote w) (constructs w), Ok tt).
Proof.
  unfold write_over, modify_fs, isfile, isdir. intros ->. simpl.
  by destruct (resolve p (fs w)) as [[|]|].
Qed.

(** X2: [write_ddk_json_multienvironment] opens its file with mode ['w']:
    after one write that returned, a second write to the same place returns
    too, for any environments, and the file then holds the second descriptor
    alone; writing the same descriptor again changes nothing. *)
Theorem descriptor_is_overwritten (path_ output_file : path)
    (e1 e2 : Environment.t) (envs1 envs2 : list DPE) (w : World) :
  (write_ddk_json_multienvironment path_ output_file e1 envs1 w).2 = Ok tt ->
  let w1 := (write_ddk_json_multienvironment path_ output_file e1 envs1 w).1 in
  let w2 := (write_ddk_json_multienvironment path_ output_file e2 envs2 w1).1 in
  (write_ddk_json_multienvironment path_ output_file e2 envs2 w1).2 = Ok tt
  /\ isfile (path_ </> output_file) (fs w2) = true
  /\ fs w2 !! (path_ </> output_file) = Some (File (py_print (ddk_json e2 envs2)))
  /\ (e2 = e1 -> envs2 = envs1 -> w2 = w1).
Proof.
  unfold write_ddk_json_multienvironment. set (p := path_ </> output_file).
  intros (E1 & Hpar & Hdir)%write_over_ok. rewrite E1. cbn [fst].
  assert (Hp : p <> []).
  { intros E. rewrite E in Hdir. discriminate. }
  set (w1 := mkWorld _ _ _).
  assert (H1 : isdir (parent p) (fs w1) = true).
  { unfold w1. cbn [fs]. by rewrite isdir_parent_insert. }
  assert (H2 : isfile p (fs w1) = true).
  { unfold w1, isfile. cbn [fs]. by rewrite resolve_insert_eq. }
  rewrite (write_over_again _ _ _ H1 H2). cbn [fst snd fs].
  split; [done |]. split.
  - unfold isfile. by rewrite resolve_insert_eq.
  - split; [apply lookup_insert_eq |].
    intros -> ->. unfold w1. cbn [fs remote constructs]. by rewrite insert_insert_eq.
Qed.

Lemma descriptor_is_overwritten_witness :
  let envs1 := [Sample.env "dev" 1] in
  let envs2 := [Sample.env "dev" 1; Sample.env "prod" 2] in
  let w1 := (write_ddk_json_multienvironment code_dir_path ["ddk.json"] Sample.cicd envs1
               Sample.fresh).1 in
  let w2 := (write_ddk_json_multienvironment code_dir_path ["ddk.json"] Sample.cicd envs2
               w1).1 in
  (write_ddk_json_multienvironment code_dir_path ["ddk.json"] Sample.cicd envs2 w1).2 = Ok tt
  /\ isfile (code_dir_path </> ["ddk.json"]) (fs w2) = true
  /\ fs w2 !! (code_dir_path </> ["ddk.json"])
     = Some (File (py_print (ddk_json Sample.cicd envs2)))
  /\ (Sample.cicd = Sample.cicd -> envs2 = envs1 -> w2 = w1).
Proof.
  apply (descriptor_is_overwritten code_dir_path ["ddk.json"] Sample.cicd Sample.cicd
           [Sample.env "dev" 1] [Sample.env "dev" 1; Sample.env "prod" 2] Sample.fresh).
  vm_compute. reflexivity.
Defined.
End Writers.

(** ** The archive and the clean-up *)

Section Archive.
Import PipelineStack.

(** X3: [zip_directory] catches whatever its two calls raise: it returns from
    every state, touches neither the service nor the stack, and changes
    nothing at all when its argument is no directory. *)
Theorem zip_directory_never_raises (o : Outside) (path_ : path) (w : World) :
  let w' := (zip_directory o path_ w).1 in
  (zip_directory o path_ w).2 = Ok tt
  /\ remote w' = remote w
  /\ constructs w' = constructs w
  /\ (isdir path_ (fs w) = false -> w' = w).
Proof.
  unfold zip_directory, try_except, get_fs, modify_fs, raise, mbind, M_bind, mret, M_ret.
  cbn [fst snd].
  destruct (isdir path_ (fs w)); cbn [negb]; [| by destruct w].
  by destruct (isdir (cwd o </> ["code.zip"]) (fs w)).
Qed.

Lemma snoc_not_root (p : path) (x : string) : p ++ [x] <> [].
Proof. by destruct p. Qed.

Lemma parent_snoc (p : path) (x : string) : parent (p ++ [x]) = p.
Proof. apply removelast_last. Qed.




(** X5: the two clean-up functions raise nothing, remove nothing but the
    archive [code.zip] of the directory, respectively what is at or below
    the directory, and do nothing when called again. *)
Theorem cleanup_removes_nothing_else (path_ q : path) (w : World) :
  let wz := (cleanup_zip_directory path_ w).1 in
  let wd := (cleanup_pipeline_directory path_ w).1 in
  (cleanup_zip_directory path_ w).2 = Ok tt
  /\ (cleanup_pipeline_directory path_ w).2 = Ok tt
  /\ (q <> path_ </> ["code.zip"] -> fs wz !! q = fs w !! q)
  /\ (is_prefix path_ q = false -> fs wd !! q = fs w !! q)
  /\ (isdir (path_ </> ["code.zip"]) (fs w) = true -> wz = w)
  /\ cleanup_zip_directory path_ wz = (wz, Ok tt)
  /\ (path_ <> [] -> cleanup_pipeline_directory path_ wd = (wd, Ok tt)).
Proof.
  unfold cleanup_zip_directory, cleanup_pipeline_directory, get_fs, modify_fs, remove,
    mbind, M_bind, mret, M_ret. cbn [fst snd].
  destruct (isfile (path_ </> ["code.zip"]) (fs w)) eqn:Hz;
    destruct (isdir path_ (fs w)) eqn:Hd; cbn [fst snd fs].
  all: repeat split; try done.
  all: try (intros Hq; by apply lookup_delete_ne).
  all: try (intros Hq; by apply rmtree_lookup_other).
  all: try (rewrite Hz; by destruct w).
  all: try (intros _; rewrite Hd; by destruct w).
  all: try (unfold isfile, isdir in *; intros Hdz;
            destruct (resolve (path_ </> ["code.zip"]) (fs w)) as [[|]|]; discriminate).
  all: try (assert (Hgone : isfile (path_ </> ["code.zip"])
                              (delete (path_ </> ["code.zip"]) (fs w)) = false);
            [ unfold isfile;
              destruct (resolve _ (delete _ _)) as [[c|]|] eqn:R; try done;
              apply resolve_lookup in R; [| apply snoc_not_root];
              by rewrite lookup_delete_eq in R
            | by rewrite Hgone ]).
  all: try (intros Hp;
            assert (Hgone : isdir path_ (rmtree path_ (fs w)) = false);
            [ unfold isdir;
              destruct (resolve _ (rmtree _ _)) as [[c|]|] eqn:R; try done;
              apply resolve_lookup in R; [| done];
              by rewrite rmtree_lookup in R
            | by rewrite Hgone ]).
Qed.
End Archive.

(** ** Relations a run keeps *)

Section Preserves.
Context (R : World -> World -> Prop) `{!Reflexive R} `{!Transitive R}.

Lemma preserves_ret {A} (a : A) : preserves R (mret a).
Proof. intros w. apply reflexivity. Qed.

Lemma preserves_raise {A} (e : exn) : preserves R (@raise A e).
Proof. intros w. apply reflexivity. Qed.

Lemma preserves_bind {A B} (m : M A) (f : A -> M B) :
  preserves R m -> (forall a, preserves R (f a)) -> preserves R (m ≫= f).
Proof.
  intros Hm Hf w. unfold mbind, M_bind. specialize (Hm w).
  destruct (m w) as [w1 [a|e]]; [| exact Hm].
  exact (transitivity Hm (Hf a w1)).
Qed.

Lemma preserves_try {A} (m : M A) (h : exn -> M A) :
  preserves R m -> (forall e, preserves R (h e)) -> preserves R (try_except m h).
Proof.
  intros Hm Hh w. unfold try_except. specialize (Hm w).
  destruct (m w) as [w1 [a|e]]; [exact Hm |].
  exact (transitivity Hm (Hh e w1)).
Qed.

Lemma preserves_get_fs : preserves R get_fs.
Proof. intros w. apply reflexivity. Qed.

Lemma preserves_if {A} (b : bool) (m1 m2 : M A) :
  preserves R m1 -> preserves R m2 -> preserves R (if b then m1 else m2).
Proof. by destruct b. Qed.
End Preserves.

#[local] Instance same_remote_refl : Reflexive same_remote.
Proof. by intros w. Qed.
#[local] Instance same_remote_trans : Transitive same_remote.
Proof. unfold same_remote. intros w1 w2 w3 H1 H2. congruence. Qed.
#[local] Instance same_disk_refl : Reflexive same_disk.
Proof. by intros w. Qed.
#[local] Instance same_disk_trans : Transitive same_disk.
Proof. unfold same_disk. intros w1 w2 w3 H1 H2. congruence. Qed.
#[local] Instance same_remote_but_refl (repo : string) : Reflexive (same_remote_but repo).
Proof. by intros w. Qed.
#[local] Instance same_remote_but_trans (repo : string) : Transitive (same_remote_but repo).
Proof.
  intros w1 w2 w3 [H1 N1] [H2 N2]. split.
  - intros other Ho. by rewrite H2, H1.
  - intros Hn. by apply N2, N1.
Qed.

Lemma same_remote_weaken {A} (repo : string) (m : M A) :
  preserves same_remote m -> preserves (same_remote_but repo) m.
Proof. intros Hm w. unfold same_remote_but. by rewrite (Hm w). Qed.

Ltac preserves_steps :=
  repeat lazymatch goal with
    | |- preserves _ (mret _) => apply preserves_ret; typeclasses eauto
    | |- preserves _ (raise _) => apply preserves_raise; typeclasses eauto
    | |- preserves _ get_fs => apply preserves_get_fs; typeclasses eauto
    | |- preserves _ (mbind _ _) => apply preserves_bind; [typeclasses eauto | | intros ?]
    | |- preserves _ (try_except _ _) =>
        apply preserves_try; [typeclasses eauto | | intros ?]
    | |- preserves _ (if _ then _ else _) => apply preserves_if
    | H : preserves ?R ?m |- preserves ?R ?m => exact H
    end.

Section KeepsRemote.
Import PipelineStack.

Lemma keeps_remote_modify_fs (f : gmap path node -> gmap path node) :
  preserves same_remote (modify_fs f).
Proof. by intros w. Qed.

Lemma keeps_remote_add_construct (c : Construct) : preserves same_remote (add_construct c).
Proof. by intros w. Qed.

Lemma keeps_remote_write_new (p : path) (text : string) :
  preserves same_remote (write_new p text).
Proof.
  intros w. unfold write_new. destruct (negb _); [done |]. by destruct (exists_ p (fs w)).
Qed.

Lemma keeps_remote_write_over (p : path) (text : string) :
  preserves same_remote (write_over p text).
Proof.
  intros w. unfold write_over. destruct (negb _); [done |]. by destruct (isdir p (fs w)).
Qed.

Lemma keeps_remote_run_cmd_init (o : Outside) (pipeline : DataPipeline.t) (d : path) :
  preserves same_remote (run_cmd_init o pipeline d).
Proof. intros w. unfold run_cmd_init. by destruct (cp_R _ _ _). Qed.

Lemma keeps_remote_add_constructs (cs : list Construct) :
  preserves same_remote (add_constructs cs).
Proof.
  induction cs as [|c cs IH]; cbn [add_constructs]; preserves_steps.
  apply keeps_remote_add_construct.
Qed.

Lemma keeps_remote_zip_directory (o : Outside) (p : path) :
  preserves same_remote (zip_directory o p).
Proof. unfold zip_directory. preserves_steps; apply keeps_remote_modify_fs. Qed.

Lemma keeps_remote_cleanup_zip_directory (p : path) :
  preserves same_remote (cleanup_zip_directory p).
Proof. unfold cleanup_zip_directory. preserves_steps. apply keeps_remote_modify_fs. Qed.

Lemma keeps_remote_cleanup_pipeline_directory (p : path) :
  preserves same_remote (cleanup_pipeline_directory p).
Proof. unfold cleanup_pipeline_directory. preserves_steps. apply keeps_remote_modify_fs. Qed.

Lemma keeps_remote_bootstrap_repository (o : Outside) (pipeline : DataPipeline.t)
    (pipeline_environment : Environment.t) (development_environments : list DPE) :
  preserves same_remote
    (bootstrap_repository o pipeline pipeline_environment development_environments).
Proof.
  unfold bootstrap_repository, initialize_repo, write_deploy_buildspec,
    write_ddk_json_multienvironment.
  preserves_steps;
    first [ apply keeps_remote_run_cmd_init | apply keeps_remote_write_new
          | apply keeps_remote_write_over | apply keeps_remote_cleanup_zip_directory
          | apply keeps_remote_zip_directory | apply keeps_remote_add_construct ].
Qed.

Lemma keeps_remote_synthesize_topology (pipeline : DataPipeline.t)
    (development_environments : list DPE) :
  preserves same_remote (synthesize_topology pipeline development_environments).
Proof.
  unfold synthesize_topology, outputs.
  preserves_steps;
    try first [ apply keeps_remote_add_constructs | apply keeps_remote_add_construct ].
  destruct (codepipeline_pipeline _); preserves_steps. apply keeps_remote_add_construct.
Qed.

Lemma keeps_remote_postprocess (o : Outside) : preserves same_remote (postprocess o).
Proof. unfold postprocess. destruct (postprocess_fault o); preserves_steps. Qed.

Lemma keeps_remote_set_env_vars (o : Outside) (e : Environment.t) :
  preserves same_remote (_set_env_vars o e).
Proof. unfold _set_env_vars. destruct (session_fault o); preserves_steps. Qed.

Lemma check_repository_keeps_world (o : Outside) (repo_name : string) (w : World) :
  (_check_repository o repo_name w).1 = w.
Proof.
  unfold _check_repository, try_except, get_repository, mbind, M_bind, mret, M_ret, raise.
  destruct (probe_fault o) as [e|].
  - destruct e; try done. cbn [fst snd]. by destruct (String.eqb _ _).
  - by destruct (remote w !! repo_name).
Qed.

Lemma touches_only_run_update_cmds (o : Outside) (pipeline : DataPipeline.t) (d : path) :
  preserves (same_remote_but (DataPipeline.repo pipeline)) (run_update_cmds o pipeline d).
Proof.
  intros w. unfold run_update_cmds.
  destruct (remote w !! DataPipeline.repo pipeline) as [r|] eqn:Hr; [| done].
  destruct (resolve _ (fs w)) as [[content|]|]; try done.
  destruct (CodeCommit.put_file _ _ _ _) as [r2 answer]. split; cbn [fst remote].
  - intros other Ho. by rewrite lookup_insert_ne.
  - intros Hn. congruence.
Qed.

Lemma touches_only_update_repository (o : Outside) (pipeline : DataPipeline.t)
    (pipeline_environment : Environment.t) (development_environments : list DPE) :
  preserves (same_remote_but (DataPipeline.repo pipeline))
    (update_repository o pipeline pipeline_environment development_environments).
Proof.
  unfold update_repository, write_ddk_json_multienvironment.
  apply preserves_bind; [typeclasses eauto | apply same_remote_weaken, keeps_remote_set_env_vars | intros _].
  apply preserves_bind; [typeclasses eauto | |].
  { intros w. rewrite check_repository_keeps_world. reflexivity. }
  intros [md|]; preserves_steps.
  - apply same_remote_weaken, keeps_remote_write_over.
  - apply touches_only_run_update_cmds.
Qed.

(** The constructor writes to no repository but the pipeline's own, and does
    not write to that one when it is absent. *)
Lemma touches_only_init (o : Outside) (pipeline : DataPipeline.t)
    (pipeline_environment : Environment.t) (development_environments : list DPE) :
  preserves (same_remote_but (DataPipeline.repo pipeline))
    (__init__ o pipeline pipeline_environment development_environments).
Proof.
  unfold __init__. preserves_steps;
    try first [ apply touches_only_update_repository
              | apply same_remote_weaken;
                first [ apply keeps_remote_add_construct
                      | apply keeps_remote_bootstrap_repository
                      | apply keeps_remote_synthesize_topology
                      | apply keeps_remote_postprocess
                      | apply keeps_remote_cleanup_zip_directory
                      | apply keeps_remote_cleanup_pipeline_directory ] ].
Qed.
End KeepsRemote.

Section RemoteWrites.
Import PipelineStack.

(** X6: the constructor writes to no repository of the service but the one
    named by the pipeline. *)
Theorem run_writes_to_no_other_repository (o : Outside) (pipeline : DataPipeline.t)
    (pipeline_environment : Environment.t) (development_environments : list DPE)
    (w : World) (other : string) :
  other <> DataPipeline.repo pipeline ->
  remote (__init__ o pipeline pipeline_environment development_environments w).1 !! other
    = remote w !! other.
Proof.
  intros Ho.
  by apply (touches_only_init o pipeline pipeline_environment development_environments w).
Qed.

Lemma run_writes_to_no_other_repository_witness :
  remote (__init__ Sample.quiet (Sample.pipeline "trunk") Sample.cicd
            [Sample.env "dev" 1; Sample.env "prod" 2] Sample.provisioned).1 !! "billing-repo"
    = remote Sample.provisioned !! "billing-repo".
Proof.
  apply (run_writes_to_no_other_repository Sample.quiet (Sample.pipeline "trunk") Sample.cicd
           [Sample.env "dev" 1; Sample.env "prod" 2] Sample.provisioned "billing-repo").
  discriminate.
Defined.

(** X7: when the service has no repository of the pipeline's name, the
    constructor leaves the service as it is, whatever else happens: the
    repository is created by the [CfnRepository] construct, not by a call. *)
Theorem absent_repository_is_not_written (o : Outside) (pipeline : DataPipeline.t)
    (pipeline_environment : Environment.t) (development_environments : list DPE)
    (w : World) :
  remote w !! DataPipeline.repo pipeline = None ->
  remote (__init__ o pipeline pipeline_environment development_environments w).1 = remote w.
Proof.
  intros Hn.
  destruct (touches_only_init o pipeline pipeline_environment development_environments w)
    as [Hother Hrepo].
  apply map_eq. intros k. destruct (decide (k = DataPipeline.repo pipeline)) as [-> | Hk].
  - by rewrite Hrepo, Hn.
  - by apply Hother.
Qed.

Lemma absent_repository_is_not_written_witness :
  remote (__init__ Sample.denied (Sample.pipeline "gitflow") Sample.cicd
            [Sample.env "dev" 1; Sample.env "prod" 2] Sample.fresh).1
    = remote Sample.fresh.
Proof.
  apply (absent_repository_is_not_written Sample.denied (Sample.pipeline "gitflow")
           Sample.cicd [Sample.env "dev" 1; Sample.env "prod" 2] Sample.fresh).
  reflexivity.
Defined.

Lemma isdir_below (p : path) (x : string) (m : gmap path node) :
  p <> [] -> isdir p m = false -> isdir (p ++ [x]) m = false.
Proof.
  intros Hp Hd. unfold isdir in *.
  destruct (resolve (p ++ [x]) m) as [[|]|] eqn:R; try done.
  by rewrite (resolve_below p x m Dir Hp R) in Hd.
Qed.

(** Without the directory that [ddk init] should have made, the commands of
    [initialize_repo] change nothing. *)
Lemma run_cmd_init_without_scaffold (o : Outside) (pipeline : DataPipeline.t) (w : World) :
  ddk_init o = None ->
  isdir (code_dir_path </> [DataPipeline.repo pipeline]) (fs w) = false ->
  (run_cmd_init o pipeline code_dir_path w).1 = w.
Proof.
  intros Hinit Hdir. unfold run_cmd_init, run_ddk_init. rewrite Hinit.
  set (target := code_dir_path </> [DataPipeline.repo pipeline]) in *.
  assert (Ht : target <> []) by done.
  assert (E2 : cp (code_dir_path </> ["app_multiaccount.py"]) (target </> ["app.py"]) (fs w)
               = fs w).
  { unfold cp. destruct (resolve _ (fs w)) as [[c|]|]; try done.
    by rewrite parent_snoc, Hdir. }
  rewrite E2.
  assert (E3 : cp (code_dir_path </> ["ddk_app"; "ddk_app_stack_multiaccount.py"])
                  (target </> ["ddk_app"; "ddk_app_stack.py"]) (fs w) = fs w).
  { unfold cp. destruct (resolve _ (fs w)) as [[c|]|]; try done.
    change (target </> ["ddk_app"; "ddk_app_stack.py"])
      with ((target </> ["ddk_app"]) </> ["ddk_app_stack.py"]).
    by rewrite parent_snoc, (isdir_below target "ddk_app"). }
  rewrite E3.
  assert (E4 : mkdir (target </> ["utils"]) (fs w) = fs w).
  { unfold mkdir. by rewrite parent_snoc, Hdir. }
  rewrite E4. unfold cp_R.
  rewrite (isdir_below target "utils") by done.
  destruct (copies_below _ _ _); by destruct w.
Qed.

(** X8: [initialize_repo] does not look at what became of its commands.  When
    [ddk init] generates nothing and the directory is not there, the
    bootstrap goes on and fails one step later, in [write_deploy_buildspec],
    with the disk, the service and the stack as they were. *)
Theorem bootstrap_without_scaffold_raises (o : Outside) (pipeline : DataPipeline.t)
    (pipeline_environment : Environment.t) (development_environments : list DPE)
    (w : World) :
  ddk_init o = None ->
  isdir (code_dir_path </> [DataPipeline.repo pipeline]) (fs w) = false ->
  bootstrap_repository o pipeline pipeline_environment development_environments w
    = (w, Raise (FileNotFoundError
                   (code_dir_path </> [DataPipeline.repo pipeline; "deploy_buildspec.yaml"]))).
Proof.
  intros Hinit Hdir. unfold bootstrap_repository, initialize_repo, mbind, M_bind.
  pose proof (run_cmd_init_without_scaffold o pipeline w Hinit Hdir) as Hw.
  destruct (run_cmd_init o pipeline code_dir_path w) as [w1 [process|e]] eqn:E.
  - cbn [fst] in Hw. subst w1.
    assert (Hdir' : isdir (parent (code_dir_path </> [DataPipeline.repo pipeline;
                                                       "deploy_buildspec.yaml"])) (fs w)
                    = false) by exact Hdir.
    destruct (returncode process =? 0)%Z; unfold mret, M_ret;
      unfold write_deploy_buildspec, write_new; by rewrite Hdir'.
  - unfold run_cmd_init in E. by destruct (cp_R _ _ _).
Qed.

Lemma bootstrap_without_scaffold_raises_witness :
  let o := mkOutside None None None false None None None ["srv"] in
  bootstrap_repository o (Sample.pipeline "trunk") Sample.cicd [Sample.env "dev" 1] Sample.fresh
    = (Sample.fresh,
       Raise (FileNotFoundError
                (code_dir_path </> [DataPipeline.repo (Sample.pipeline "trunk");
                                    "deploy_buildspec.yaml"]))).
Proof.
  apply (bootstrap_without_scaffold_raises
           (mkOutside None None None false None None None ["srv"])
           (Sample.pipeline "trunk") Sample.cicd [Sample.env "dev" 1] Sample.fresh);
    vm_compute; reflexivity.
Defined.
End RemoteWrites.

(** ** The update path *)

#[local] Instance keeps_entry_refl (p : path) : Reflexive (keeps_entry p).
Proof. by intros w n. Qed.
#[local] Instance keeps_entry_trans (p : path) : Transitive (keeps_entry p).
Proof. intros w1 w2 w3 H1 H2 n Hn. by apply H2, H1. Qed.

Lemma same_disk_weaken {A} (p : path) (m : M A) :
  preserves same_disk m -> preserves (keeps_entry p) m.
Proof. intros Hm w n. by rewrite (Hm w). Qed.

Lemma bind_ok {A B} (m : M A) (f : A -> M B) (w w1 : World) (a : A) :
  m w = (w1, Ok a) -> (m ≫= f) w = f a w1.
Proof. intros H. unfold mbind, M_bind. by rewrite H. Qed.

Section UpdatePath.
Import PipelineStack.

Lemma keeps_disk_add_construct (c : Construct) : preserves same_disk (add_construct c).
Proof. by intros w. Qed.

Lemma keeps_disk_add_constructs (cs : list Construct) :
  preserves same_disk (add_constructs cs).
Proof.
  induction cs as [|c cs IH]; cbn [add_constructs]; preserves_steps.
  apply keeps_disk_add_construct.
Qed.

Lemma keeps_disk_synthesize_topology (pipeline : DataPipeline.t)
    (development_environments : list DPE) :
  preserves same_disk (synthesize_topology pipeline development_environments).
Proof.
  unfold synthesize_topology, outputs.
  preserves_steps;
    try first [ apply keeps_disk_add_constructs | apply keeps_disk_add_construct ].
  destruct (codepipeline_pipeline _); preserves_steps. apply keeps_disk_add_construct.
Qed.

Lemma keeps_disk_postprocess (o : Outside) : preserves same_disk (postprocess o).
Proof. unfold postprocess. destruct (postprocess_fault o); preserves_steps. Qed.

Lemma keeps_entry_cleanup_zip_directory (d p : path) :
  is_prefix (d </> ["code.zip"]) p = false ->
  preserves (keeps_entry p) (cleanup_zip_directory d).
Proof.
  intros Hp. unfold cleanup_zip_directory. preserves_steps.
  intros w n. unfold modify_fs, remove. cbn [fst fs]. by rewrite resolve_delete_other.
Qed.

Lemma keeps_entry_cleanup_pipeline_directory (d p : path) :
  is_prefix d p = false ->
  preserves (keeps_entry p) (cleanup_pipeline_directory d).
Proof.
  intros Hp. unfold cleanup_pipeline_directory. preserves_steps.
  intros w n. unfold modify_fs. cbn [fst fs]. by rewrite resolve_rmtree_other.
Qed.

(** When the session and the probe answer and the repository is there, the
    update writes the descriptor and runs its script, and returns. *)
Lemma update_repository_ok (o : Outside) (pipeline : DataPipeline.t)
    (pipeline_environment : Environment.t) (development_environments : list DPE)
    (w : World) (r : CodeCommit.Repository) :
  session_fault o = None -> probe_fault o = None ->
  remote w !! DataPipeline.repo pipeline = Some r ->
  isdir code_dir_path (fs w) = true ->
  isdir (code_dir_path </> ["ddk.json"]) (fs w) = false ->
  let content := py_print (ddk_json pipeline_environment development_environments) in
  let r1 := if racing_commit o then CodeCommit.advance r else r in
  update_repository o pipeline pipeline_environment development_environments w
    = (mkWorld (<[code_dir_path </> ["ddk.json"] := File content]> (fs w))
               (<[DataPipeline.repo pipeline :=
                    (CodeCommit.put_file r1 "ddk.json" content (CodeCommit.tip r)).1]>
                  (remote w))
               (constructs w),
       Ok tt).
Proof.
  intros Hs Hf Hr Hd Hj content r1.
  unfold update_repository, _set_env_vars. rewrite Hs.
  erewrite bind_ok by reflexivity.
  erewrite bind_ok by (eapply check_repository_present; eassumption).
  unfold write_ddk_json_multienvironment.
  assert (Hw : write_over (code_dir_path </> ["ddk.json"])
                 (ddk_json pipeline_environment development_environments) w
               = (mkWorld (<[code_dir_path </> ["ddk.json"] := File content]> (fs w))
                          (remote w) (constructs w), Ok tt)).
  { unfold write_over, modify_fs.
    change (parent (code_dir_path </> ["ddk.json"])) with code_dir_path.
    by rewrite Hd, Hj. }
  erewrite bind_ok by exact Hw.
  unfold run_update_cmds, mbind, M_bind. cbn [remote fs constructs]. rewrite Hr.
  rewrite resolve_insert_eq; [| done | exact Hd].
  fold r1. by destruct (CodeCommit.put_file r1 "ddk.json" content (CodeCommit.tip r)).
Qed.

(** X9: with no racing writer the commit is accepted: the repository gets the
    text that was just written to [ddk.json] in the blueprint directory, and
    its tip moves by one. *)
Theorem update_commits_the_rendered_descriptor (o : Outside) (pipeline : DataPipeline.t)
    (pipeline_environment : Environment.t) (development_environments : list DPE)
    (w : World) (r : CodeCommit.Repository) :
  session_fault o = None -> probe_fault o = None -> racing_commit o = false ->
  remote w !! DataPipeline.repo pipeline = Some r ->
  isdir code_dir_path (fs w) = true ->
  isdir (code_dir_path </> ["ddk.json"]) (fs w) = false ->
  let run := update_repository o pipeline pipeline_environment development_environments w in
  let content := py_print (ddk_json pipeline_environment development_environments) in
  run.2 = Ok tt
  /\ fs run.1 !! (code_dir_path </> ["ddk.json"]) = Some (File content)
  /\ remote run.1 !! DataPipeline.repo pipeline
     = Some (CodeCommit.mk (S (CodeCommit.tip r))
               (<["ddk.json" := content]> (CodeCommit.files r))).
Proof.
  intros Hs Hf Hrace Hr Hd Hj run content. unfold run.
  rewrite (update_repository_ok o pipeline _ _ w r Hs Hf Hr Hd Hj). rewrite Hrace.
  cbn [fst snd fs remote]. split; [done |]. split; [apply lookup_insert_eq |].
  rewrite lookup_insert_eq. unfold CodeCommit.put_file. by rewrite decide_True.
Qed.

Lemma update_commits_the_rendered_descriptor_witness :
  let envs := [Sample.env "dev" 1; Sample.env "prod" 2] in
  let run := update_repository Sample.quiet (Sample.pipeline "trunk") Sample.cicd envs
               Sample.provisioned in
  let content := py_print (ddk_json Sample.cicd envs) in
  run.2 = Ok tt
  /\ fs run.1 !! (code_dir_path </> ["ddk.json"]) = Some (File content)
  /\ remote run.1 !! DataPipeline.repo (Sample.pipeline "trunk")
     = Some (CodeCommit.mk (S (CodeCommit.tip (CodeCommit.mk 7 ∅)))
               (<["ddk.json" := content]> (CodeCommit.files (CodeCommit.mk 7 ∅)))).
Proof.
  apply (update_commits_the_rendered_descriptor Sample.quiet (Sample.pipeline "trunk")
           Sample.cicd [Sample.env "dev" 1; Sample.env "prod" 2] Sample.provisioned
           (CodeCommit.mk 7 ∅)); vm_compute; reflexivity.
Defined.

(** X10: the clean-up at the end of the constructor does not take away the
    [ddk.json] that the update path wrote into the blueprint directory. *)
Theorem update_run_leaves_the_descriptor (o : Outside) (pipeline : DataPipeline.t)
    (pipeline_environment : Environment.t) (development_environments : list DPE)
    (w : World) (r : CodeCommit.Repository) :
  session_fault o = None -> probe_fault o = None ->
  remote w !! DataPipeline.repo pipeline = Some r ->
  isdir code_dir_path (fs w) = true ->
  isdir (code_dir_path </> ["ddk.json"]) (fs w) = false ->
  DataPipeline.repo pipeline <> "ddk.json" ->
  let run := __init__ o pipeline pipeline_environment development_environments w in
  isfile (code_dir_path </> ["ddk.json"]) (fs run.1) = true.
Proof.
  intros Hs Hf Hr Hd Hj Hrepo run. unfold run, __init__.
  do 3 (erewrite bind_ok by reflexivity). cbn [fs remote constructs].
  set (w3 := mkWorld (fs w) (remote w) _).
  erewrite bind_ok.
  2:{ unfold try_except.
      rewrite (update_repository_ok o pipeline _ _ w3 r Hs Hf Hr Hd Hj). reflexivity. }
  set (w4 := mkWorld _ _ _).
  set (p := code_dir_path </> ["ddk.json"]).
  assert (Hfile : resolve p (fs w4)
                  = Some (File (py_print (ddk_json pipeline_environment
                                            development_environments)))).
  { unfold w4. cbn [fs]. by apply resolve_insert_eq. }
  match goal with |- context [(?k w4).1] => set (rest := k) end.
  assert (Hkeep : preserves (keeps_entry p) rest).
  { unfold rest. preserves_steps.
    - apply same_disk_weaken, keeps_disk_synthesize_topology.
    - apply same_disk_weaken, keeps_disk_postprocess.
    - apply keeps_entry_cleanup_zip_directory. unfold p. vm_compute. reflexivity.
    - apply keeps_entry_cleanup_pipeline_directory. unfold p.
      rewrite is_prefix_app_both. simpl. by rewrite bool_decide_eq_false_2. }
  unfold isfile. by rewrite (Hkeep w4 _ Hfile).
Qed.
End UpdatePath.

Lemma update_run_leaves_the_descriptor_witness :
  isfile (PipelineStack.code_dir_path </> ["ddk.json"])
    (fs (PipelineStack.__init__ Sample.quiet (Sample.pipeline "trunk") Sample.cicd
           [Sample.env "dev" 1; Sample.env "prod" 2] Sample.provisioned).1) = true.
Proof.
  apply (update_run_leaves_the_descriptor Sample.quiet (Sample.pipeline "trunk") Sample.cicd
           [Sample.env "dev" 1; Sample.env "prod" 2] Sample.provisioned (CodeCommit.mk 7 ∅));
    try (vm_compute; reflexivity).
  discriminate.
Defined.

(** ** Bootstrap or update *)

#[local] Instance same_bootstrapped_refl : Reflexive same_bootstrapped.
Proof. by intros w. Qed.
#[local] Instance same_bootstrapped_trans : Transitive same_bootstrapped.
Proof. unfold same_bootstrapped. intros w1 w2 w3 H1 H2. congruence. Qed.

Lemma bind_ok_inv {A B} (m : M A) (f : A -> M B) (w : World) :
  is_ok ((m ≫= f) w).2 = true ->
  exists w1 a, m w = (w1, Ok a) /\ (m ≫= f) w = f a w1.
Proof.
  unfold mbind, M_bind. destruct (m w) as [w1 [a|e]]; [| discriminate].
  intros _. by exists w1, a.
Qed.

Section BootstrapOrUpdate.
Import PipelineStack.

Lemma bootstrapped_add_construct (c : Construct) (w : World) :
  bootstrapped (add_construct c w).1 = bootstrapped w || is_repository c.
Proof.
  unfold bootstrapped, add_construct. cbn [fst constructs].
  rewrite existsb_app. simpl. by rewrite orb_false_r.
Qed.

Lemma no_repository_add_construct (c : Construct) :
  is_repository c = false -> preserves same_bootstrapped (add_construct c).
Proof.
  intros Hc w. unfold same_bootstrapped.
  by rewrite bootstrapped_add_construct, Hc, orb_false_r.
Qed.

Lemma no_repository_add_constructs (cs : list Construct) :
  forallb (fun c => negb (is_repository c)) cs = true ->
  preserves same_bootstrapped (add_constructs cs).
Proof.
  induction cs as [|c cs IH]; cbn [add_constructs forallb]; [intros _; preserves_steps |].
  intros [Hc Hcs]%andb_true_iff. preserves_steps; [| by apply IH].
  apply no_repository_add_construct. by apply negb_true_iff.
Qed.

Lemma no_repository_modify_fs (f : gmap path node -> gmap path node) :
  preserves same_bootstrapped (modify_fs f).
Proof. by intros w. Qed.

(** What comes after the repository in the constructor adds no repository. *)
Lemma no_repository_after (o : Outside) (pipeline : DataPipeline.t)
    (development_environments : list DPE) :
  preserves same_bootstrapped
    (t ← synthesize_topology pipeline development_environments;
     postprocess o;;
     cleanup_zip_directory code_dir_path;;
     cleanup_pipeline_directory (code_dir_path </> [DataPipeline.repo pipeline]);;
     mret t).
Proof.
  unfold synthesize_topology, outputs, postprocess, cleanup_zip_directory,
    cleanup_pipeline_directory.
  preserves_steps;
    try first [ apply no_repository_modify_fs
              | by apply no_repository_add_construct
              | apply no_repository_add_constructs;
                match goal with |- forallb _ (List.map _ ?l) = true =>
                  by induction l end ].
  - destruct (codepipeline_pipeline _); preserves_steps.
    by apply no_repository_add_construct.
  - destruct (postprocess_fault o); preserves_steps.
Qed.

(** X11: when the session and the probe answer, the repository is there and
    the descriptor can be written, the constructor takes the update path: it
    adds no repository construct. *)
Theorem present_repository_is_not_bootstrapped (o : Outside) (pipeline : DataPipeline.t)
    (pipeline_environment : Environment.t) (development_environments : list DPE)
    (w : World) (r : CodeCommit.Repository) :
  session_fault o = None -> probe_fault o = None ->
  remote w !! DataPipeline.repo pipeline = Some r ->
  isdir code_dir_path (fs w) = true ->
  isdir (code_dir_path </> ["ddk.json"]) (fs w) = false ->
  bootstrapped (__init__ o pipeline pipeline_environment development_environments w).1
    = bootstrapped w.
Proof.
  intros Hs Hf Hr Hd Hj. unfold __init__.
  do 3 (erewrite bind_ok by reflexivity). cbn [fs remote constructs].
  set (w3 := mkWorld (fs w) (remote w) _).
  erewrite bind_ok.
  2:{ unfold try_except.
      rewrite (update_repository_ok o pipeline _ _ w3 r Hs Hf Hr Hd Hj). reflexivity. }
  rewrite (no_repository_after o pipeline development_environments _).
  subst w3. unfold bootstrapped. cbn [constructs]. rewrite !existsb_app. simpl.
  by rewrite !orb_false_r.
Qed.

Lemma present_repository_is_not_bootstrapped_witness :
  bootstrapped (__init__ Sample.racing (Sample.pipeline "gitflow") Sample.cicd
                  [Sample.env "dev" 1; Sample.env "prod" 2] Sample.provisioned).1
    = bootstrapped Sample.provisioned.
Proof.
  apply (present_repository_is_not_bootstrapped Sample.racing (Sample.pipeline "gitflow")
           Sample.cicd [Sample.env "dev" 1; Sample.env "prod" 2] Sample.provisioned
           (CodeCommit.mk 7 ∅)); vm_compute; reflexivity.
Defined.

(** Without a repository of that name on the service the body of the [try]
    raises, and leaves the world as it was. *)
Lemma update_repository_absent (o : Outside) (pipeline : DataPipeline.t)
    (pipeline_environment : Environment.t) (development_environments : list DPE)
    (w : World) :
  remote w !! DataPipeline.repo pipeline = None ->
  exists e,
    update_repository o pipeline pipeline_environment development_environments w
      = (w, Raise e).
Proof.
  intros Hr.
  unfold update_repository, _set_env_vars, _check_repository, get_repository, try_except,
    mbind, M_bind, mret, M_ret, raise.
  destruct (session_fault o) as [e|]; [by exists e |].
  destruct (probe_fault o) as [e|].
  - destruct e as [code| | | | | |]; try by eexists.
    destruct (String.eqb code _); by eexists.
  - rewrite Hr. by eexists.
Qed.

(** A bootstrap that returns has added the repository construct. *)
Lemma bootstrap_repository_adds_repository (o : Outside) (pipeline : DataPipeline.t)
    (pipeline_environment : Environment.t) (development_environments : list DPE)
    (w : World) :
  let run := bootstrap_repository o pipeline pipeline_environment
               development_environments w in
  is_ok run.2 = true -> bootstrapped run.1 = true.
Proof.
  intros run. unfold run, bootstrap_repository. intros Hok.
  repeat (apply bind_ok_inv in Hok as Hstep; destruct Hstep as (? & [] & _ & E);
          rewrite E in Hok |- *; clear E).
  rewrite bootstrapped_add_construct. apply orb_true_r.
Qed.

(** X12: when the service has no repository of the pipeline's name, a run that
    returns has bootstrapped it, whether the probe said so or failed. *)
Theorem absent_repository_is_bootstrapped (o : Outside) (pipeline : DataPipeline.t)
    (pipeline_environment : Environment.t) (development_environments : list DPE)
    (w : World) :
  remote w !! DataPipeline.repo pipeline = None ->
  let run := __init__ o pipeline pipeline_environment development_environments w in
  is_ok run.2 = true -> bootstrapped run.1 = true.
Proof.
  intros Hr run. unfold run, __init__.
  do 3 (erewrite bind_ok by reflexivity). cbn [fs remote constructs].
  set (w3 := mkWorld (fs w) (remote w) _).
  destruct (update_repository_absent o pipeline pipeline_environment
              development_environments w3 Hr) as [e He].
  intros Hok. apply bind_ok_inv in Hok as Hstep. destruct Hstep as (w4 & [] & Htry & E).
  rewrite E. clear E Hok.
  rewrite (no_repository_after o pipeline development_environments w4).
  unfold try_except in Htry. rewrite He in Htry.
  pose proof (bootstrap_repository_adds_repository o pipeline pipeline_environment
                development_environments w3) as Hb.
  cbv zeta in Hb. rewrite Htry in Hb. by apply Hb.
Qed.

Lemma absent_repository_is_bootstrapped_witness :
  bootstrapped (__init__ Sample.quiet (Sample.pipeline "trunk") Sample.cicd
                  [Sample.env "dev" 1; Sample.env "prod" 2] Sample.fresh).1 = true.
Proof.
  apply (absent_repository_is_bootstrapped Sample.quiet (Sample.pipeline "trunk") Sample.cicd
           [Sample.env "dev" 1; Sample.env "prod" 2] Sample.fresh);
    vm_compute; reflexivity.
Defined.
End BootstrapOrUpdate.

(** ** The order of deployment *)

Section Sorting.
Import PipelineStack.

Lemma insert_by_order_perm (env : DPE) (l : list DPE) :
  Permutation (insert_by_order env l) (env :: l).
Proof.
  induction l as [|y l IH]; [done |]. simpl.
  destruct (DataPipelineEnvironment.order env <=? DataPipelineEnvironment.order y)%Z; [done |].
  rewrite IH. apply perm_swap.
Qed.

Lemma sorted_perm (l : list DPE) : Permutation (sorted l) l.
Proof.
  induction l as [|x l IH]; [done |]. unfold sorted in *. simpl.
  by rewrite insert_by_order_perm, IH.
Qed.

Lemma insert_by_order_sorted (env : DPE) (l : list DPE) :
  StronglySorted order_le l -> StronglySorted order_le (insert_by_order env l).
Proof.
  induction 1 as [|y l Hl IH Hy]; simpl.
  - repeat constructor.
  - destruct (Z.leb_spec (DataPipelineEnvironment.order env)
                (DataPipelineEnvironment.order y)) as [Hle | Hgt].
    + constructor; [by constructor |]. constructor; [exact Hle |].
      eapply List.Forall_impl; [| exact Hy]. unfold order_le. intros a Ha. lia.
    + constructor; [exact IH |].
      apply Forall_forall. intros a Ha.
      rewrite (insert_by_order_perm env l) in Ha.
      apply elem_of_cons in Ha as [-> | Ha]; [unfold order_le; lia |].
      rewrite Forall_forall in Hy. by apply Hy.
Qed.

Lemma sorted_sorted (l : list DPE) : StronglySorted order_le (sorted l).
Proof.
  induction l as [|x l IH]; [constructor |]. by apply insert_by_order_sorted.
Qed.

(** Environments of the same order keep their places: the sort is stable. *)
Lemma insert_by_order_filter (c : Z) (env : DPE) (l : list DPE) :
  StronglySorted order_le l ->
  List.filter (fun e => (DataPipelineEnvironment.order e =? c)%Z) (insert_by_order env l)
    = List.filter (fun e => (DataPipelineEnvironment.order e =? c)%Z) (env :: l).
Proof.
  induction 1 as [|y l Hl IH Hy]; [done |]. cbn [insert_by_order].
  destruct (Z.leb_spec (DataPipelineEnvironment.order env)
              (DataPipelineEnvironment.order y)) as [Hle | Hgt]; [done |].
  cbn [List.filter] in *. rewrite IH.
  destruct (Z.eqb_spec (DataPipelineEnvironment.order env) c) as [He | He];
    destruct (Z.eqb_spec (DataPipelineEnvironment.order y) c) as [Hy' | Hy']; try done.
  lia.
Qed.

Lemma sorted_stable (c : Z) (l : list DPE) :
  List.filter (fun e => (DataPipelineEnvironment.order e =? c)%Z) (sorted l)
    = List.filter (fun e => (DataPipelineEnvironment.order e =? c)%Z) l.
Proof.
  induction l as [|x l IH]; [done |]. unfold sorted in *. cbn [fold_right].
  rewrite insert_by_order_filter by apply sorted_sorted.
  cbn [List.filter]. by rewrite IH.
Qed.

End Sorting.

Section TopologyShape.
Import PipelineStack.
Variable pipeline : DataPipeline.t.

Lemma built_projects_trunk_stages (n : Z) (l : list DPE) :
  flat_map (fun s => omap (fun a => match a with
                                    | CodeBuildAction _ project => Some project
                                    | _ => None
                                    end) (actions s))
           (flat_map (trunk_stages_of pipeline n) l)
  = List.map (fun env => DataPipeline.name pipeline +:+ "-build-"
                           +:+ DataPipelineEnvironment.stage env) l.
Proof.
  induction l as [|env l IH]; [done |].
  cbn [flat_map List.map]. rewrite flat_map_app, IH. unfold trunk_stages_of.
  by destruct (DataPipelineEnvironment.order env <? n)%Z.
Qed.

Lemma source_branches_trunk_stages (n : Z) (l : list DPE) :
  flat_map (fun s => omap (fun a => match a with
                                    | CodeCommitSourceAction _ branch _ => Some branch
                                    | _ => None
                                    end) (actions s))
           (flat_map (trunk_stages_of pipeline n) l)
  = [].
Proof.
  induction l as [|env l IH]; [done |].
  cbn [flat_map]. rewrite flat_map_app, IH. unfold trunk_stages_of.
  by destruct (DataPipelineEnvironment.order env <? n)%Z.
Qed.

Lemma trunk_projects (development_environments : list DPE) :
  projects (trunk pipeline development_environments)
  = List.map (build_project pipeline
                (List.map DataPipelineEnvironment.stage development_environments))
             (sorted development_environments).
Proof. unfold trunk. by rewrite trunk_fold. Qed.

Lemma gitflow_projects (development_environments : list DPE) :
  projects (gitflow pipeline development_environments)
  = List.map (build_project pipeline
                (List.map DataPipelineEnvironment.stage development_environments))
             development_environments.
Proof. unfold gitflow. by rewrite gitflow_fold. Qed.

Lemma topology_projects (development_environments : list DPE) :
  projects (topology pipeline development_environments)
  = List.map (build_project pipeline
                (List.map DataPipelineEnvironment.stage development_environments))
             (deployment_order pipeline development_environments).
Proof.
  unfold topology, deployment_order.
  destruct (String.eqb _ _); [apply trunk_projects | apply gitflow_projects].
Qed.

(** X13: under the trunk strategy there is one pipeline, fed from the branch
    [main]; it runs one build project for each environment, each environment
    once, in ascending order of [order], and environments of the same order
    in the order in which they were given. *)
Theorem trunk_deploys_in_ascending_order (development_environments : list DPE) :
  DataPipeline.devStrategy pipeline = "trunk" ->
  exists p deployed,
    pipelines (topology pipeline development_environments) = [p]
    /\ source_branches p = ["main"]
    /\ built_projects p
       = List.map (fun env => DataPipeline.name pipeline +:+ "-build-"
                                +:+ DataPipelineEnvironment.stage env) deployed
    /\ Permutation deployed development_environments
    /\ StronglySorted order_le deployed
    /\ forall c, List.filter (fun e => (DataPipelineEnvironment.order e =? c)%Z) deployed
                 = List.filter (fun e => (DataPipelineEnvironment.order e =? c)%Z)
                               development_environments.
Proof.
  intros Hs. unfold topology. rewrite Hs. cbn [String.eqb Ascii.eqb Bool.eqb].
  eexists _, (sorted development_environments).
  split; [apply (proj1 (trunk_pipeline pipeline development_environments)) |].
  unfold source_branches, built_projects. cbn [stages flat_map trunk_source actions omap].
  rewrite source_branches_trunk_stages, built_projects_trunk_stages.
  split; [done |]. split; [done |].
  split; [apply sorted_perm |]. split; [apply sorted_sorted |].
  intros c. apply sorted_stable.
Qed.

(** X14: under either strategy the build actions of the pipelines name exactly
    the build projects of the stack, one for each environment, in the order
    of deployment; the project of an environment is privileged, reads
    [deploy_buildspec.yaml], and is given the stage, account, region and team
    of its environment, and as [DEV_STAGES] the stages of all environments in
    the order in which they were given. *)
Theorem every_build_action_has_its_project (development_environments : list DPE) :
  let t := topology pipeline development_environments in
  flat_map built_projects (pipelines t) = List.map project_id (projects t)
  /\ Forall2
       (fun env project =>
          project_id project = DataPipeline.name pipeline +:+ "-build-"
                                 +:+ DataPipelineEnvironment.stage env
          /\ privileged project = true
          /\ build_spec project = "deploy_buildspec.yaml"
          /\ environment_variables project !! "STAGE"
             = Some (StrValue (DataPipelineEnvironment.stage env))
          /\ environment_variables project !! "AWSACCOUNTID"
             = Some (StrValue (DataPipelineEnvironment.AwsAccountId env))
          /\ environment_variables project !! "AWSREGION"
             = Some (StrValue (DataPipelineEnvironment.region env))
          /\ environment_variables project !! "ENVTEAM_ROLENAME"
             = Some (StrValue (DataPipelineEnvironment.samlGroupName env))
          /\ environment_variables project !! "DEV_STAGES"
             = Some (ListValue (List.map DataPipelineEnvironment.stage
                                  development_environments)))
       (deployment_order pipeline development_environments) (projects t).
Proof.
  intros t. split.
  - unfold t, topology.
    destruct (String.eqb (DataPipeline.devStrategy pipeline) "trunk").
    + rewrite trunk_projects, (proj1 (trunk_pipeline pipeline development_environments)).
      cbn [flat_map]. rewrite app_nil_r. unfold built_projects.
      cbn [stages flat_map trunk_source actions omap].
      rewrite built_projects_trunk_stages, List.map_map. done.
    + rewrite gitflow_projects, (proj1 (gitflow_pipelines pipeline development_environments)).
      rewrite List.map_map.
      induction development_environments as [|env l IH] at 1 3; [done |].
      cbn [flat_map List.map]. by rewrite IH.
  - unfold t. rewrite topology_projects.
    induction (deployment_order pipeline development_environments) as [|env l IH];
      cbn [List.map]; constructor; [| exact IH].
    unfold build_project, make_environment_variables.
    cbn [project_id privileged build_spec environment_variables].
    repeat split; by simplify_map_eq.
Qed.

End TopologyShape.

Lemma trunk_deploys_in_ascending_order_witness :
  exists p deployed,
    PipelineStack.pipelines
      (PipelineStack.topology (Sample.pipeline "trunk")
         [Sample.env "prod" 3; Sample.env "dev" 1; Sample.env "test" 2]) = [p]
    /\ source_branches p = ["main"]
    /\ built_projects p
       = List.map (fun env => DataPipeline.name (Sample.pipeline "trunk") +:+ "-build-"
                                +:+ DataPipelineEnvironment.stage env) deployed
    /\ Permutation deployed [Sample.env "prod" 3; Sample.env "dev" 1; Sample.env "test" 2]
    /\ StronglySorted order_le deployed
    /\ forall c, List.filter (fun e => (DataPipelineEnvironment.order e =? c)%Z) deployed
                 = List.filter (fun e => (DataPipelineEnvironment.order e =? c)%Z)
                               [Sample.env "prod" 3; Sample.env "dev" 1; Sample.env "test" 2].
Proof.
  apply (trunk_deploys_in_ascending_order (Sample.pipeline "trunk")
           [Sample.env "prod" 3; Sample.env "dev" 1; Sample.env "test" 2]).
  reflexivity.
Defined.

(** ** What synthesis adds to the stack *)

Section Outputs.
Import PipelineStack.

Lemma add_constructs_spec (cs : list Construct) (w : World) :
  add_constructs cs w = (mkWorld (fs w) (remote w) (constructs w ++ cs), Ok tt).
Proof.
  revert w. induction cs as [|c cs IH]; intros w; cbn [add_constructs].
  - rewrite app_nil_r. by destruct w.
  - unfold mbind, M_bind, add_construct. cbn [fst snd]. rewrite IH.
    cbn [fs remote constructs]. by rewrite <- app_assoc.
Qed.

Lemma topology_last_pipeline (pipeline : DataPipeline.t)
    (development_environments : list DPE) :
  codepipeline_pipeline (topology pipeline development_environments)
  = last (pipelines (topology pipeline development_environments)).
Proof.
  unfold topology. destruct (String.eqb _ _).
  - by rewrite (proj2 (trunk_pipeline pipeline development_environments)),
      (proj1 (trunk_pipeline pipeline development_environments)).
  - by rewrite (proj2 (gitflow_pipelines pipeline development_environments)),
      (proj1 (gitflow_pipelines pipeline development_environments)).
Qed.

(** X15: topology synthesis adds to the stack the build projects, then the
    pipelines, then the two outputs, and touches neither the disk nor the
    service.  The output [PipelineNameOutput] carries the name of the last
    pipeline built, so that under gitflow the pipelines of the environments
    before the last are not exported.  Synthesis raises, with
    [UnboundLocalError], exactly when no pipeline was built, which is when
    the strategy is not trunk and there is no environment. *)
Theorem pipeline_name_output_names_the_last_pipeline (pipeline : DataPipeline.t)
    (development_environments : list DPE) (w : World) :
  let t := topology pipeline development_environments in
  let run := synthesize_topology pipeline development_environments w in
  fs run.1 = fs w /\ remote run.1 = remote w
  /\ (forall p, last (pipelines t) = Some p ->
        run.2 = Ok t
        /\ constructs run.1
           = constructs w ++ List.map BuildProject (projects t)
               ++ List.map CodePipeline (pipelines t)
               ++ [CfnOutput "RepoNameOutput"
                     (DataPipeline.DataPipelineUri pipeline +:+ "-RepositoryName")
                     (DataPipeline.repo pipeline);
                   CfnOutput "PipelineNameOutput"
                     (DataPipeline.DataPipelineUri pipeline +:+ "-PipelineName")
                     (pipeline_name p)])
  /\ (last (pipelines t) = None ->
        run.2 = Raise (UnboundLocalError "codepipeline_pipeline"))
  /\ (last (pipelines t) = None <->
        DataPipeline.devStrategy pipeline <> "trunk" /\ development_environments = []).
Proof.
  intros t run. unfold run, synthesize_topology, outputs. fold t.
  unfold mbind, M_bind. rewrite !add_constructs_spec. cbn [fst snd fs remote constructs].
  unfold add_construct at 1. cbn [fst snd fs remote constructs].
  pose proof (topology_last_pipeline pipeline development_environments) as Hlast.
  fold t in Hlast. rewrite Hlast.
  destruct (last (pipelines t)) as [p|] eqn:E.
  - unfold add_construct, mret, M_ret. cbn [fst snd fs remote constructs].
    split; [done |]. split; [done |]. split.
    + intros p' [= <-]. split; [done |]. by rewrite <- !app_assoc.
    + split; [done |]. split; [done |]. intros [Hs ->].
      unfold t, topology in E. apply String.eqb_neq in Hs. rewrite Hs in E. discriminate.
  - unfold raise. cbn [fst snd fs remote constructs].
    split; [done |]. split; [done |]. split; [done |]. split; [done |].
    split; [intros _ | done].
    unfold t, topology in E.
    destruct (String.eqb_spec (DataPipeline.devStrategy pipeline) "trunk") as [Hs | Hs].
    + by rewrite (proj1 (trunk_pipeline pipeline development_environments)) in E.
    + split; [done |].
      rewrite (proj1 (gitflow_pipelines pipeline development_environments)) in E.
      apply last_None in E. by destruct development_environments.
Qed.

End Outputs.

(** ** The probe and the environment of the scripts *)

Section ProbeOutcomes.
Import PipelineStack.
Variables (o : Outside) (repo_name : string) (w : World).

(** X16: [_check_repository] has three outcomes and changes nothing.  It
    returns the answer of the service when the repository is there; it
    returns [None] exactly when the service says
    [RepositoryDoesNotExistException]; and it raises exactly what the
    service raised when that is anything else. *)
Theorem check_repository_outcomes :
  let run := _check_repository o repo_name w in
  let absent := ClientError "RepositoryDoesNotExistException" in
  run.1 = w
  /\ (forall repository, run.2 = Ok (Some repository) <->
        probe_fault o = None /\ is_Some (remote w !! repo_name)
        /\ repository = mkMetadata repo_name)
  /\ (run.2 = Ok None <->
        probe_fault o = Some absent
        \/ (probe_fault o = None /\ remote w !! repo_name = None))
  /\ (forall e, run.2 = Raise e <-> probe_fault o = Some e /\ e <> absent).
Proof.
  intros run absent. unfold run, absent. clear run absent.
  destruct (probe_fault o) as [e|] eqn:Hf.
  - assert (Hcases : e = ClientError "RepositoryDoesNotExistException"
                     \/ e <> ClientError "RepositoryDoesNotExistException").
    { destruct e as [code| | | | | |]; try (right; discriminate).
      destruct (String.eqb_spec code "RepositoryDoesNotExistException") as [-> | Hne];
        [by left | right; congruence]. }
    destruct Hcases as [-> | Hne].
    + assert (Hrun : _check_repository o repo_name w = (w, Ok None)).
      { unfold _check_repository, try_except, get_repository, mbind, M_bind.
        by rewrite Hf. }
      rewrite Hrun. cbn [fst snd]. split; [done |]. split; [| split].
      * intros repository. split; [done | by intros [? _]].
      * split; [by left | done].
      * intros e. split; [done | intros [[= <-] Hne]; done].
    + rewrite (check_repository_failed o repo_name w e Hf Hne). cbn [fst snd].
      split; [done |]. split; [| split].
      * intros repository. split; [done | by intros [? _]].
      * split; [done | intros [[= ->] | [? _]]; done].
      * intros e'. split; [intros [= <-]; done | intros [[= <-] _]; done].
  - destruct (remote w !! repo_name) as [r|] eqn:Hr.
    + rewrite (check_repository_present o repo_name w r Hf Hr). cbn [fst snd].
      split; [done |]. split; [| split].
      * intros repository. split; [intros [= <-]; done | intros (_ & _ & ->); done].
      * split; [done | intros [? | [_ ?]]; done].
      * intros e. split; [done | by intros [? _]].
    + rewrite (check_repository_absent o repo_name w Hf Hr). cbn [fst snd].
      split; [done |]. split; [| split].
      * intros repository. split; [done | intros (_ & [? ?] & _); done].
      * split; [by right | done].
      * intros e. split; [done | by intros [? _]].
Qed.

End ProbeOutcomes.

Section ScriptEnvironment.
Import PipelineStack.

(** X17: the environment that [_set_env_vars] builds for the update script has
    the two region variables, both with the region of the CI/CD environment,
    its account, and [envname], which is [local] when the process has none;
    the three credential variables are there all together, when the session
    has credentials, or not at all, and there is no other variable.  The
    call changes nothing, and raises only what the session raised. *)
Theorem set_env_vars_has_whole_credentials (o : Outside)
    (pipeline_environment : Environment.t) (w : World) :
  let run := _set_env_vars o pipeline_environment w in
  run.1 = w
  /\ (forall e, session_fault o = Some e -> run.2 = Raise e)
  /\ (session_fault o = None ->
      exists env : gmap string string,
        run.2 = Ok env
        /\ env !! "AWS_REGION" = Some (Environment.region pipeline_environment)
        /\ env !! "AWS_DEFAULT_REGION" = Some (Environment.region pipeline_environment)
        /\ env !! "CURRENT_AWS_ACCOUNT" = Some (Environment.AwsAccountId pipeline_environment)
        /\ env !! "envname" = Some (default "local" (envname o))
        /\ env !! "AWS_ACCESS_KEY_ID" = access_key <$> env_creds o
        /\ env !! "AWS_SECRET_ACCESS_KEY" = secret_key <$> env_creds o
        /\ env !! "AWS_SESSION_TOKEN" = token <$> env_creds o
        /\ forall k, is_Some (env !! k) ->
             k ∈ ["AWS_REGION"; "AWS_DEFAULT_REGION"; "CURRENT_AWS_ACCOUNT"; "envname";
                  "AWS_ACCESS_KEY_ID"; "AWS_SECRET_ACCESS_KEY"; "AWS_SESSION_TOKEN"]).
Proof.
  intros run. unfold run, _set_env_vars.
  destruct (session_fault o) as [e|]; cbn.
  - split; [done |]. split; [by intros ? [= <-] | done].
  - split; [done |]. split; [done |]. intros _. eexists. split; [done |].
    destruct (env_creds o) as [c|]; cbn.
    + repeat (split; [by simplify_map_eq |]).
      intros k [v Hk].
      repeat (apply lookup_insert_Some in Hk as [[<- _] | [_ Hk]];
              [rewrite !elem_of_cons; tauto |]).
      by rewrite lookup_empty in Hk.
    + repeat (split; [by simplify_map_eq |]).
      intros k [v Hk].
      repeat (apply lookup_insert_Some in Hk as [[<- _] | [_ Hk]];
              [rewrite !elem_of_cons; tauto |]).
      by rewrite lookup_empty in Hk.
Qed.

End ScriptEnvironment.

(** * Properties of the sharing task *)

(** ** The name of the shared database *)

Lemma string_app_inj_l (a b c : string) : a +:+ b = a +:+ c -> b = c.
Proof. induction a as [|x a IH]; simpl; [done |]. intros [= H]. by apply IH. Qed.

Lemma substring_0_app (n : nat) (a b : string) :
  (n <= String.length a)%nat -> String.substring 0 n (a +:+ b) = String.substring 0 n a.
Proof.
  revert a. induction n as [|n IH]; intros [|x a]; simpl; intros H; try done; try lia.
  - by destruct b.
  - rewrite IH; [done | lia].
Qed.

Section SharedDatabaseName.
Import DataSharingService.

(** X18: the name of the shared database has at most 254 characters; it is the
    beginning of the database name, [_shared_] and the share's uri put
    together, and the whole of it when that fits in 254 characters. *)
Theorem shared_db_name_at_most_254 (dataset : Dataset.t) (share : ShareObject.t) :
  let full := (Dataset.GlueDatabaseName dataset +:+ "_shared_")
              +:+ ShareObject.shareUri share in
  (String.length (build_shared_db_name dataset share) <= 254)%nat
  /\ String.prefix (build_shared_db_name dataset share) full = true
  /\ ((String.length full <= 254)%nat -> build_shared_db_name dataset share = full).
Proof.
  intros full. unfold build_shared_db_name, py_slice_to. fold full.
  split; [apply substring_0_length |]. split; [apply substring_0_prefix |].
  apply substring_0_all.
Qed.

(** X19: the docstring's [Unique per share Uri] holds as long as nothing is
    cut off: two shares of one dataset with different uris, whose full names
    fit in 254 characters, get different shared database names. *)
Theorem shared_db_name_unique_per_share (dataset : Dataset.t) (s1 s2 : ShareObject.t) :
  (String.length (Dataset.GlueDatabaseName dataset) + 8
     + String.length (ShareObject.shareUri s1) <= 254)%nat ->
  (String.length (Dataset.GlueDatabaseName dataset) + 8
     + String.length (ShareObject.shareUri s2) <= 254)%nat ->
  ShareObject.shareUri s1 <> ShareObject.shareUri s2 ->
  build_shared_db_name dataset s1 <> build_shared_db_name dataset s2.
Proof.
  intros H1 H2 Hne. unfold build_shared_db_name, py_slice_to.
  rewrite !substring_0_all by (rewrite !string_length_app; simpl; lia).
  intros E. by apply string_app_inj_l in E.
Qed.

(** X20: the name is not unique per share for a long database name: when the
    database name and [_shared_] already fill the 254 characters, the uri
    is cut off, and all the shares of the dataset get the same shared
    database name. *)
Theorem shared_db_name_of_long_database (dataset : Dataset.t) (s1 s2 : ShareObject.t) :
  (254 <= String.length (Dataset.GlueDatabaseName dataset) + 8)%nat ->
  build_shared_db_name dataset s1 = build_shared_db_name dataset s2.
Proof.
  intros H. unfold build_shared_db_name, py_slice_to.
  assert (Hlen : (254 <= String.length (Dataset.GlueDatabaseName dataset +:+ "_shared_"))%nat).
  { rewrite string_length_app. simpl. lia. }
  by rewrite (substring_0_app _ _ (ShareObject.shareUri s1) Hlen),
    (substring_0_app _ _ (ShareObject.shareUri s2) Hlen).
Qed.

End SharedDatabaseName.

Lemma shared_db_name_unique_per_share_witness :
  DataSharingService.build_shared_db_name Shares.sales Shares.first
    <> DataSharingService.build_shared_db_name Shares.sales Shares.second.
Proof.
  apply (shared_db_name_unique_per_share Shares.sales Shares.first Shares.second);
    [vm_compute; lia | vm_compute; lia | discriminate].
Defined.

Lemma shared_db_name_of_long_database_witness :
  DataSharingService.build_shared_db_name Shares.archive Shares.first
    = DataSharingService.build_shared_db_name Shares.archive Shares.second.
Proof.
  apply (shared_db_name_of_long_database Shares.archive Shares.first Shares.second).
  vm_compute. lia.
Defined.

(** ** One share *)

Lemma attempts_app (l1 l2 : list Call) : attempts (l1 ++ l2) = attempts l1 ++ attempts l2.
Proof. apply omap_app. Qed.

Lemma processors_app (l1 l2 : list Call) :
  processors (l1 ++ l2) = processors l1 ++ processors l2.
Proof. apply omap_app. Qed.

Lemma T_bind_ok {A B} (m : DataSharingService.T A) (f : A -> DataSharingService.T B)
    (log log' : list Call) (a : A) :
  m log = (log', Ok a) -> (m ≫= f) log = f a log'.
Proof. unfold mbind, DataSharingService.T_bind. by intros ->. Qed.

Lemma T_bind_raise {A B} (m : DataSharingService.T A) (f : A -> DataSharingService.T B)
    (log log' : list Call) (e : exn) :
  m log = (log', Raise e) -> (m ≫= f) log = (log', Raise e).
Proof. unfold mbind, DataSharingService.T_bind. by intros ->. Qed.

Section OneShare.
Import DataSharingService.
Variables (c : Collaborators) (share_uri : string) (log : list Call).

(** The calls of [approve_share]: the data, then the grant, then one
    processor, up to the first of them that raises. *)
Lemma approve_share_calls :
  let data := share_data c log in
  let asked := get_share_data share_uri [Approved] in
  let granted := grant_pivot_role_all_database_permissions
                   (Environment.AwsAccountId (source_environment data))
                   (Environment.region (source_environment data))
                   (Dataset.GlueDatabaseName (dataset data)) in
  let processor :=
    if String.eqb (Environment.AwsAccountId (source_environment data))
                  (Environment.AwsAccountId (target_environment data))
    then SameAccountShareApproval else CrossAccountShareApproval in
  let run := approve_share c share_uri log in
  (run.1 = log ++ [asked] /\ is_ok run.2 = false)
  \/ (run.1 = log ++ [asked; granted] /\ is_ok run.2 = false)
  \/ run.1 = log ++ [asked; granted;
                     run_processor processor
                       (build_shared_db_name (dataset data) (share data)) data].
Proof.
  intros data asked granted processor run.
  unfold run, approve_share, call, mbind, T_bind. cbn [fst snd]. fold asked data.
  destruct (fault c log asked); [by left |]. fold granted.
  destruct (fault c (log ++ [asked]) granted); [right; left; by rewrite <- app_assoc |].
  right; right. unfold processor.
  destruct (String.eqb _ _); cbn [negb fst]; by rewrite <- !app_assoc.
Qed.

Lemma reject_share_calls :
  let data := share_data c log in
  let asked := get_share_data share_uri [Rejected] in
  let granted := grant_pivot_role_all_database_permissions
                   (Environment.AwsAccountId (source_environment data))
                   (Environment.region (source_environment data))
                   (Dataset.GlueDatabaseName (dataset data)) in
  let processor :=
    if String.eqb (Environment.AwsAccountId (source_environment data))
                  (Environment.AwsAccountId (target_environment data))
    then SameAccountShareRevoke else CrossAccountShareRevoke in
  let run := reject_share c share_uri log in
  (run.1 = log ++ [asked] /\ is_ok run.2 = false)
  \/ (run.1 = log ++ [asked; granted] /\ is_ok run.2 = false)
  \/ run.1 = log ++ [asked; granted;
                     run_processor processor
                       (build_shared_db_name (dataset data) (share data)) data].
Proof.
  intros data asked granted processor run.
  unfold run, reject_share, call, mbind, T_bind. cbn [fst snd]. fold asked data.
  destruct (fault c log asked); [by left |]. fold granted.
  destruct (fault c (log ++ [asked]) granted); [right; left; by rewrite <- app_assoc |].
  right; right. unfold processor.
  destruct (String.eqb _ _); cbn [negb fst]; by rewrite <- !app_assoc.
Qed.

(** X21: [approve_share] and [reject_share] run at most one processor, and
    none unless the data of the share was read and the pivot role was granted
    the permissions on the dataset's database in the source account; the
    processor is of the approval kind for the one and of the revoke kind for
    the other, the cross-account one exactly when the accounts of the source
    and of the target environment differ, and it is given the shared
    database name built from the dataset and the share. *)
Theorem share_is_routed_by_account :
  let data := share_data c log in
  let cross := negb (String.eqb (Environment.AwsAccountId (source_environment data))
                                (Environment.AwsAccountId (target_environment data))) in
  let granted := grant_pivot_role_all_database_permissions
                   (Environment.AwsAccountId (source_environment data))
                   (Environment.region (source_environment data))
                   (Dataset.GlueDatabaseName (dataset data)) in
  let name := build_shared_db_name (dataset data) (share data) in
  let approved := approve_share c share_uri log in
  let rejected := reject_share c share_uri log in
  (exists calls, approved.1 = log ++ calls
     /\ (processors calls = [] /\ is_ok approved.2 = false
         \/ calls = [get_share_data share_uri [Approved]; granted;
                     run_processor (if cross then CrossAccountShareApproval
                                    else SameAccountShareApproval) name data]))
  /\ (exists calls, rejected.1 = log ++ calls
     /\ (processors calls = [] /\ is_ok rejected.2 = false
         \/ calls = [get_share_data share_uri [Rejected]; granted;
                     run_processor (if cross then CrossAccountShareRevoke
                                    else SameAccountShareRevoke) name data])).
Proof.
  intros data cross granted name approved rejected. split.
  - destruct approve_share_calls as [[E F] | [[E F] | E]]; fold approved in E |- *;
      eexists; (split; [exact E |]); [by left | by left | right].
    unfold cross. by destruct (String.eqb _ _).
  - destruct reject_share_calls as [[E F] | [[E F] | E]]; fold rejected in E |- *;
      eexists; (split; [exact E |]); [by left | by left | right].
    unfold cross. by destruct (String.eqb _ _).
Qed.

Lemma approve_share_attempts :
  attempts (approve_share c share_uri log).1 = attempts log ++ [(share_uri, [Approved])].
Proof.
  destruct approve_share_calls as [[E _] | [[E _] | E]]; rewrite E; by rewrite attempts_app.
Qed.

Lemma reject_share_attempts :
  attempts (reject_share c share_uri log).1 = attempts log ++ [(share_uri, [Rejected])].
Proof.
  destruct reject_share_calls as [[E _] | [[E _] | E]]; rewrite E; by rewrite attempts_app.
Qed.

End OneShare.

(** ** The refresh *)

Section Refresh.
Import DataSharingService.
Variable c : Collaborators.

(** The body of the loop returns, and has asked for the data of its share. *)
Lemma refresh_share_attempts (s : ShareObject.t) (log : list Call) :
  refreshed s = true ->
  (refresh_share c s log).2 = Ok tt
  /\ attempts (refresh_share c s log).1 = attempts log ++ [attempt_of s].
Proof.
  unfold refreshed, refresh_share, attempt_of, try_except. intros Hs.
  destruct (String.eqb (ShareObject.status s) "Approved").
  - pose proof (approve_share_attempts c (ShareObject.shareUri s) log) as Ha.
    unfold mbind, T_bind, mret, T_ret.
    destruct (approve_share c (ShareObject.shareUri s) log) as [log' [b|e]]; by cbn in *.
  - cbn [orb] in Hs. rewrite Hs.
    pose proof (reject_share_attempts c (ShareObject.shareUri s) log) as Ha.
    unfold mbind, T_bind, mret, T_ret.
    destruct (reject_share c (ShareObject.shareUri s) log) as [log' [b|e]]; by cbn in *.
Qed.

Lemma for_each_refresh_share (shares : list ShareObject.t) (log : list Call) :
  forallb refreshed shares = true ->
  (for_each shares (refresh_share c) log).2 = Ok tt
  /\ attempts (for_each shares (refresh_share c) log).1
     = attempts log ++ List.map attempt_of shares.
Proof.
  revert log. induction shares as [|s shares IH]; intros log; cbn [forallb for_each List.map].
  - intros _. by rewrite app_nil_r.
  - intros [Hs Hrest]%andb_true_iff.
    destruct (refresh_share_attempts s log Hs) as [Hok Hat].
    unfold mbind, T_bind.
    destruct (refresh_share c s log) as [log' [[]|e]]; cbn [fst snd] in *; [| discriminate].
    destruct (IH log' Hrest) as [Hok' Hat'].
    split; [exact Hok' |]. by rewrite Hat', Hat, <- app_assoc.
Qed.

(** The clean-up asks for the data of no share. *)
Lemma clean_attempts (e : Environment.t) (log : list Call) :
  attempts (clean_lfv1_ram_resources c e log).1 = attempts log.
Proof.
  unfold clean_lfv1_ram_resources, call. cbn [fst]. by rewrite attempts_app, app_nil_r.
Qed.

Lemma for_each_clean_attempts (environments : list Environment.t) (log : list Call) :
  attempts (for_each environments (clean_lfv1_ram_resources c) log).1 = attempts log.
Proof.
  revert log. induction environments as [|e environments IH]; intros log; [done |].
  cbn [for_each]. pose proof (clean_attempts e log) as He.
  destruct (clean_lfv1_ram_resources c e log) as [log' [[]|err]] eqn:E; cbn [fst] in He.
  - rewrite (T_bind_ok _ _ _ _ _ E). by rewrite IH.
  - by rewrite (T_bind_raise _ _ _ _ _ E).
Qed.

Lemma filter_refreshed (rows : list ShareObject.t) :
  forallb refreshed (List.filter refreshed rows) = true.
Proof.
  induction rows as [|s rows IH]; [done |]. cbn [List.filter].
  destruct (refreshed s) eqn:E; [| exact IH]. cbn [forallb]. by rewrite E, IH.
Qed.

(** The end of [refresh_shares], from the test of [shares] on. *)
Lemma refresh_shares_loop (shares : list ShareObject.t) (log : list Call) :
  forallb refreshed shares = true ->
  let run := match shares with
             | [] => mret true
             | _ :: _ => for_each shares (refresh_share c);; mret true
             end log in
  run.2 = Ok true /\ attempts run.1 = attempts log ++ List.map attempt_of shares.
Proof.
  intros Hall. destruct (for_each_refresh_share shares log Hall) as [Hok Hat].
  destruct shares as [|s shares]; [cbn; by rewrite app_nil_r |].
  destruct (for_each (s :: shares) (refresh_share c) log) as [log' [[]|e]] eqn:E;
    [| discriminate].
  cbv zeta. by rewrite (T_bind_ok _ _ _ _ _ E).
Qed.

(** X22: a refresh is all or nothing.  When [refresh_shares] returns, it
    returns [True] and has asked for the data of every share of the table
    whose status is [Approved] or [Rejected], once each and in the order of
    the table, with the status of the share, whatever became of the shares
    before; when it raises, it has asked for the data of no share. *)
Theorem refresh_is_all_or_nothing (log : list Call) :
  let run := refresh_shares c log in
  match run.2 with
  | Ok b =>
      b = true
      /\ exists environments rows,
           store c = Ok (environments, rows)
           /\ attempts run.1
              = attempts log ++ List.map attempt_of (List.filter refreshed rows)
  | Raise e => attempts run.1 = attempts log
  end.
Proof.
  intros run. unfold run, refresh_shares. clear run.
  destruct (store c) as [[environments rows]|e] eqn:Hstore.
  2:{ rewrite (T_bind_raise (query c) _ log log e); [done |]. unfold query. by rewrite Hstore. }
  rewrite (T_bind_ok (query c) _ log log (environments, List.filter refreshed rows))
    by (unfold query; by rewrite Hstore).
  set (asked := get_parameter _ _). set (log1 := log ++ [asked]).
  assert (H1 : attempts log1 = attempts log).
  { unfold log1. by rewrite attempts_app, app_nil_r. }
  destruct (fault c log asked) as [e|] eqn:Hfault.
  { rewrite (T_bind_raise (call c asked (parameter c)) _ log log1 e); [done |].
    unfold call. by rewrite Hfault. }
  rewrite (T_bind_ok (call c asked (parameter c)) _ log log1 (parameter c log))
    by (unfold call; by rewrite Hfault).
  assert (Hend : forall log2, attempts log2 = attempts log ->
            let run := match List.filter refreshed rows with
                       | [] => mret true
                       | _ :: _ => for_each (List.filter refreshed rows) (refresh_share c);;
                                   mret true
                       end log2 in
            match run.2 with
            | Ok b => b = true
                      /\ exists environments0 rows0,
                           Ok (environments, rows) = Ok (environments0, rows0)
                           /\ attempts run.1
                              = attempts log
                                ++ List.map attempt_of (List.filter refreshed rows0)
            | Raise _ => attempts run.1 = attempts log
            end).
  { intros log2 H2.
    destruct (refresh_shares_loop (List.filter refreshed rows) log2 (filter_refreshed rows))
      as [Hok Hat].
    cbv zeta. rewrite Hok. split; [done |]. exists environments, rows.
    split; [done |]. by rewrite Hat, H2. }
  destruct (bool_decide (parameter c log = Some "True")).
  - pose proof (for_each_clean_attempts environments log1) as Hc.
    destruct (for_each environments (clean_lfv1_ram_resources c) log1)
      as [log2 [[]|e]] eqn:E; cbn [fst] in Hc.
    + rewrite (T_bind_ok _ _ _ _ _ E). apply Hend. by rewrite Hc.
    + rewrite (T_bind_raise _ _ _ _ _ E). cbn [fst snd]. by rewrite Hc.
  - rewrite (T_bind_ok (mret tt) _ log1 log1 tt) by done. by apply Hend.
Qed.

(** X23: with the toggle off, [refresh_shares] returns [True] whenever the
    tables and the toggle can be read, whatever the calls made for the
    shares raise: the failure of a share, of all shares even, is logged and
    not passed on. *)
Theorem refresh_survives_failing_shares (log : list Call)
    (environments : list Environment.t) (rows : list ShareObject.t) :
  store c = Ok (environments, rows) ->
  fault c log (get_parameter (default "local" (envname c)) "shares/cleanlfv1ram") = None ->
  parameter c log <> Some "True" ->
  (refresh_shares c log).2 = Ok true.
Proof.
  intros Hstore Hfault Htoggle. unfold refresh_shares.
  rewrite (T_bind_ok (query c) _ log log (environments, List.filter refreshed rows))
    by (unfold query; by rewrite Hstore).
  set (asked := get_parameter _ _) in *. set (log1 := log ++ [asked]).
  rewrite (T_bind_ok (call c asked (parameter c)) _ log log1 (parameter c log))
    by (unfold call; by rewrite Hfault).
  rewrite bool_decide_eq_false_2 by exact Htoggle.
  rewrite (T_bind_ok (mret tt) _ log1 log1 tt) by done.
  apply (refresh_shares_loop (List.filter refreshed rows) log1 (filter_refreshed rows)).
Qed.

End Refresh.

Lemma refresh_survives_failing_shares_witness :
  (DataSharingService.refresh_shares Shares.failing []).2 = Ok true.
Proof.
  apply (refresh_survives_failing_shares Shares.failing []
           [Shares.producer; Shares.consumer] [Shares.first; Shares.draft; Shares.second]);
    [reflexivity | reflexivity | discriminate].
Defined.
